(** * EnhancedTimerManager: a shallow embedding of the timer subsystem

    The development follows the C++ sources

    - [Public/EnhancedTimerManagerTypes.h]      (dilation modes)
    - [Public/EnhancedTimerManagerSubsystem.h]  ([FEnhancedTimerData] and its
      inline methods, the subsystem's members)
    - [Private/EnhancedTimerManagerSubsystem.cpp] (creation, [Tick],
      [ExecuteFired], [Cleanup], the queries)
    - [Private/EnhancedTimerHandle.cpp]         (the handle's forwarding calls)

    Conventions of the embedding.

    - [float] values are idealised as rationals ([Q]): additions, products and
      comparisons are exact, there is no NaN and no rounding.  Equalities
      between computed times are therefore stated with [==] ([Qeq]).  The
      source computes in single precision, where a sum is rounded and a small
      delta added to a large elapsed time can be lost; no property therefore
      states the value an elapsed time has accumulated over several calls of
      [Tick] (the worked scenarios use values that single precision holds
      exactly).
    - [uint64] is [N] with the wrap-around of [++] written out.
    - [TMap<uint64, FEnhancedTimerData>] is a [gmap N FEnhancedTimerData].
      The iteration order of a [TMap] is not specified by the source; the
      loops over it are taken in the order of [map_to_list].
    - A delegate is either unbound or bound to a piece of user code, named by
      a number.  What user code does to the subsystem when it runs is given
      by [UserCode]; it can reach the timer map and the id counter (through
      the public API) but not the private per-tick buffers.
    - Every entry point is modelled as it runs on the game thread; a call
      from another thread is marshalled by the source to that same body. *)

From Stdlib Require Import QArith Qminmax Lqa NArith List Bool Lia.
From stdpp Require Import base option list gmap fin_maps.

Set Default Proof Using "Type".

(** ** Numbers *)

Definition float := Q.
Definition uint64 := N.

Definition UINT64_MODULUS : N := (2 ^ 64)%N.

(** Engine constants ([Math/UnrealMathUtility.h]): [UE_SMALL_NUMBER] is
    [1.e-8f] and [KINDA_SMALL_NUMBER] is [1.e-4f]. *)
Definition UE_SMALL_NUMBER : float := (1 # 100000000)%Q.
Definition KINDA_SMALL_NUMBER : float := (1 # 10000)%Q.

(** [a < b] on floats, as a boolean. *)
Definition Qlt_bool (a b : float) : bool := negb (Qle_bool b a).

(** [FMath::Max(A, B)] is [(B < A) ? A : B]. *)
Definition FMath_Max (A B : float) : float := if Qlt_bool B A then A else B.

(** ** EnhancedTimerManagerTypes.h *)

Inductive EEnhancedTimerTimeDilationMode :=
  | IgnoreTimeDilation
  | GlobalTimeDilation
  | ActorTimeDilation.

(** ** The host: actors, the world, weak pointers *)

Record AActor := { CustomTimeDilation : float }.

(** A [TWeakObjectPtr<AActor>]: [None] is the null pointer, [Some a] names
    the object [a], which may have been destroyed since. *)
Definition TWeakObjectPtr := option nat.

Record UWorld := {
  bGamePaused : bool;            (* UGameplayStatics::IsGamePaused(World) *)
  TimeDilation : float           (* UGameplayStatics::GetGlobalTimeDilation(World) *)
}.

(** What the engine answers during one frame: the subsystem's world (absent
    when [GetWorld()] is null) and the actors that are still alive. *)
Record Host := {
  GetWorld : option UWorld;
  Actors : nat -> option AActor
}.

(** [DilationActor.Get()]. *)
Definition WeakGet (H : Host) (p : TWeakObjectPtr) : option AActor :=
  match p with
  | None => None
  | Some a => Actors H a
  end.

(** ** FEnhancedTimerData *)

Inductive ETimerPhase := InitialDelayPhase | Running.

(** [FTimerDelegate] and [FTimerDynamicDelegate]: unbound, or bound to the
    user code of that number. *)
Definition FTimerDelegate := option nat.

Record FEnhancedTimerData := {
  Id : uint64;
  Delegate : FTimerDelegate;
  DynamicDelegate : FTimerDelegate;
  bUseDynamic : bool;
  bLoop : bool;
  bPaused : bool;
  bAffectedByGamePause : bool;
  bNextTick : bool;
  Duration : float;
  PhaseElapsed : float;
  InitialDelay : float;
  Phase : ETimerPhase;
  DilationMode : EEnhancedTimerTimeDilationMode;
  DilationActor : TWeakObjectPtr
}.

Definition set_Phase (T : FEnhancedTimerData) (p : ETimerPhase) (e : float)
  : FEnhancedTimerData :=
  {| Id := Id T; Delegate := Delegate T; DynamicDelegate := DynamicDelegate T;
     bUseDynamic := bUseDynamic T; bLoop := bLoop T; bPaused := bPaused T;
     bAffectedByGamePause := bAffectedByGamePause T; bNextTick := bNextTick T;
     Duration := Duration T; PhaseElapsed := e; InitialDelay := InitialDelay T;
     Phase := p; DilationMode := DilationMode T;
     DilationActor := DilationActor T |}.

Definition set_bPaused (T : FEnhancedTimerData) (b : bool) : FEnhancedTimerData :=
  {| Id := Id T; Delegate := Delegate T; DynamicDelegate := DynamicDelegate T;
     bUseDynamic := bUseDynamic T; bLoop := bLoop T; bPaused := b;
     bAffectedByGamePause := bAffectedByGamePause T; bNextTick := bNextTick T;
     Duration := Duration T; PhaseElapsed := PhaseElapsed T;
     InitialDelay := InitialDelay T; Phase := Phase T;
     DilationMode := DilationMode T; DilationActor := DilationActor T |}.

(** The post-fire reset of a looping timer: [Phase = Running],
    [PhaseElapsed = 0], [bNextTick = false]. *)
Definition rearm (T : FEnhancedTimerData) : FEnhancedTimerData :=
  {| Id := Id T; Delegate := Delegate T; DynamicDelegate := DynamicDelegate T;
     bUseDynamic := bUseDynamic T; bLoop := bLoop T; bPaused := bPaused T;
     bAffectedByGamePause := bAffectedByGamePause T; bNextTick := false;
     Duration := Duration T; PhaseElapsed := 0%Q;
     InitialDelay := InitialDelay T; Phase := Running;
     DilationMode := DilationMode T; DilationActor := DilationActor T |}.

Definition phase_eqb (p q : ETimerPhase) : bool :=
  match p, q with
  | InitialDelayPhase, InitialDelayPhase | Running, Running => true
  | _, _ => false
  end.

(** [FEnhancedTimerData::GetEffectiveDelta(WorldDelta, World)]. *)
Definition GetEffectiveDelta (H : Host) (T : FEnhancedTimerData)
    (WorldDelta : float) (World : option UWorld) : float :=
  match DilationMode T with
  | GlobalTimeDilation =>
      match World with
      | Some W => (WorldDelta * TimeDilation W)%Q
      | None => WorldDelta
      end
  | ActorTimeDilation =>
      match WeakGet H (DilationActor T) with
      | Some A =>
          let Scale := FMath_Max UE_SMALL_NUMBER (CustomTimeDilation A) in
          (WorldDelta * Scale)%Q
      | None => WorldDelta
      end
  | IgnoreTimeDilation => WorldDelta
  end.

(** [FEnhancedTimerData::Advance(EffDelta)]: [PhaseElapsed += EffDelta], the
    sum being exact here. *)
Definition Advance (T : FEnhancedTimerData) (EffDelta : float) : FEnhancedTimerData :=
  set_Phase T (Phase T) (PhaseElapsed T + EffDelta)%Q.

(** [FEnhancedTimerData::TryTransitFromDelay()]: the record after the call
    and the returned flag. *)
Definition TryTransitFromDelay (T : FEnhancedTimerData) : FEnhancedTimerData * bool :=
  if phase_eqb (Phase T) InitialDelayPhase
     && Qle_bool (InitialDelay T) (PhaseElapsed T + KINDA_SMALL_NUMBER)%Q
  then (set_Phase T Running 0%Q, true)
  else (T, false).

(** [FEnhancedTimerData::ShouldFire()]. *)
Definition ShouldFire (T : FEnhancedTimerData) : bool :=
  phase_eqb (Phase T) Running
  && Qle_bool (Duration T) (PhaseElapsed T + KINDA_SMALL_NUMBER)%Q.

(** ** The subsystem's members *)

Record Subsystem := {
  This : nat;                                   (* the object, as weak pointers name it *)
  Timers : gmap N FEnhancedTimerData;
  FiredThisTick : list uint64;
  ToRemove : list uint64;
  ToUnpause : list uint64;
  NextId : uint64
}.

Definition set_Timers (s : Subsystem) (m : gmap N FEnhancedTimerData) : Subsystem :=
  {| This := This s; Timers := m; FiredThisTick := FiredThisTick s;
     ToRemove := ToRemove s; ToUnpause := ToUnpause s; NextId := NextId s |}.

Definition set_FiredThisTick (s : Subsystem) (l : list uint64) : Subsystem :=
  {| This := This s; Timers := Timers s; FiredThisTick := l;
     ToRemove := ToRemove s; ToUnpause := ToUnpause s; NextId := NextId s |}.

Definition set_ToRemove (s : Subsystem) (l : list uint64) : Subsystem :=
  {| This := This s; Timers := Timers s; FiredThisTick := FiredThisTick s;
     ToRemove := l; ToUnpause := ToUnpause s; NextId := NextId s |}.

Definition set_ToUnpause (s : Subsystem) (l : list uint64) : Subsystem :=
  {| This := This s; Timers := Timers s; FiredThisTick := FiredThisTick s;
     ToRemove := ToRemove s; ToUnpause := l; NextId := NextId s |}.

Definition set_NextId (s : Subsystem) (n : uint64) : Subsystem :=
  {| This := This s; Timers := Timers s; FiredThisTick := FiredThisTick s;
     ToRemove := ToRemove s; ToUnpause := ToUnpause s; NextId := n |}.

(** A freshly constructed subsystem object (the member initialisers of the
    class: empty containers, [NextId = 1]). *)
Definition NewSubsystem (this : nat) : Subsystem :=
  {| This := this; Timers := ∅; FiredThisTick := []; ToRemove := [];
     ToUnpause := []; NextId := 1%N |}.

(** [Initialize]: only reserves capacity. *)
Definition Initialize (s : Subsystem) : Subsystem := s.

(** [Deinitialize]: empties every container and restarts the counter. *)
Definition Deinitialize (s : Subsystem) : Subsystem :=
  {| This := This s; Timers := ∅; FiredThisTick := []; ToRemove := [];
     ToUnpause := []; NextId := 1%N |}.

(** [AllocateId]: [Out = NextId++], then the wrap protection. *)
Definition AllocateId (s : Subsystem) : uint64 * Subsystem :=
  let Out := NextId s in
  let Incremented := ((NextId s + 1) mod UINT64_MODULUS)%N in
  let Next := if (Incremented =? 0)%N then 1%N else Incremented in
  (Out, set_NextId s Next).

(** [GetData(Id, Out)]: the copy, when the id is found. *)
Definition GetData (s : Subsystem) (Id : uint64) : option FEnhancedTimerData :=
  Timers s !! Id.

(** [FindMutable(Id)]: the record a later write through the pointer goes to. *)
Definition FindMutable (s : Subsystem) (Id : uint64) : option FEnhancedTimerData :=
  Timers s !! Id.

(** ** FEnhancedTimerHandle *)

Record FEnhancedTimerHandle := {
  HandleId : uint64;
  Owner : TWeakObjectPtr
}.

(** The default-constructed handle: [Id = 0], no owner. *)
Definition InvalidHandle : FEnhancedTimerHandle :=
  {| HandleId := 0%N; Owner := None |}.

(** ** Creation *)

(** The part of [SetEnhancedTimer] and [SetEnhancedTimer_BP] after the record
    is filled in with its defaults: the initial delay.  [Rand] is the value
    [FMath::FRandRange(-Variation, Variation)] returned. *)
Definition ApplyInitialDelay (Data : FEnhancedTimerData)
    (DelayToStartCountingDown DelayToStartCountingDownVariation Rand : float)
  : FEnhancedTimerData :=
  if Qlt_bool 0%Q DelayToStartCountingDown
     || Qlt_bool 0%Q DelayToStartCountingDownVariation
  then
    let Bigger := FMath_Max 0%Q Rand in
    let Delay := FMath_Max 0%Q (DelayToStartCountingDown + Bigger)%Q in
    let Data1 :=
      {| Id := Id Data; Delegate := Delegate Data;
         DynamicDelegate := DynamicDelegate Data;
         bUseDynamic := bUseDynamic Data; bLoop := bLoop Data;
         bPaused := bPaused Data;
         bAffectedByGamePause := bAffectedByGamePause Data;
         bNextTick := bNextTick Data; Duration := Duration Data;
         PhaseElapsed := PhaseElapsed Data; InitialDelay := Delay;
         Phase := Phase Data; DilationMode := DilationMode Data;
         DilationActor := DilationActor Data |} in
    if Qlt_bool 0%Q Delay then set_Phase Data1 InitialDelayPhase 0%Q else Data1
  else Data.

(** [SetEnhancedTimer] (C++ delegate). *)
Definition SetEnhancedTimer (InDelegate : FTimerDelegate) (aDuration : float)
    (aDilationMode : EEnhancedTimerTimeDilationMode) (aDilationActor : TWeakObjectPtr)
    (abAffectedByGamePause abLoop : bool)
    (DelayToStartCountingDown DelayToStartCountingDownVariation Rand : float)
    (s : Subsystem) : FEnhancedTimerHandle * Subsystem :=
  let '(NewId, s1) := AllocateId s in
  let Data :=
    {| Id := NewId; Delegate := InDelegate; DynamicDelegate := None;
       bUseDynamic := false; bLoop := abLoop; bPaused := false;
       bAffectedByGamePause := abAffectedByGamePause; bNextTick := false;
       Duration := FMath_Max 0%Q aDuration; PhaseElapsed := 0%Q;
       InitialDelay := 0%Q; Phase := Running;
       DilationMode := aDilationMode; DilationActor := aDilationActor |} in
  let Data' := ApplyInitialDelay Data DelayToStartCountingDown
                 DelayToStartCountingDownVariation Rand in
  ({| HandleId := NewId; Owner := Some (This s) |},
   set_Timers s1 (<[NewId := Data']> (Timers s1))).

(** [SetEnhancedTimer_BP] (Blueprint delegate). *)
Definition SetEnhancedTimer_BP (Event : FTimerDelegate) (aDuration : float)
    (aDilationMode : EEnhancedTimerTimeDilationMode) (aDilationActor : TWeakObjectPtr)
    (abAffectedByGamePause abLoop : bool)
    (DelayToStartCountingDown DelayToStartCountingDownVariation Rand : float)
    (s : Subsystem) : FEnhancedTimerHandle * Subsystem :=
  let '(NewId, s1) := AllocateId s in
  let Data :=
    {| Id := NewId; Delegate := None; DynamicDelegate := Event;
       bUseDynamic := true; bLoop := abLoop; bPaused := false;
       bAffectedByGamePause := abAffectedByGamePause; bNextTick := false;
       Duration := FMath_Max 0%Q aDuration; PhaseElapsed := 0%Q;
       InitialDelay := 0%Q; Phase := Running;
       DilationMode := aDilationMode; DilationActor := aDilationActor |} in
  let Data' := ApplyInitialDelay Data DelayToStartCountingDown
                 DelayToStartCountingDownVariation Rand in
  ({| HandleId := NewId; Owner := Some (This s) |},
   set_Timers s1 (<[NewId := Data']> (Timers s1))).

(** [SetEnhancedTimerExecutedInNextTick]. *)
Definition SetEnhancedTimerExecutedInNextTick (InDelegate : FTimerDelegate)
    (s : Subsystem) : FEnhancedTimerHandle * Subsystem :=
  let '(NewId, s1) := AllocateId s in
  let Data :=
    {| Id := NewId; Delegate := InDelegate; DynamicDelegate := None;
       bUseDynamic := false; bLoop := false; bPaused := false;
       bAffectedByGamePause := true; bNextTick := true;
       Duration := 0%Q; PhaseElapsed := 0%Q; InitialDelay := 0%Q;
       Phase := Running; DilationMode := IgnoreTimeDilation;
       DilationActor := None |} in
  ({| HandleId := NewId; Owner := Some (This s) |},
   set_Timers s1 (<[NewId := Data]> (Timers s1))).

(** [SetEnhancedTimerExecutedInNextTick_BP]. *)
Definition SetEnhancedTimerExecutedInNextTick_BP (Event : FTimerDelegate)
    (s : Subsystem) : FEnhancedTimerHandle * Subsystem :=
  let '(NewId, s1) := AllocateId s in
  let Data :=
    {| Id := NewId; Delegate := None; DynamicDelegate := Event;
       bUseDynamic := true; bLoop := false; bPaused := false;
       bAffectedByGamePause := true; bNextTick := true;
       Duration := 0%Q; PhaseElapsed := 0%Q; InitialDelay := 0%Q;
       Phase := Running; DilationMode := IgnoreTimeDilation;
       DilationActor := None |} in
  ({| HandleId := NewId; Owner := Some (This s) |},
   set_Timers s1 (<[NewId := Data]> (Timers s1))).

(** ** Tick *)

(** One execution of a bound delegate: the timer on whose behalf it ran and
    the user code that ran. *)
Record Invocation := {
  FiredId : uint64;
  Callee : nat
}.

(** [IsGamePaused()]. *)
Definition IsGamePaused (H : Host) : bool :=
  match GetWorld H with
  | Some W => bGamePaused W
  | None => false
  end.

(** The pre-marking loop over the snapshot ([FiredThisTick.Add] for the
    next-tick timers that are neither paused nor frozen by the game pause). *)
Fixpoint PreMarkLoop (bPausedNow : bool)
    (Snapshot : list (uint64 * FEnhancedTimerData)) (Fired : list uint64)
  : list uint64 :=
  match Snapshot with
  | [] => Fired
  | (Key, T) :: Rest =>
      if bPaused T then PreMarkLoop bPausedNow Rest Fired
      else if bPausedNow && negb (bAffectedByGamePause T)
      then PreMarkLoop bPausedNow Rest Fired
      else if bNextTick T then PreMarkLoop bPausedNow Rest (Fired ++ [Key])
      else PreMarkLoop bPausedNow Rest Fired
  end.

(** The body of the mutable pass on one record: the record as the body
    leaves it, and whether the body reached [FiredThisTick.Add]. *)
Definition MutableBody (H : Host) (World : UWorld) (bPausedNow : bool)
    (DeltaTime : float) (T : FEnhancedTimerData) : FEnhancedTimerData * bool :=
  if bPaused T then (T, false)
  else if bPausedNow && negb (bAffectedByGamePause T) then (T, false)
  else if bNextTick T then (T, false)
  else
    let Eff := GetEffectiveDelta H T DeltaTime (Some World) in
    let T1 := Advance T Eff in
    let '(T2, bTransit) := TryTransitFromDelay T1 in
    if bTransit then (T2, false)
    else (T2, ShouldFire T2).

(** The mutable pass: the loop over the entries of [Timers], each updated in
    place.  Every key is visited once and the body writes to its own entry
    only, so the record the body reads is the one the pass started with. *)
Fixpoint MutableLoop (H : Host) (World : UWorld) (bPausedNow : bool)
    (DeltaTime : float) (Entries : list (uint64 * FEnhancedTimerData))
    (s : Subsystem) : Subsystem :=
  match Entries with
  | [] => s
  | (Key, T) :: Rest =>
      let '(T', bFire) := MutableBody H World bPausedNow DeltaTime T in
      let s1 := set_Timers s (<[Key := T']> (Timers s)) in
      let s2 := if bFire then set_FiredThisTick s1 (FiredThisTick s1 ++ [Key])
                else s1 in
      MutableLoop H World bPausedNow DeltaTime Rest s2
  end.

(** The first half of [Tick], up to the call of [ExecuteFired]: the snapshot,
    the pre-marking pass over it and the mutable pass over [Timers]. *)
Definition MarkDue (H : Host) (World : UWorld) (DeltaTime : float)
    (s : Subsystem) : Subsystem :=
  let bPausedNow := IsGamePaused H in
  let ReusableSnapshot := map_to_list (Timers s) in
  let s1 := set_FiredThisTick s
              (PreMarkLoop bPausedNow ReusableSnapshot (FiredThisTick s)) in
  MutableLoop H World bPausedNow DeltaTime (map_to_list (Timers s1)) s1.

(** [Cleanup]. *)
Definition Cleanup (s : Subsystem) : Subsystem :=
  match ToRemove s, ToUnpause s with
  | [], [] => s
  | _, _ =>
      let m1 := fold_left (fun m Id => delete Id m) (ToRemove s) (Timers s) in
      let m2 := fold_left
                  (fun m Id =>
                     match m !! Id with
                     | Some T => <[Id := set_bPaused T false]> m
                     | None => m
                     end)
                  (ToUnpause s) m1 in
      set_ToUnpause (set_ToRemove (set_Timers s m2) []) []
  end.

(** The delegate [ExecuteFired] runs for a record: the dynamic one when
    [bUseDynamic], the C++ one otherwise. *)
Definition Callback (T : FEnhancedTimerData) : FTimerDelegate :=
  if bUseDynamic T then DynamicDelegate T else Delegate T.

Section WithUserCode.

(** What a piece of user code does when it is executed: through the public
    API it can change the timer map and advance the id counter. *)
Variable UserCode : nat -> gmap N FEnhancedTimerData * uint64 ->
                    gmap N FEnhancedTimerData * uint64.

Definition RunUserCode (f : nat) (s : Subsystem) : Subsystem :=
  let '(m, n) := UserCode f (Timers s, NextId s) in
  set_NextId (set_Timers s m) n.

(** The body of the loop of [ExecuteFired] for one id. *)
Definition FireOne (Id : uint64) (s : Subsystem) : Subsystem * list Invocation :=
  match GetData s Id with
  | None => (s, [])
  | Some Copy =>
      let '(s1, Log) :=
        match Callback Copy with
        | Some f => (RunUserCode f s, [ {| FiredId := Id; Callee := f |} ])
        | None => (s, [])
        end in
      match FindMutable s1 Id with
      | Some Mut =>
          if bLoop Mut
          then (set_Timers s1 (<[Id := rearm Mut]> (Timers s1)), Log)
          else (set_ToRemove s1 (ToRemove s1 ++ [Id]), Log)
      | None => (s1, Log)
      end
  end.

Fixpoint FireLoop (ToFire : list uint64) (s : Subsystem)
  : Subsystem * list Invocation :=
  match ToFire with
  | [] => (s, [])
  | Id :: Rest =>
      let '(s1, Log1) := FireOne Id s in
      let '(s2, Log2) := FireLoop Rest s1 in
      (s2, Log1 ++ Log2)
  end.

(** [ExecuteFired]. *)
Definition ExecuteFired (s : Subsystem) : Subsystem * list Invocation :=
  match FiredThisTick s with
  | [] => (s, [])
  | ReusableToFire => FireLoop ReusableToFire (set_FiredThisTick s [])
  end.

(** [Tick(DeltaTime)]: the subsystem after the call and the delegates it
    executed, in order. *)
Definition Tick (H : Host) (DeltaTime : float) (s : Subsystem)
  : Subsystem * list Invocation :=
  match GetWorld H with
  | None => (s, [])
  | Some World =>
      let s2 := MarkDue H World DeltaTime s in
      let '(s3, Log) := ExecuteFired s2 in
      (Cleanup s3, Log)
  end.

(** A run of frames: each has its host state and its delta. *)
Fixpoint Ticks (Frames : list (Host * float)) (s : Subsystem)
  : Subsystem * list Invocation :=
  match Frames with
  | [] => (s, [])
  | (H, DeltaTime) :: Rest =>
      let '(s1, Log1) := Tick H DeltaTime s in
      let '(s2, Log2) := Ticks Rest s1 in
      (s2, Log1 ++ Log2)
  end.

End WithUserCode.

(** ** Single-handle operations *)

Definition IsTimerValid (s : Subsystem) (Handle : FEnhancedTimerHandle) : bool :=
  if (HandleId Handle =? 0)%N then false
  else bool_decide (is_Some (Timers s !! HandleId Handle)).

Definition InvalidateTimer (Handle : FEnhancedTimerHandle) (s : Subsystem) : Subsystem :=
  if (HandleId Handle =? 0)%N then s
  else set_Timers s (delete (HandleId Handle) (Timers s)).

Definition IsTimerPaused (s : Subsystem) (Handle : FEnhancedTimerHandle) : bool :=
  match GetData s (HandleId Handle) with
  | Some T => bPaused T
  | None => false
  end.

Definition PauseTimer (Handle : FEnhancedTimerHandle) (s : Subsystem) : Subsystem :=
  match FindMutable s (HandleId Handle) with
  | Some T => set_Timers s (<[HandleId Handle := set_bPaused T true]> (Timers s))
  | None => s
  end.

Definition UnpauseTimer (Handle : FEnhancedTimerHandle) (s : Subsystem) : Subsystem :=
  match FindMutable s (HandleId Handle) with
  | Some T => set_Timers s (<[HandleId Handle := set_bPaused T false]> (Timers s))
  | None => s
  end.

Definition IsTimerLooping (s : Subsystem) (Handle : FEnhancedTimerHandle) : bool :=
  match GetData s (HandleId Handle) with
  | Some T => bLoop T
  | None => false
  end.

Definition GetTimerDuration (s : Subsystem) (Handle : FEnhancedTimerHandle) : float :=
  match GetData s (HandleId Handle) with
  | Some T => Duration T
  | None => (-1)%Q
  end.

Definition GetTimerTimeLeft (s : Subsystem) (Handle : FEnhancedTimerHandle) : float :=
  match GetData s (HandleId Handle) with
  | None => (-1)%Q
  | Some T =>
      if phase_eqb (Phase T) InitialDelayPhase
      then FMath_Max 0%Q (InitialDelay T - PhaseElapsed T)%Q
      else FMath_Max 0%Q (Duration T - PhaseElapsed T)%Q
  end.

Definition GetTimerElapsedTime (s : Subsystem) (Handle : FEnhancedTimerHandle) : float :=
  match GetData s (HandleId Handle) with
  | Some T => PhaseElapsed T
  | None => (-1)%Q
  end.

Definition IsTimerAffectedByGamePause (s : Subsystem) (Handle : FEnhancedTimerHandle) : bool :=
  match GetData s (HandleId Handle) with
  | Some T => bAffectedByGamePause T
  | None => false
  end.

Definition GetTimerTimeDilationMode (s : Subsystem) (Handle : FEnhancedTimerHandle)
  : EEnhancedTimerTimeDilationMode :=
  match GetData s (HandleId Handle) with
  | Some T => DilationMode T
  | None => IgnoreTimeDilation
  end.

(** ** Bulk operations *)

Definition InvalidateAllTimers (s : Subsystem) : Subsystem := set_Timers s ∅.

Definition PauseAllTimers (s : Subsystem) : Subsystem :=
  set_Timers s ((fun T => set_bPaused T true) <$> Timers s).

Definition UnpauseAllTimers (s : Subsystem) : Subsystem :=
  set_Timers s ((fun T => set_bPaused T false) <$> Timers s).

(** ** EnhancedTimerHandle.cpp *)

(** [Owner.Get()] for the handle's weak owner pointer; [Objects] tells which
    subsystem objects are alive. *)
Definition OwnerGet (Objects : nat -> option Subsystem)
    (Handle : FEnhancedTimerHandle) : option Subsystem :=
  match Owner Handle with
  | None => None
  | Some o => Objects o
  end.

Section HandleCalls.

Variable Objects : nat -> option Subsystem.

Definition Handle_IsValid (h : FEnhancedTimerHandle) : bool :=
  negb (HandleId h =? 0)%N
  && match OwnerGet Objects h with
     | Some o => IsTimerValid o h
     | None => false
     end.

Definition Handle_IsPaused (h : FEnhancedTimerHandle) : bool :=
  match OwnerGet Objects h with
  | Some o => IsTimerPaused o h
  | None => false
  end.

Definition Handle_IsLooping (h : FEnhancedTimerHandle) : bool :=
  match OwnerGet Objects h with
  | Some o => IsTimerLooping o h
  | None => false
  end.

Definition Handle_GetDuration (h : FEnhancedTimerHandle) : float :=
  match OwnerGet Objects h with
  | Some o => GetTimerDuration o h
  | None => (-1)%Q
  end.

Definition Handle_GetTimeLeft (h : FEnhancedTimerHandle) : float :=
  match OwnerGet Objects h with
  | Some o => GetTimerTimeLeft o h
  | None => (-1)%Q
  end.

Definition Handle_GetElapsedTime (h : FEnhancedTimerHandle) : float :=
  match OwnerGet Objects h with
  | Some o => GetTimerElapsedTime o h
  | None => (-1)%Q
  end.

Definition Handle_IsAffectedByGamePause (h : FEnhancedTimerHandle) : bool :=
  match OwnerGet Objects h with
  | Some o => IsTimerAffectedByGamePause o h
  | None => false
  end.

Definition Handle_GetTimeDilationMode (h : FEnhancedTimerHandle)
  : EEnhancedTimerTimeDilationMode :=
  match OwnerGet Objects h with
  | Some o => GetTimerTimeDilationMode o h
  | None => IgnoreTimeDilation
  end.

End HandleCalls.

(** ** Notions used to state the properties *)

(** The Dilation Resolver in the specification's words: a function of the
    mode, the raw delta, the global scale and the scale of the source, absent
    when the source is dead. *)
Definition DilationResolver (mode : EEnhancedTimerTimeDilationMode)
    (rawDelta globalScale : float) (sourceScale : option float) : float :=
  match mode, sourceScale with
  | IgnoreTimeDilation, _ => rawDelta
  | GlobalTimeDilation, _ => (rawDelta * globalScale)%Q
  | ActorTimeDilation, Some sc => (rawDelta * Qmax UE_SMALL_NUMBER sc)%Q
  | ActorTimeDilation, None => rawDelta
  end.

(** The executions logged on behalf of one timer. *)
Definition InvocationsOf (id : uint64) (Log : list Invocation) : list Invocation :=
  List.filter (fun i => (FiredId i =? id)%N) Log.

(** The skip tests shared by both passes of [Tick]: the record is explicitly
    paused, or the game is paused and the record does not keep running then. *)
Definition Frozen (bPausedNow : bool) (T : FEnhancedTimerData) : bool :=
  bPaused T || (bPausedNow && negb (bAffectedByGamePause T)).

(** The record is pre-marked by the pass over the snapshot. *)
Definition PreMarked (bPausedNow : bool) (T : FEnhancedTimerData) : bool :=
  negb (Frozen bPausedNow T) && bNextTick T.

(** The record's id is added to [FiredThisTick] by one of the two passes. *)
Definition Due (H : Host) (World : UWorld) (DeltaTime : float)
    (T : FEnhancedTimerData) : bool :=
  PreMarked (IsGamePaused H) T
  || snd (MutableBody H World (IsGamePaused H) DeltaTime T).

(** The private buffers are empty, as they are between two calls of [Tick]. *)
Definition Idle (s : Subsystem) : Prop :=
  FiredThisTick s = [] /\ ToRemove s = [] /\ ToUnpause s = [].

(** No user code touches the record stored under [id]. *)
Definition LeavesAlone
    (UserCode : nat -> gmap N FEnhancedTimerData * uint64 ->
                gmap N FEnhancedTimerData * uint64)
    (id : uint64) : Prop :=
  forall f st, (UserCode f st).1 !! id = st.1 !! id.

(** User code that does not call back into the subsystem. *)
Definition Inert : nat -> gmap N FEnhancedTimerData * uint64 ->
                   gmap N FEnhancedTimerData * uint64 :=
  fun _ st => st.

(** The sum of the deltas passed to [Tick] over a run. *)
Definition SumRaw (Frames : list (Host * float)) : float :=
  fold_right (fun Frame acc => (snd Frame + acc)%Q) 0%Q Frames.

(** The four creation entry points and their arguments. *)
Inductive CreationCall :=
  | Call_SetEnhancedTimer (InDelegate : FTimerDelegate) (aDuration : float)
      (aDilationMode : EEnhancedTimerTimeDilationMode)
      (aDilationActor : TWeakObjectPtr) (abAffectedByGamePause abLoop : bool)
      (Delay Variation Rand : float)
  | Call_SetEnhancedTimer_BP (Event : FTimerDelegate) (aDuration : float)
      (aDilationMode : EEnhancedTimerTimeDilationMode)
      (aDilationActor : TWeakObjectPtr) (abAffectedByGamePause abLoop : bool)
      (Delay Variation Rand : float)
  | Call_NextTick (InDelegate : FTimerDelegate)
  | Call_NextTick_BP (Event : FTimerDelegate).

Definition Create (c : CreationCall) (s : Subsystem)
  : FEnhancedTimerHandle * Subsystem :=
  match c with
  | Call_SetEnhancedTimer d dur mode actor affected loop delay var rand =>
      SetEnhancedTimer d dur mode actor affected loop delay var rand s
  | Call_SetEnhancedTimer_BP d dur mode actor affected loop delay var rand =>
      SetEnhancedTimer_BP d dur mode actor affected loop delay var rand s
  | Call_NextTick d => SetEnhancedTimerExecutedInNextTick d s
  | Call_NextTick_BP d => SetEnhancedTimerExecutedInNextTick_BP d s
  end.

(** The duration a creation call asks for; the next-tick constructors take
    none and store [0]. *)
Definition RequestedDuration (c : CreationCall) : float :=
  match c with
  | Call_SetEnhancedTimer _ dur _ _ _ _ _ _ _
  | Call_SetEnhancedTimer_BP _ dur _ _ _ _ _ _ _ => dur
  | Call_NextTick _ | Call_NextTick_BP _ => 0%Q
  end.

(** The life of the id generator: allocations, and the subsystem being
    deinitialised and initialised again. *)
Inductive IdEvent := Ev_AllocateId | Ev_Deinitialize | Ev_Initialize.

Fixpoint GeneratedIds (Events : list IdEvent) (s : Subsystem) : list uint64 :=
  match Events with
  | [] => []
  | Ev_AllocateId :: Rest =>
      let '(Out, s1) := AllocateId s in Out :: GeneratedIds Rest s1
  | Ev_Deinitialize :: Rest => GeneratedIds Rest (Deinitialize s)
  | Ev_Initialize :: Rest => GeneratedIds Rest (Initialize s)
  end.

(** The counter is a non-zero 64-bit value. *)
Definition CounterOk (s : Subsystem) : Prop :=
  (0 < NextId s < UINT64_MODULUS)%N.

(** ** Sample data *)

Definition PlayingWorld : Host :=
  {| GetWorld := Some {| bGamePaused := false; TimeDilation := 1%Q |};
     Actors := fun _ => None |}.

Definition PausedWorld : Host :=
  {| GetWorld := Some {| bGamePaused := true; TimeDilation := 1%Q |};
     Actors := fun _ => None |}.

Definition SlowWorld : Host :=
  {| GetWorld := Some {| bGamePaused := false; TimeDilation := (1 # 2)%Q |};
     Actors := fun a => if Nat.eqb a 3 then Some {| CustomTimeDilation := 2%Q |}
                        else None |}.

(** A one-shot timer of two seconds created with the default arguments. *)
Definition OneShotTwoSeconds : FEnhancedTimerHandle * Subsystem :=
  SetEnhancedTimer (Some 7%nat) 2%Q IgnoreTimeDilation None false false
    0%Q 0%Q 0%Q (NewSubsystem 0).

(** A looping timer of one second. *)
Definition LoopingOneSecond : FEnhancedTimerHandle * Subsystem :=
  SetEnhancedTimer (Some 7%nat) 1%Q IgnoreTimeDilation None false true
    0%Q 0%Q 0%Q (NewSubsystem 0).

(** A timer with an initial delay of two seconds and a duration of one. *)
Definition DelayedTimer : FEnhancedTimerHandle * Subsystem :=
  SetEnhancedTimer (Some 7%nat) 1%Q IgnoreTimeDilation None false false
    2%Q 0%Q 0%Q (NewSubsystem 0).

(** A next-tick timer. *)
Definition NextTickTimer : FEnhancedTimerHandle * Subsystem :=
  SetEnhancedTimerExecutedInNextTick (Some 8%nat) (NewSubsystem 0).

(** A timer following the dilation of actor [3]. *)
Definition ActorTimer : FEnhancedTimerHandle * Subsystem :=
  SetEnhancedTimer (Some 7%nat) 2%Q ActorTimeDilation (Some 3%nat) true false
    0%Q 0%Q 0%Q (NewSubsystem 0).

(** A record in actor mode whose actor [5] is not alive in [SlowWorld], and
    a record in ignore mode. *)
Definition DeadActorRecord : FEnhancedTimerData :=
  {| Id := 1%N; Delegate := None; DynamicDelegate := None;
     bUseDynamic := false; bLoop := false; bPaused := false;
     bAffectedByGamePause := false; bNextTick := false;
     Duration := 1%Q; PhaseElapsed := 0%Q; InitialDelay := 0%Q;
     Phase := Running; DilationMode := ActorTimeDilation;
     DilationActor := Some 5%nat |}.

Definition IgnoreRecord : FEnhancedTimerData :=
  {| Id := 2%N; Delegate := None; DynamicDelegate := None;
     bUseDynamic := false; bLoop := false; bPaused := false;
     bAffectedByGamePause := false; bNextTick := false;
     Duration := 1%Q; PhaseElapsed := 0%Q; InitialDelay := 0%Q;
     Phase := Running; DilationMode := IgnoreTimeDilation;
     DilationActor := None |}.

Definition HalfSpeed : UWorld :=
  {| bGamePaused := false; TimeDilation := (1 # 2)%Q |}.

(** The object table in which exactly the subsystem [s] is alive, and the
    one in which nothing is. *)
Definition OnlyObject (s : Subsystem) : nat -> option Subsystem :=
  fun o => if Nat.eqb o (This s) then Some s else None.

Definition NoObjects : nat -> option Subsystem := fun _ => None.

(** A creation call with a base delay of two seconds, a variation of half a
    second and a draw of a quarter. *)
Definition JitteredCall : CreationCall :=
  Call_SetEnhancedTimer (Some 7%nat) 1%Q IgnoreTimeDilation None false false
    2%Q (1 # 2)%Q (1 # 4)%Q.

(** The id handed out [k] allocations after the counter stood at [n0], when
    nothing but allocations happened in between. *)
Definition IdAfter (n0 : uint64) (k : nat) : uint64 :=
  ((n0 - 1 + N.of_nat k) mod (UINT64_MODULUS - 1) + 1)%N.

(** The number of allocations in a run of generator events. *)
Definition Allocations (Events : list IdEvent) : nat :=
  length (List.filter (fun e => match e with Ev_AllocateId => true | _ => false end)
            Events).

(** Two records that differ at most in [Phase] and [PhaseElapsed]. *)
Definition SameConfiguration (T T' : FEnhancedTimerData) : Prop :=
  Id T' = Id T /\ Delegate T' = Delegate T
  /\ DynamicDelegate T' = DynamicDelegate T /\ bUseDynamic T' = bUseDynamic T
  /\ bLoop T' = bLoop T /\ bPaused T' = bPaused T
  /\ bAffectedByGamePause T' = bAffectedByGamePause T
  /\ bNextTick T' = bNextTick T /\ Duration T' = Duration T
  /\ InitialDelay T' = InitialDelay T /\ DilationMode T' = DilationMode T
  /\ DilationActor T' = DilationActor T.

(** The records stored by the sample creation calls. *)
Definition OneShotRecord : FEnhancedTimerData :=
  {| Id := 1%N; Delegate := Some 7%nat; DynamicDelegate := None;
     bUseDynamic := false; bLoop := false; bPaused := false;
     bAffectedByGamePause := false; bNextTick := false;
     Duration := FMath_Max 0%Q 2%Q; PhaseElapsed := 0%Q; InitialDelay := 0%Q;
     Phase := Running; DilationMode := IgnoreTimeDilation;
     DilationActor := None |}.

Definition LoopingRecord : FEnhancedTimerData :=
  {| Id := 1%N; Delegate := Some 7%nat; DynamicDelegate := None;
     bUseDynamic := false; bLoop := true; bPaused := false;
     bAffectedByGamePause := false; bNextTick := false;
     Duration := FMath_Max 0%Q 1%Q; PhaseElapsed := 0%Q; InitialDelay := 0%Q;
     Phase := Running; DilationMode := IgnoreTimeDilation;
     DilationActor := None |}.

Definition DelayedRecord : FEnhancedTimerData :=
  {| Id := 1%N; Delegate := Some 7%nat; DynamicDelegate := None;
     bUseDynamic := false; bLoop := false; bPaused := false;
     bAffectedByGamePause := false; bNextTick := false;
     Duration := 1%Q; PhaseElapsed := 0%Q; InitialDelay := 2%Q;
     Phase := InitialDelayPhase; DilationMode := IgnoreTimeDilation;
     DilationActor := None |}.

Definition NextTickRecord : FEnhancedTimerData :=
  {| Id := 1%N; Delegate := Some 8%nat; DynamicDelegate := None;
     bUseDynamic := false; bLoop := false; bPaused := false;
     bAffectedByGamePause := true; bNextTick := true;
     Duration := 0%Q; PhaseElapsed := 0%Q; InitialDelay := 0%Q;
     Phase := Running; DilationMode := IgnoreTimeDilation;
     DilationActor := None |}.

Definition Playing : UWorld := {| bGamePaused := false; TimeDilation := 1%Q |}.
Definition Paused : UWorld := {| bGamePaused := true; TimeDilation := 1%Q |}.

(** Two frames of one second each, with the game running and with the game
    paused. *)
Definition TwoSeconds : list (Host * float) :=
  [(PlayingWorld, 1%Q); (PlayingWorld, 1%Q)].

Definition TwoPausedSeconds : list (Host * float) :=
  [(PausedWorld, 1%Q); (PausedWorld, 1%Q)].

(** A one-shot timer of two seconds that follows the global time dilation,
    and two frames of one second at half speed. *)
Definition HalfSpeedTimer : FEnhancedTimerHandle * Subsystem :=
  SetEnhancedTimer (Some 7%nat) 2%Q GlobalTimeDilation None false false
    0%Q 0%Q 0%Q (NewSubsystem 0).

Definition HalfSpeedRecord : FEnhancedTimerData :=
  {| Id := 1%N; Delegate := Some 7%nat; DynamicDelegate := None;
     bUseDynamic := false; bLoop := false; bPaused := false;
     bAffectedByGamePause := false; bNextTick := false;
     Duration := FMath_Max 0%Q 2%Q; PhaseElapsed := 0%Q; InitialDelay := 0%Q;
     Phase := Running; DilationMode := GlobalTimeDilation;
     DilationActor := None |}.

Definition TwoSlowSeconds : list (Host * float) :=
  [(SlowWorld, 1%Q); (SlowWorld, 1%Q)].

(** Frames of half a second with the game running. *)
Definition HalfSeconds (n : nat) : list (Host * float) :=
  repeat (PlayingWorld, (1 # 2)%Q) n.

(** A looping timer of two seconds in ignore mode. *)
Definition LoopingTwoSeconds : FEnhancedTimerHandle * Subsystem :=
  SetEnhancedTimer (Some 7%nat) 2%Q IgnoreTimeDilation None false true
    0%Q 0%Q 0%Q (NewSubsystem 0).

(** Two next-tick timers whose delegates cancel each other: the user code of
    delegate [8] (timer [1]) invalidates timer [2], that of delegate [9]
    (timer [2]) invalidates timer [1], as [InvalidateTimer] does it. *)
Definition Cancelling : nat -> gmap N FEnhancedTimerData * uint64 ->
                        gmap N FEnhancedTimerData * uint64 :=
  fun f st =>
    if Nat.eqb f 8 then (delete 2%N st.1, st.2)
    else if Nat.eqb f 9 then (delete 1%N st.1, st.2)
    else st.

Definition TwoNextTickTimers : Subsystem :=
  (SetEnhancedTimerExecutedInNextTick (Some 9%nat)
     (SetEnhancedTimerExecutedInNextTick (Some 8%nat) (NewSubsystem 0)).2).2.

(** A host without a world, and two frames of one second under it. *)
Definition NoWorld : Host :=
  {| GetWorld := None; Actors := fun _ => None |}.

Definition TwoSecondsNoWorld : list (Host * float) :=
  [(NoWorld, 1%Q); (NoWorld, 1%Q)].

(** A one-shot timer of duration zero. *)
Definition ZeroDurationTimer : FEnhancedTimerHandle * Subsystem :=
  SetEnhancedTimer (Some 7%nat) 0%Q IgnoreTimeDilation None false false
    0%Q 0%Q 0%Q (NewSubsystem 0).

(** ** Further notions *)

(** Every id in the store was handed out before the counter reached its
    present value. *)
Definition KeysBelowCounter (s : Subsystem) : Prop :=
  forall k T, Timers s !! k = Some T -> (k < NextId s)%N.

(** The threshold of the phase a record is in: the one [GetTimerTimeLeft]
    counts down to. *)
Definition PhaseThreshold (T : FEnhancedTimerData) : float :=
  if phase_eqb (Phase T) InitialDelayPhase then InitialDelay T else Duration T.

(** What [ExecuteFired] logs when it fires the record [T] stored under [id]. *)
Definition FiredLog (id : uint64) (T : FEnhancedTimerData) : list Invocation :=
  match Callback T with
  | Some f => [ {| FiredId := id; Callee := f |} ]
  | None => []
  end.

(** One frame seen from a single timer: what [Tick] does to the record under
    [id] (absent when [None]) and the executions it logs for it, when no user
    code touches the record. *)
Definition StepTimer (id : uint64) (Frame : Host * float)
    (o : option FEnhancedTimerData)
  : option FEnhancedTimerData * list Invocation :=
  match o, GetWorld Frame.1 with
  | Some T, Some W =>
      let T' := (MutableBody Frame.1 W (IsGamePaused Frame.1) Frame.2 T).1 in
      if Due Frame.1 W Frame.2 T
      then (if bLoop T then Some (rearm T') else None, FiredLog id T)
      else (Some T', [])
  | _, _ => (o, [])
  end.

Fixpoint RunTimer (id : uint64) (Frames : list (Host * float))
    (o : option FEnhancedTimerData)
  : option FEnhancedTimerData * list Invocation :=
  match Frames with
  | [] => (o, [])
  | Frame :: Rest =>
      let '(o1, Log1) := StepTimer id Frame o in
      let '(o2, Log2) := RunTimer id Rest o1 in
      (o2, Log1 ++ Log2)
  end.

(** Two records with the same settings: all fields but [Phase],
    [PhaseElapsed] and [bNextTick]. *)
Definition SameSettings (T T' : FEnhancedTimerData) : Prop :=
  Id T' = Id T /\ Delegate T' = Delegate T
  /\ DynamicDelegate T' = DynamicDelegate T /\ bUseDynamic T' = bUseDynamic T
  /\ bLoop T' = bLoop T /\ bPaused T' = bPaused T
  /\ bAffectedByGamePause T' = bAffectedByGamePause T
  /\ Duration T' = Duration T
  /\ InitialDelay T' = InitialDelay T /\ DilationMode T' = DilationMode T
  /\ DilationActor T' = DilationActor T.

(** User code that never puts a record back under [id] once it is gone. *)
Definition NeverRevives
    (UserCode : nat -> gmap N FEnhancedTimerData * uint64 ->
                gmap N FEnhancedTimerData * uint64)
    (id : uint64) : Prop :=
  forall f st, st.1 !! id = None -> (UserCode f st).1 !! id = None.

(** User code whose delegate [9] invalidates timer [2] and does nothing
    else, and a store holding the one-shot timer of two seconds and a
    next-tick timer with that delegate. *)
Definition Invalidating : nat -> gmap N FEnhancedTimerData * uint64 ->
                          gmap N FEnhancedTimerData * uint64 :=
  fun f st => if Nat.eqb f 9 then (delete 2%N st.1, st.2) else st.

Definition OneShotAndNextTick : Subsystem :=
  (Create (Call_NextTick (Some 9%nat)) OneShotTwoSeconds.2).2.

(** The record stored by [LoopingTwoSeconds]. *)
Definition LoopingTwoRecord : FEnhancedTimerData :=
  {| Id := 1%N; Delegate := Some 7%nat; DynamicDelegate := None;
     bUseDynamic := false; bLoop := true; bPaused := false;
     bAffectedByGamePause := false; bNextTick := false;
     Duration := FMath_Max 0%Q 2%Q; PhaseElapsed := 0%Q; InitialDelay := 0%Q;
     Phase := Running; DilationMode := IgnoreTimeDilation;
     DilationActor := None |}.

(** A host in which actor [3] is alive with a custom dilation of zero, and
    the record [ActorTimer] stores, which follows that actor. *)
Definition StoppedActorWorld : Host :=
  {| GetWorld := Some {| bGamePaused := false; TimeDilation := 1%Q |};
     Actors := fun a => if Nat.eqb a 3 then Some {| CustomTimeDilation := 0%Q |}
                        else None |}.

Definition ActorRecord : FEnhancedTimerData :=
  {| Id := 1%N; Delegate := Some 7%nat; DynamicDelegate := None;
     bUseDynamic := false; bLoop := false; bPaused := false;
     bAffectedByGamePause := true; bNextTick := false;
     Duration := FMath_Max 0%Q 2%Q; PhaseElapsed := 0%Q; InitialDelay := 0%Q;
     Phase := Running; DilationMode := ActorTimeDilation;
     DilationActor := Some 3%nat |}.

(** ** The handle's mutating calls *)

(** The table of subsystem objects after the owner of the handle, if it is
    alive, has gone through [f]; the table itself when it is not. *)
Definition OnOwner (Objects : nat -> option Subsystem)
    (h : FEnhancedTimerHandle) (f : Subsystem -> Subsystem)
  : nat -> option Subsystem :=
  match Owner h with
  | None => Objects
  | Some o =>
      match Objects o with
      | Some sub => fun x => if Nat.eqb x o then Some (f sub) else Objects x
      | None => Objects
      end
  end.

(** [FEnhancedTimerHandle::Invalidate], [Pause], [Unpause], [HasOwner]. *)
Definition Handle_Invalidate (Objects : nat -> option Subsystem)
    (h : FEnhancedTimerHandle) : nat -> option Subsystem :=
  OnOwner Objects h (InvalidateTimer h).

Definition Handle_Pause (Objects : nat -> option Subsystem)
    (h : FEnhancedTimerHandle) : nat -> option Subsystem :=
  OnOwner Objects h (PauseTimer h).

Definition Handle_Unpause (Objects : nat -> option Subsystem)
    (h : FEnhancedTimerHandle) : nat -> option Subsystem :=
  OnOwner Objects h (UnpauseTimer h).

Definition Handle_HasOwner (Objects : nat -> option Subsystem)
    (h : FEnhancedTimerHandle) : bool :=
  match OwnerGet Objects h with
  | Some _ => true
  | None => false
  end.

(** ** Calls from other threads *)

(** The mutating entry points of the subsystem, with their arguments. *)
Inductive ApiCall :=
  | Api_Create (c : CreationCall)
  | Api_InvalidateTimer (h : FEnhancedTimerHandle)
  | Api_PauseTimer (h : FEnhancedTimerHandle)
  | Api_UnpauseTimer (h : FEnhancedTimerHandle)
  | Api_InvalidateAllTimers
  | Api_PauseAllTimers
  | Api_UnpauseAllTimers.

(** The body an entry point runs on the game thread: what it returns (a
    handle for the creation calls, nothing for the others) and the subsystem
    it leaves. *)
Definition OnGameThread (a : ApiCall) (s : Subsystem)
  : option FEnhancedTimerHandle * Subsystem :=
  match a with
  | Api_Create c => let '(h, s') := Create c s in (Some h, s')
  | Api_InvalidateTimer h => (None, InvalidateTimer h s)
  | Api_PauseTimer h => (None, PauseTimer h s)
  | Api_UnpauseTimer h => (None, UnpauseTimer h s)
  | Api_InvalidateAllTimers => (None, InvalidateAllTimers s)
  | Api_PauseAllTimers => (None, PauseAllTimers s)
  | Api_UnpauseAllTimers => (None, UnpauseAllTimers s)
  end.

(** An entry point called with [IsInGameThread()] as given: on the game
    thread it runs its body; elsewhere it hands the same call to [AsyncTask]
    for the game thread (the third component) and returns at once, the
    creation calls with a default-constructed handle. *)
Definition Invoke (bIsInGameThread : bool) (a : ApiCall) (s : Subsystem)
  : option FEnhancedTimerHandle * Subsystem * list ApiCall :=
  if bIsInGameThread
  then let '(r, s') := OnGameThread a s in (r, s', [])
  else (match a with
        | Api_Create _ => Some InvalidHandle
        | _ => None
        end, s, [a]).

(** The game thread running a deferred call: the entry point is entered
    again, now with [IsInGameThread()] true, and what it returns is dropped. *)
Definition RunDeferred (a : ApiCall) (s : Subsystem) : Subsystem :=
  (Invoke true a s).1.2.

(** A handle delivered to a completion callback. *)
Record Completion := {
  Delivered : FEnhancedTimerHandle;
  Receiver : nat
}.

Section AsyncCreation.

Variable UserCode : nat -> gmap N FEnhancedTimerData * uint64 ->
                    gmap N FEnhancedTimerData * uint64.

(** What [SetEnhancedTimerAsync] does once it is on the game thread, in its
    direct branch and in its deferred lambda alike: create the timer, then
    call the completion callback (user code [OnComplete]) with the handle.
    The callback is a callable, so the test [if (Complete)] of the lambda
    holds. *)
Definition CreateAndComplete (InDelegate : FTimerDelegate) (aDuration : float)
    (aDilationMode : EEnhancedTimerTimeDilationMode) (aDilationActor : TWeakObjectPtr)
    (abAffectedByGamePause abLoop : bool)
    (Delay Variation Rand : float) (OnComplete : nat) (s : Subsystem)
  : Subsystem * list Completion :=
  let '(h, s1) := SetEnhancedTimer InDelegate aDuration aDilationMode
                    aDilationActor abAffectedByGamePause abLoop
                    Delay Variation Rand s in
  (RunUserCode UserCode OnComplete s1,
   [ {| Delivered := h; Receiver := OnComplete |} ]).

(** [SetEnhancedTimerAsync]: the subsystem it leaves, the completions it
    made, and whether it deferred its work to the game thread. *)
Definition SetEnhancedTimerAsync (bIsInGameThread : bool)
    (InDelegate : FTimerDelegate) (aDuration : float)
    (aDilationMode : EEnhancedTimerTimeDilationMode) (aDilationActor : TWeakObjectPtr)
    (abAffectedByGamePause abLoop : bool)
    (Delay Variation Rand : float) (OnComplete : nat) (s : Subsystem)
  : Subsystem * list Completion * bool :=
  if bIsInGameThread
  then let '(s', Done) := CreateAndComplete InDelegate aDuration aDilationMode
                            aDilationActor abAffectedByGamePause abLoop
                            Delay Variation Rand OnComplete s in
       (s', Done, false)
  else (s, [], true).

End AsyncCreation.

(** ** User code that does not invalidate a timer *)

(** The record with its pause flag cleared: what is left of a record when the
    one field that [PauseTimer] and [UnpauseTimer] write is set aside. *)
Definition Unpaused (T : FEnhancedTimerData) : FEnhancedTimerData :=
  set_bPaused T false.

(** No user code invalidates the timer [id]: a record found under [id] is
    still there when the user code returns, changed at most in its pause
    flag.  Of the calls user code can make, [InvalidateTimer] on the timer
    and [InvalidateAllTimers] break this; [PauseTimer], [UnpauseTimer], their
    bulk versions and the creation calls (which store under a new id) do
    not. *)
Definition Spares
    (UserCode : nat -> gmap N FEnhancedTimerData * uint64 ->
                gmap N FEnhancedTimerData * uint64)
    (id : uint64) : Prop :=
  forall f st T,
    st.1 !! id = Some T ->
    Unpaused <$> (UserCode f st).1 !! id = Some (Unpaused T).

(** The host of a frame with the game pause as given and everything else
    (the world's dilation, the actors) as it is. *)
Definition WithGamePaused (b : bool) (H : Host) : Host :=
  {| GetWorld := (fun W => {| bGamePaused := b; TimeDilation := TimeDilation W |})
                 <$> GetWorld H;
     Actors := Actors H |}.

(** A one-shot timer of two seconds that keeps running while the game is
    paused ([bAffectedByGamePause = true]), and the record it stores. *)
Definition ImmuneTimer : FEnhancedTimerHandle * Subsystem :=
  SetEnhancedTimer (Some 7%nat) 2%Q IgnoreTimeDilation None true false
    0%Q 0%Q 0%Q (NewSubsystem 0).

Definition ImmuneRecord : FEnhancedTimerData :=
  {| Id := 1%N; Delegate := Some 7%nat; DynamicDelegate := None;
     bUseDynamic := false; bLoop := false; bPaused := false;
     bAffectedByGamePause := true; bNextTick := false;
     Duration := FMath_Max 0%Q 2%Q; PhaseElapsed := 0%Q; InitialDelay := 0%Q;
     Phase := Running; DilationMode := IgnoreTimeDilation;
     DilationActor := None |}.

(** The one-shot timer of two seconds (timer [1], delegate [7]) beside a
    next-tick timer (timer [2]) whose delegate [9] invalidates timer [1]
    under [Cancelling]; and the same store after timer [1] was paused. *)
Definition OneShotBesideCanceller : Subsystem :=
  (SetEnhancedTimerExecutedInNextTick (Some 9%nat) OneShotTwoSeconds.2).2.

Definition PausedBesideCanceller : Subsystem :=
  PauseTimer OneShotTwoSeconds.1 OneShotBesideCanceller.

(** User code whose delegate [9] pauses timer [1], as [PauseTimer] does it,
    and does nothing else. *)
Definition Pausing : nat -> gmap N FEnhancedTimerData * uint64 ->
                     gmap N FEnhancedTimerData * uint64 :=
  fun f st =>
    if Nat.eqb f 9
    then match st.1 !! 1%N with
         | Some T => (<[1%N := set_bPaused T true]> st.1, st.2)
         | None => st
         end
    else st.

(** * Properties *)

(** ** Arithmetic of the engine helpers *)

Lemma Qlt_bool_iff (a b : float) : Qlt_bool a b = true <-> (a < b)%Q.
Proof.
  unfold Qlt_bool. rewrite negb_true_iff.
  split.
  - intros E. apply Qnot_le_lt. intros Hle.
    apply Qle_bool_iff in Hle. congruence.
  - intros Hlt. destruct (Qle_bool b a) eqn:E; [|reflexivity].
    apply Qle_bool_iff in E. exfalso. revert E. apply Qlt_not_le, Hlt.
Qed.

Lemma Qlt_bool_false (a b : float) : Qlt_bool a b = false <-> (b <= a)%Q.
Proof.
  unfold Qlt_bool. rewrite negb_false_iff. apply Qle_bool_iff.
Qed.

Lemma Qle_bool_false (a b : float) : Qle_bool a b = false <-> (b < a)%Q.
Proof.
  rewrite <- Qlt_bool_iff. unfold Qlt_bool.
  destruct (Qle_bool a b); simpl; intuition congruence.
Qed.

Lemma FMath_Max_Qmax (a b : float) : FMath_Max a b == Qmax a b.
Proof.
  unfold FMath_Max. destruct (Qlt_bool b a) eqn:E.
  - apply Qlt_bool_iff in E. symmetry. apply Q.max_l. apply Qlt_le_weak, E.
  - apply Qlt_bool_false in E. symmetry. apply Q.max_r, E.
Qed.

Lemma FMath_Max_cases (a b : float) :
  ((b < a)%Q /\ FMath_Max a b = a) \/ ((a <= b)%Q /\ FMath_Max a b = b).
Proof.
  unfold FMath_Max. destruct (Qlt_bool b a) eqn:E.
  - left. split; [apply Qlt_bool_iff, E | reflexivity].
  - right. split; [apply Qlt_bool_false, E | reflexivity].
Qed.

Lemma phase_eqb_eq (p q : ETimerPhase) : phase_eqb p q = true <-> p = q.
Proof. destruct p, q; simpl; intuition congruence. Qed.

(** ** The Dilation Resolver *)

(** C4.  [GetEffectiveDelta], called as [Tick] calls it (with a world), is the
    Dilation Resolver of the specification: a function of the record's mode,
    the raw delta, the world's global dilation and the custom dilation of the
    record's actor when that actor is alive.  In particular a record in actor
    mode whose actor is dead or null gets, on any sequence of raw deltas, the
    effective deltas of a record in ignore mode, which are the raw deltas. *)
Theorem GetEffectiveDelta_is_resolver (H : Host) (T : FEnhancedTimerData)
    (W : UWorld) (d : float) :
  GetEffectiveDelta H T d (Some W)
  == DilationResolver (DilationMode T) d (TimeDilation W)
       (CustomTimeDilation <$> WeakGet H (DilationActor T))
  /\ (forall (T' : FEnhancedTimerData) (deltas : list float),
        DilationMode T = ActorTimeDilation ->
        WeakGet H (DilationActor T) = None ->
        DilationMode T' = IgnoreTimeDilation ->
        map (fun x => GetEffectiveDelta H T x (Some W)) deltas
        = map (fun x => GetEffectiveDelta H T' x (Some W)) deltas
        /\ map (fun x => GetEffectiveDelta H T' x (Some W)) deltas = deltas).
Proof.
  split.
  - unfold GetEffectiveDelta, DilationResolver.
    destruct (DilationMode T); try reflexivity.
    destruct (WeakGet H (DilationActor T)) as [A|]; simpl; [|reflexivity].
    rewrite FMath_Max_Qmax. reflexivity.
  - intros T' deltas Hmode Hdead Hmode'.
    unfold GetEffectiveDelta. rewrite Hmode, Hdead, Hmode'.
    split; [reflexivity|].
    induction deltas as [|x deltas IH]; simpl; [reflexivity|].
    f_equal. exact IH.
Qed.
Lemma GetEffectiveDelta_is_resolver_witness :
  map (fun x => GetEffectiveDelta SlowWorld DeadActorRecord x (Some HalfSpeed))
      [1%Q; (1 # 2)%Q]
  = map (fun x => GetEffectiveDelta SlowWorld IgnoreRecord x (Some HalfSpeed))
        [1%Q; (1 # 2)%Q]
  /\ map (fun x => GetEffectiveDelta SlowWorld IgnoreRecord x (Some HalfSpeed))
         [1%Q; (1 # 2)%Q]
     = [1%Q; (1 # 2)%Q].
Proof.
  exact (proj2 (GetEffectiveDelta_is_resolver SlowWorld DeadActorRecord
                  HalfSpeed 1%Q)
           IgnoreRecord [1%Q; (1 # 2)%Q] eq_refl eq_refl eq_refl).
Defined.

(** ** Queries *)

(** C7.  For an id present in the store, [GetTimerTimeLeft] is
    [max(0, InitialDelay - PhaseElapsed)] in the initial-delay phase and
    [max(0, Duration - PhaseElapsed)] otherwise, [GetTimerElapsedTime] is the
    record's [PhaseElapsed], and a handle whose owner is alive forwards both. *)
Theorem time_left_and_elapsed (s : Subsystem) (h : FEnhancedTimerHandle)
    (T : FEnhancedTimerData) :
  Timers s !! HandleId h = Some T ->
  GetTimerTimeLeft s h
  == match Phase T with
     | InitialDelayPhase => Qmax 0 (InitialDelay T - PhaseElapsed T)
     | Running => Qmax 0 (Duration T - PhaseElapsed T)
     end
  /\ GetTimerElapsedTime s h = PhaseElapsed T
  /\ (forall Objects : nat -> option Subsystem,
        OwnerGet Objects h = Some s ->
        Handle_GetTimeLeft Objects h = GetTimerTimeLeft s h
        /\ Handle_GetElapsedTime Objects h = PhaseElapsed T).
Proof.
  intros Hfound. unfold GetTimerTimeLeft, GetTimerElapsedTime, GetData.
  rewrite Hfound. repeat split.
  - destruct (Phase T); simpl; apply FMath_Max_Qmax.
  - unfold Handle_GetTimeLeft.
    match goal with Ho : OwnerGet _ _ = Some _ |- _ => rewrite Ho end.
    unfold GetTimerTimeLeft, GetData. rewrite Hfound. reflexivity.
  - unfold Handle_GetElapsedTime.
    match goal with Ho : OwnerGet _ _ = Some _ |- _ => rewrite Ho end.
    unfold GetTimerElapsedTime, GetData. rewrite Hfound. reflexivity.
Qed.

Lemma time_left_and_elapsed_witness :
  GetTimerTimeLeft DelayedTimer.2 DelayedTimer.1 == Qmax 0 (2 - 0)
  /\ GetTimerElapsedTime DelayedTimer.2 DelayedTimer.1 = 0%Q.
Proof.
  destruct (time_left_and_elapsed DelayedTimer.2 DelayedTimer.1
              {| Id := 1%N; Delegate := Some 7%nat; DynamicDelegate := None;
                 bUseDynamic := false; bLoop := false; bPaused := false;
                 bAffectedByGamePause := false; bNextTick := false;
                 Duration := 1%Q; PhaseElapsed := 0%Q; InitialDelay := 2%Q;
                 Phase := InitialDelayPhase; DilationMode := IgnoreTimeDilation;
                 DilationActor := None |} eq_refl) as (Hleft & Helapsed & _).
  split; [exact Hleft | exact Helapsed].
Defined.

(** C8.  On an id that is not in the store every query of the subsystem
    returns its sentinel ([false], [-1], the ignore mode), and so does every
    query of a handle whose owner is gone or does not hold the handle's id.
    The queries are functions of the subsystem that return a value only:
    they have no way to change the store. *)
Theorem queries_return_sentinels :
  (forall (s : Subsystem) (h : FEnhancedTimerHandle),
     Timers s !! HandleId h = None ->
     IsTimerValid s h = false
     /\ IsTimerPaused s h = false
     /\ IsTimerLooping s h = false
     /\ GetTimerDuration s h = (-1)%Q
     /\ GetTimerTimeLeft s h = (-1)%Q
     /\ GetTimerElapsedTime s h = (-1)%Q
     /\ IsTimerAffectedByGamePause s h = false
     /\ GetTimerTimeDilationMode s h = IgnoreTimeDilation)
  /\ (forall (Objects : nat -> option Subsystem) (h : FEnhancedTimerHandle),
        (OwnerGet Objects h = None
         \/ exists o, OwnerGet Objects h = Some o
                      /\ Timers o !! HandleId h = None) ->
        Handle_IsValid Objects h = false
        /\ Handle_IsPaused Objects h = false
        /\ Handle_IsLooping Objects h = false
        /\ Handle_GetDuration Objects h = (-1)%Q
        /\ Handle_GetTimeLeft Objects h = (-1)%Q
        /\ Handle_GetElapsedTime Objects h = (-1)%Q
        /\ Handle_IsAffectedByGamePause Objects h = false
        /\ Handle_GetTimeDilationMode Objects h = IgnoreTimeDilation).
Proof.
  assert (Hsub : forall s h, Timers s !! HandleId h = None ->
     IsTimerValid s h = false /\ IsTimerPaused s h = false
     /\ IsTimerLooping s h = false /\ GetTimerDuration s h = (-1)%Q
     /\ GetTimerTimeLeft s h = (-1)%Q /\ GetTimerElapsedTime s h = (-1)%Q
     /\ IsTimerAffectedByGamePause s h = false
     /\ GetTimerTimeDilationMode s h = IgnoreTimeDilation).
  { intros s h Hmiss.
    unfold IsTimerValid, IsTimerPaused, IsTimerLooping, GetTimerDuration,
      GetTimerTimeLeft, GetTimerElapsedTime, IsTimerAffectedByGamePause,
      GetTimerTimeDilationMode, GetData.
    rewrite Hmiss. repeat split.
    destruct (HandleId h =? 0)%N; [reflexivity|].
    apply bool_decide_eq_false. intros [x Hx]. discriminate. }
  split; [exact Hsub|].
  intros Objects h Hgone.
  unfold Handle_IsValid, Handle_IsPaused, Handle_IsLooping, Handle_GetDuration,
    Handle_GetTimeLeft, Handle_GetElapsedTime, Handle_IsAffectedByGamePause,
    Handle_GetTimeDilationMode.
  destruct Hgone as [Hnone | (o & Hsome & Hmiss)].
  - rewrite Hnone. rewrite andb_false_r. repeat split.
  - rewrite Hsome.
    destruct (Hsub o h Hmiss) as (-> & -> & -> & -> & -> & -> & -> & ->).
    rewrite andb_false_r. repeat split.
Qed.

Lemma queries_return_sentinels_witness :
  GetTimerTimeLeft (NewSubsystem 0) DelayedTimer.1 = (-1)%Q
  /\ Handle_GetTimeDilationMode NoObjects DelayedTimer.1 = IgnoreTimeDilation
  /\ Handle_IsValid (OnlyObject (NewSubsystem 0)) DelayedTimer.1 = false.
Proof.
  destruct queries_return_sentinels as [Hsub Hhandle].
  destruct (Hsub (NewSubsystem 0) DelayedTimer.1 eq_refl)
    as (_ & _ & _ & _ & Hleft & _).
  destruct (Hhandle NoObjects DelayedTimer.1 (or_introl eq_refl))
    as (_ & _ & _ & _ & _ & _ & _ & Hmode).
  destruct (Hhandle (OnlyObject (NewSubsystem 0)) DelayedTimer.1
              (or_intror (ex_intro _ (NewSubsystem 0) (conj eq_refl eq_refl))))
    as (Hvalid & _).
  repeat split; assumption.
Defined.

(** ** Creation *)

Lemma AllocateId_eq (s : Subsystem) :
  AllocateId s
  = (NextId s,
     set_NextId s (if ((NextId s + 1) mod UINT64_MODULUS =? 0)%N then 1%N
                   else ((NextId s + 1) mod UINT64_MODULUS)%N)).
Proof. reflexivity. Qed.

(** The record a creation call stores, and where. *)
Lemma Create_stores (c : CreationCall) (s : Subsystem) :
  exists T,
    HandleId (Create c s).1 = NextId s
    /\ Timers (Create c s).2 = <[NextId s := T]> (Timers s)
    /\ Id T = NextId s
    /\ T = match c with
           | Call_SetEnhancedTimer d dur mode actor affected loop delay var rand =>
               ApplyInitialDelay
                 {| Id := NextId s; Delegate := d; DynamicDelegate := None;
                    bUseDynamic := false; bLoop := loop; bPaused := false;
                    bAffectedByGamePause := affected; bNextTick := false;
                    Duration := FMath_Max 0%Q dur; PhaseElapsed := 0%Q;
                    InitialDelay := 0%Q; Phase := Running;
                    DilationMode := mode; DilationActor := actor |}
                 delay var rand
           | Call_SetEnhancedTimer_BP d dur mode actor affected loop delay var rand =>
               ApplyInitialDelay
                 {| Id := NextId s; Delegate := None; DynamicDelegate := d;
                    bUseDynamic := true; bLoop := loop; bPaused := false;
                    bAffectedByGamePause := affected; bNextTick := false;
                    Duration := FMath_Max 0%Q dur; PhaseElapsed := 0%Q;
                    InitialDelay := 0%Q; Phase := Running;
                    DilationMode := mode; DilationActor := actor |}
                 delay var rand
           | Call_NextTick d =>
               {| Id := NextId s; Delegate := d; DynamicDelegate := None;
                  bUseDynamic := false; bLoop := false; bPaused := false;
                  bAffectedByGamePause := true; bNextTick := true;
                  Duration := 0%Q; PhaseElapsed := 0%Q; InitialDelay := 0%Q;
                  Phase := Running; DilationMode := IgnoreTimeDilation;
                  DilationActor := None |}
           | Call_NextTick_BP d =>
               {| Id := NextId s; Delegate := None; DynamicDelegate := d;
                  bUseDynamic := true; bLoop := false; bPaused := false;
                  bAffectedByGamePause := true; bNextTick := true;
                  Duration := 0%Q; PhaseElapsed := 0%Q; InitialDelay := 0%Q;
                  Phase := Running; DilationMode := IgnoreTimeDilation;
                  DilationActor := None |}
           end.
Proof.
  destruct c; eexists; (split; [reflexivity|]); (split; [reflexivity|]);
    (split; [|reflexivity]); try reflexivity;
    unfold ApplyInitialDelay;
    repeat match goal with |- context [if ?b then _ else _] => destruct b end;
    reflexivity.
Qed.

(** What [ApplyInitialDelay] leaves of the record it is given. *)
Lemma ApplyInitialDelay_shape (Data : FEnhancedTimerData) (delay var rand : float) :
  Phase Data = Running -> PhaseElapsed Data = 0%Q -> InitialDelay Data = 0%Q ->
  let T := ApplyInitialDelay Data delay var rand in
  PhaseElapsed T = 0%Q /\ bPaused T = bPaused Data
  /\ Duration T = Duration Data /\ Id T = Id Data
  /\ (Phase T = InitialDelayPhase <-> (0 < InitialDelay T)%Q)
  /\ ((delay <= 0)%Q /\ (var <= 0)%Q /\ InitialDelay T = 0%Q
      \/ ((0 < delay)%Q \/ (0 < var)%Q)
         /\ InitialDelay T = FMath_Max 0%Q (delay + FMath_Max 0%Q rand)%Q).
Proof.
  intros Hphase Helapsed Hdelay T. subst T. unfold ApplyInitialDelay.
  destruct (Qlt_bool 0%Q delay || Qlt_bool 0%Q var) eqn:Hbranch.
  - assert (Hpos : (0 < delay)%Q \/ (0 < var)%Q).
    { apply orb_true_iff in Hbranch.
      destruct Hbranch as [E|E]; apply Qlt_bool_iff in E; auto. }
    destruct (Qlt_bool 0%Q (FMath_Max 0%Q (delay + FMath_Max 0%Q rand)%Q)) eqn:Hgt;
      simpl.
    + apply Qlt_bool_iff in Hgt.
      repeat split; auto.
    + apply Qlt_bool_false in Hgt.
      repeat split; auto.
      * rewrite Hphase. discriminate.
      * intros Hlt. exfalso. revert Hgt. apply Qlt_not_le, Hlt.
  - apply orb_false_iff in Hbranch. destruct Hbranch as [E1 E2].
    apply Qlt_bool_false in E1, E2.
    repeat split; auto.
    + rewrite Hphase. discriminate.
    + rewrite Hdelay. intros Hlt. exfalso. revert Hlt. apply Qlt_irrefl.
Qed.

(** C10.  The record inserted by any of the four creation entry points has a
    non-zero id (the counter being non-zero, as it always is), no elapsed
    time, is not paused, stores [max(0, requested duration)] and is in the
    initial-delay phase exactly when its stored initial delay is positive. *)
Theorem created_record_shape (c : CreationCall) (s : Subsystem) :
  NextId s <> 0%N ->
  exists T : FEnhancedTimerData,
    Timers (Create c s).2 = <[HandleId (Create c s).1 := T]> (Timers s)
    /\ Id T = HandleId (Create c s).1
    /\ Id T <> 0%N
    /\ PhaseElapsed T = 0%Q
    /\ bPaused T = false
    /\ Duration T == Qmax 0 (RequestedDuration c)
    /\ (Phase T = InitialDelayPhase <-> (0 < InitialDelay T)%Q).
Proof.
  intros Hcounter.
  destruct (Create_stores c s) as (T & Hid & Hmap & HidT & HT).
  exists T. rewrite Hid. split; [exact Hmap|]. split; [exact HidT|].
  split; [congruence|].
  destruct c; subst T; simpl RequestedDuration.
  - match goal with |- context [ApplyInitialDelay ?D ?a ?b ?r] =>
      destruct (ApplyInitialDelay_shape D a b r eq_refl eq_refl eq_refl)
        as (He & Hp & Hd & _ & Hph & _) end.
    split; [exact He|]. split; [rewrite Hp; reflexivity|].
    split; [rewrite Hd; apply FMath_Max_Qmax | exact Hph].
  - match goal with |- context [ApplyInitialDelay ?D ?a ?b ?r] =>
      destruct (ApplyInitialDelay_shape D a b r eq_refl eq_refl eq_refl)
        as (He & Hp & Hd & _ & Hph & _) end.
    split; [exact He|]. split; [rewrite Hp; reflexivity|].
    split; [rewrite Hd; apply FMath_Max_Qmax | exact Hph].
  - simpl. split; [reflexivity|]. split; [reflexivity|]. split; [reflexivity|].
    split; intros Hx; [discriminate Hx | exfalso; revert Hx; apply Qlt_irrefl].
  - simpl. split; [reflexivity|]. split; [reflexivity|]. split; [reflexivity|].
    split; intros Hx; [discriminate Hx | exfalso; revert Hx; apply Qlt_irrefl].
Qed.

Lemma created_record_shape_witness :
  exists T : FEnhancedTimerData,
    Timers DelayedTimer.2 = <[HandleId DelayedTimer.1 := T]> ∅
    /\ Id T = HandleId DelayedTimer.1
    /\ Id T <> 0%N
    /\ PhaseElapsed T = 0%Q
    /\ bPaused T = false
    /\ Duration T == Qmax 0 1
    /\ (Phase T = InitialDelayPhase <-> (0 < InitialDelay T)%Q).
Proof.
  apply (created_record_shape
           (Call_SetEnhancedTimer (Some 7%nat) 1%Q IgnoreTimeDilation None
              false false 2%Q 0%Q 0%Q) (NewSubsystem 0)).
  simpl. discriminate.
Defined.

(** C9.  For a call of [SetEnhancedTimer] or [SetEnhancedTimer_BP] with a base
    delay and a variation that are not negative, [rand] being the value
    [FRandRange(-variation, variation)] returned to that call (so
    [-variation <= rand <= variation]), the stored initial delay is
    [max(0, base + max(0, rand))] for that very draw; it lies between the
    base delay and the base delay plus the variation; and when it is [0] the
    record starts in the running phase. *)
Theorem initial_delay_generated (c : CreationCall) (s : Subsystem)
    (d : FTimerDelegate) (dur : float) (mode : EEnhancedTimerTimeDilationMode)
    (actor : TWeakObjectPtr) (affected loop : bool) (base var rand : float) :
  c = Call_SetEnhancedTimer d dur mode actor affected loop base var rand
  \/ c = Call_SetEnhancedTimer_BP d dur mode actor affected loop base var rand ->
  (0 <= base)%Q -> (0 <= var)%Q -> (- var <= rand)%Q -> (rand <= var)%Q ->
  exists T : FEnhancedTimerData,
    Timers (Create c s).2 !! HandleId (Create c s).1 = Some T
    /\ InitialDelay T == Qmax 0 (base + Qmax 0 rand)
    /\ (base <= InitialDelay T)%Q
    /\ (InitialDelay T <= base + var)%Q
    /\ (InitialDelay T == 0 -> Phase T = Running).
Proof.
  intros Hc Hbase Hvar Hlo Hhi.
  destruct (Create_stores c s) as (T & Hid & Hmap & HidT & HT).
  exists T. rewrite Hid, Hmap, lookup_insert_eq. split; [reflexivity|].
  assert (Hshape :
    exists Data, T = ApplyInitialDelay Data base var rand
                 /\ Phase Data = Running /\ PhaseElapsed Data = 0%Q
                 /\ InitialDelay Data = 0%Q).
  { destruct Hc as [-> | ->]; subst T; eexists; split; try reflexivity;
      repeat split. }
  destruct Hshape as (Data & -> & Hph0 & He0 & Hd0).
  destruct (ApplyInitialDelay_shape Data base var rand Hph0 He0 Hd0)
    as (_ & _ & _ & _ & Hphase & Hval).
  set (T := ApplyInitialDelay Data base var rand) in *.
  assert (Hfacts : InitialDelay T == Qmax 0 (base + Qmax 0 rand)
                   /\ (base <= InitialDelay T)%Q
                   /\ (InitialDelay T <= base + var)%Q).
  { pose proof (Q.max_spec 0%Q rand) as Hq1.
    pose proof (Q.max_spec 0%Q (base + Qmax 0 rand)%Q) as Hq2.
    set (q1 := Qmax 0 rand) in *. set (q2 := Qmax 0 (base + q1)) in *.
    destruct Hval as [(Hb0 & Hv0 & ->) | (_ & ->)].
    - lra.
    - destruct (FMath_Max_cases 0%Q rand) as [[Hr ->] | [Hr ->]];
        match goal with |- context [FMath_Max 0%Q ?x] =>
          destruct (FMath_Max_cases 0%Q x) as [[Hx ->] | [Hx ->]] end;
        lra. }
  destruct Hfacts as (Hmax & Hge & Hle).
  split; [exact Hmax|].
  split; [exact Hge|]. split; [exact Hle|].
  intros Hzero.
  destruct (Phase T) eqn:Hp; [|reflexivity].
  exfalso. destruct Hphase as [Hpos _]. specialize (Hpos eq_refl).
  rewrite Hzero in Hpos. revert Hpos. apply Qlt_irrefl.
Qed.

(** With a base delay of two seconds, a variation of half a second and a
    draw of a quarter, the stored delay is two seconds and a quarter. *)
Lemma initial_delay_generated_witness :
  exists T : FEnhancedTimerData,
    Timers (Create JitteredCall (NewSubsystem 0)).2
      !! HandleId (Create JitteredCall (NewSubsystem 0)).1 = Some T
    /\ InitialDelay T == 9 # 4
    /\ (2 <= InitialDelay T)%Q
    /\ (InitialDelay T <= 2 + (1 # 2))%Q
    /\ (InitialDelay T == 0 -> Phase T = Running).
Proof.
  destruct (initial_delay_generated JitteredCall (NewSubsystem 0) (Some 7%nat)
              1%Q IgnoreTimeDilation None false false 2%Q (1 # 2)%Q (1 # 4)%Q)
    as (T & Hl & Hval & Hrest); [left; reflexivity | lra | lra | lra | lra |].
  exists T. split; [exact Hl|]. split; [|exact Hrest].
  rewrite Hval. reflexivity.
Defined.

(** ** The id generator *)

Ltac Zify.zify_post_hook ::= Z.div_mod_to_equations.

(** [lia] on goals with [N.modulo]: the remainders of the translation to
    [Z] are turned into [Z.modulo] first. *)
Ltac nmod_lia :=
  zify;
  repeat match goal with
  | |- context [Z.rem ?a ?b] => rewrite (Z.rem_mod_nonneg a b) by lia
  | H : context [Z.rem ?a ?b] |- _ => rewrite (Z.rem_mod_nonneg a b) in H by lia
  end;
  lia.

Ltac modulus_numeral :=
  change (UINT64_MODULUS - 1)%N with 18446744073709551615%N in *;
  change UINT64_MODULUS with 18446744073709551616%N in *.

Lemma AllocateId_next (s : Subsystem) :
  CounterOk s ->
  (AllocateId s).1 = NextId s
  /\ NextId (AllocateId s).2 = IdAfter (NextId s) 1
  /\ CounterOk (AllocateId s).2.
Proof.
  unfold CounterOk, IdAfter. rewrite AllocateId_eq. simpl.
  modulus_numeral.
  intros Hok. split; [reflexivity|].
  destruct ((NextId s + 1) mod 18446744073709551616 =? 0)%N eqn:E.
  - apply N.eqb_eq in E. nmod_lia.
  - apply N.eqb_neq in E. nmod_lia.
Qed.

Lemma IdAfter_0 (n0 : uint64) :
  (0 < n0 < UINT64_MODULUS)%N -> IdAfter n0 0 = n0.
Proof.
  unfold IdAfter. modulus_numeral.
  intros Hok. nmod_lia.
Qed.

Lemma IdAfter_S (n0 : uint64) (k : nat) :
  (0 < n0 < UINT64_MODULUS)%N ->
  IdAfter (IdAfter n0 1) k = IdAfter n0 (S k).
Proof.
  unfold IdAfter. modulus_numeral.
  intros Hok. nmod_lia.
Qed.

Lemma IdAfter_nonzero (n0 : uint64) (k : nat) : IdAfter n0 k <> 0%N.
Proof. unfold IdAfter. modulus_numeral. nmod_lia. Qed.

Lemma IdAfter_inj (n0 : uint64) (j k : nat) :
  (N.of_nat j < UINT64_MODULUS - 1)%N -> (N.of_nat k < UINT64_MODULUS - 1)%N ->
  IdAfter n0 j = IdAfter n0 k -> j = k.
Proof.
  unfold IdAfter. modulus_numeral.
  intros Hj Hk E. nmod_lia.
Qed.

Lemma CounterOk_Deinitialize (s : Subsystem) : CounterOk (Deinitialize s).
Proof. unfold CounterOk. simpl. modulus_numeral. lia. Qed.

(** Without a [Deinitialize] in between, the ids follow the closed form. *)
Lemma GeneratedIds_closed_form (Events : list IdEvent) :
  forall s : Subsystem,
    CounterOk s -> Ev_Deinitialize ∉ Events ->
    GeneratedIds Events s
    = map (IdAfter (NextId s)) (seq 0 (length (GeneratedIds Events s))).
Proof.
  induction Events as [|e Events IH]; intros s Hok Hno; [reflexivity|].
  assert (Hno' : Ev_Deinitialize ∉ Events).
  { intros Hin. apply Hno. right. exact Hin. }
  destruct e.
  - cbn [GeneratedIds].
    destruct (AllocateId_next s Hok) as (Hout & Hnext & Hok').
    destruct (AllocateId s) as [Out s1]. cbn [fst snd] in Hout, Hnext, Hok'.
    subst Out. cbn [length seq map].
    f_equal; [symmetry; apply IdAfter_0, Hok|].
    rewrite (IH s1 Hok' Hno') at 1.
    rewrite <- seq_shift, map_map, Hnext.
    apply map_ext. intros k. apply IdAfter_S, Hok.
  - exfalso. apply Hno. left.
  - cbn [GeneratedIds]. apply (IH s Hok Hno').
Qed.

Lemma GeneratedIds_nonzero (Events : list IdEvent) :
  forall s : Subsystem, CounterOk s -> 0%N ∉ GeneratedIds Events s.
Proof.
  induction Events as [|e Events IH]; intros s Hok; cbn [GeneratedIds].
  - apply not_elem_of_nil.
  - destruct e.
    + destruct (AllocateId_next s Hok) as (Hout & _ & Hok').
      destruct (AllocateId s) as [Out s1]. cbn [fst snd] in Hout, Hok'.
      subst Out.
      intros Hin. apply elem_of_cons in Hin. destruct Hin as [E | Hin].
      * destruct Hok as [Hpos _]. rewrite <- E in Hpos. lia.
      * revert Hin. apply IH, Hok'.
    + apply IH, CounterOk_Deinitialize.
    + apply IH, Hok.
Qed.

Lemma length_GeneratedIds (Events : list IdEvent) :
  forall s : Subsystem, length (GeneratedIds Events s) = Allocations Events.
Proof.
  unfold Allocations.
  induction Events as [|e Events IH]; intros s; [reflexivity|].
  destruct e; cbn [GeneratedIds List.filter].
  - destruct (AllocateId s) as [Out s1]. cbn [length]. f_equal. apply IH.
  - apply IH.
  - apply IH.
Qed.

(** The generator has period [2^64 - 1]: that many allocations later the
    same id comes out again. *)
Lemma IdAfter_period (n0 : uint64) (k : nat) :
  IdAfter n0 (k + N.to_nat (UINT64_MODULUS - 1)) = IdAfter n0 k.
Proof.
  unfold IdAfter. modulus_numeral.
  rewrite Nat2N.inj_add, N2Nat.id.
  nmod_lia.
Qed.

(** C6, as amended.  The generator never yields [0], whatever the sequence of
    allocations, [Deinitialize] and [Initialize] calls; and the ids of a run
    with no [Deinitialize] and fewer than [2^64] allocations are pairwise
    distinct. *)
Theorem generated_ids_nonzero_distinct (Events : list IdEvent) (s : Subsystem) :
  CounterOk s ->
  (0%N ∉ GeneratedIds Events s)
  /\ (Ev_Deinitialize ∉ Events ->
      (N.of_nat (Allocations Events) < UINT64_MODULUS)%N ->
      NoDup (GeneratedIds Events s)).
Proof.
  intros Hok. split; [apply GeneratedIds_nonzero, Hok|].
  intros Hno Hfew.
  rewrite (GeneratedIds_closed_form Events s Hok Hno).
  rewrite length_GeneratedIds.
  apply (NoDup_fmap_2_strong (IdAfter (NextId s))); [|apply NoDup_seq].
  intros j k Hj Hk E.
  apply elem_of_seq in Hj, Hk.
  apply (IdAfter_inj (NextId s)); [| |exact E];
    revert Hfew; modulus_numeral; lia.
Qed.

Lemma generated_ids_nonzero_distinct_witness :
  (0%N ∉ GeneratedIds [Ev_AllocateId; Ev_Initialize; Ev_AllocateId; Ev_AllocateId]
           (NewSubsystem 0))
  /\ NoDup (GeneratedIds [Ev_AllocateId; Ev_Initialize; Ev_AllocateId; Ev_AllocateId]
              (NewSubsystem 0)).
Proof.
  assert (Hok : CounterOk (NewSubsystem 0)).
  { unfold CounterOk. simpl. modulus_numeral. lia. }
  destruct (generated_ids_nonzero_distinct
              [Ev_AllocateId; Ev_Initialize; Ev_AllocateId; Ev_AllocateId]
              (NewSubsystem 0) Hok) as [Hnz Hdistinct].
  split; [exact Hnz|].
  apply Hdistinct.
  - intros Hin. repeat (apply elem_of_cons in Hin; destruct Hin as [Hin|Hin];
                        [discriminate Hin|]).
    revert Hin. apply not_elem_of_nil.
  - unfold Allocations. simpl. modulus_numeral. lia.
Defined.

(** C6 as stated fails: [Deinitialize] restarts the counter at [1], so the
    first id allocated after it repeats the first id allocated before. *)
Lemma generated_ids_repeat_after_Deinitialize :
  CounterOk (NewSubsystem 0)
  /\ GeneratedIds [Ev_AllocateId; Ev_Deinitialize; Ev_Initialize; Ev_AllocateId]
       (NewSubsystem 0) = [1%N; 1%N]
  /\ ~ NoDup (GeneratedIds
                [Ev_AllocateId; Ev_Deinitialize; Ev_Initialize; Ev_AllocateId]
                (NewSubsystem 0)).
Proof.
  split.
  { unfold CounterOk. simpl. modulus_numeral. lia. }
  split; [reflexivity|].
  change (GeneratedIds
            [Ev_AllocateId; Ev_Deinitialize; Ev_Initialize; Ev_AllocateId]
            (NewSubsystem 0)) with [1%N; 1%N].
  intros Hnd. apply NoDup_cons in Hnd. destruct Hnd as [Hnot _].
  apply Hnot. left.
Qed.

(** ** The two marking passes *)

Lemma PreMarkLoop_eq (b : bool) (l : list (uint64 * FEnhancedTimerData)) :
  forall Fired : list uint64,
    PreMarkLoop b l Fired
    = Fired ++ map fst (List.filter (fun p => PreMarked b p.2) l).
Proof.
  induction l as [|[Key T] l IH]; intros Fired; cbn [PreMarkLoop List.filter].
  - symmetry. apply app_nil_r.
  - unfold PreMarked, Frozen. cbn [snd].
    destruct (bPaused T); cbn [orb negb andb]; [apply IH|].
    destruct (b && negb (bAffectedByGamePause T)); cbn [negb andb]; [apply IH|].
    destruct (bNextTick T); [|apply IH].
    rewrite IH. cbn [map fst]. rewrite <- app_assoc. reflexivity.
Qed.

Section MutableLoopFacts.

Variables (H : Host) (World : UWorld) (b : bool) (DeltaTime : float).

Lemma MutableLoop_Fired (l : list (uint64 * FEnhancedTimerData)) :
  forall s : Subsystem,
    FiredThisTick (MutableLoop H World b DeltaTime l s)
    = FiredThisTick s ++ map fst (List.filter (fun p => snd (MutableBody H World b DeltaTime p.2)) l).
Proof.
  induction l as [|[Key T] l IH]; intros s; cbn [MutableLoop List.filter].
  - symmetry. apply app_nil_r.
  - cbn [snd]. destruct (MutableBody H World b DeltaTime T) as [T' bFire].
    rewrite IH. destruct bFire; cbn [snd map fst].
    + cbn [FiredThisTick set_FiredThisTick set_Timers].
      rewrite <- app_assoc. reflexivity.
    + reflexivity.
Qed.

Lemma MutableLoop_frame (l : list (uint64 * FEnhancedTimerData)) :
  forall s : Subsystem,
    ToRemove (MutableLoop H World b DeltaTime l s) = ToRemove s
    /\ ToUnpause (MutableLoop H World b DeltaTime l s) = ToUnpause s
    /\ NextId (MutableLoop H World b DeltaTime l s) = NextId s
    /\ This (MutableLoop H World b DeltaTime l s) = This s.
Proof.
  induction l as [|[Key T] l IH]; intros s; cbn [MutableLoop].
  - repeat split.
  - destruct (MutableBody H World b DeltaTime T) as [T' bFire].
    destruct (IH (if bFire
                  then set_FiredThisTick (set_Timers s (<[Key:=T']> (Timers s)))
                         (FiredThisTick (set_Timers s (<[Key:=T']> (Timers s))) ++ [Key])
                  else set_Timers s (<[Key:=T']> (Timers s))))
      as (-> & -> & -> & ->).
    destruct bFire; repeat split.
Qed.

Lemma MutableLoop_Timers_other (k : uint64)
    (l : list (uint64 * FEnhancedTimerData)) :
  forall s : Subsystem,
    k ∉ map fst l ->
    Timers (MutableLoop H World b DeltaTime l s) !! k = Timers s !! k.
Proof.
  induction l as [|[Key T] l IH]; intros s Hk; cbn [MutableLoop]; [reflexivity|].
  cbn [map fst] in Hk. apply not_elem_of_cons in Hk. destruct Hk as [Hne Hk].
  destruct (MutableBody H World b DeltaTime T) as [T' bFire].
  rewrite (IH _ Hk).
  destruct bFire; cbn [Timers set_FiredThisTick set_Timers];
    apply lookup_insert_ne; congruence.
Qed.

Lemma MutableLoop_Timers_entry (k : uint64) (T : FEnhancedTimerData)
    (l : list (uint64 * FEnhancedTimerData)) :
  forall s : Subsystem,
    NoDup (map fst l) -> (k, T) ∈ l ->
    Timers (MutableLoop H World b DeltaTime l s) !! k = Some (MutableBody H World b DeltaTime T).1.
Proof.
  induction l as [|[Key T0] l IH]; intros s Hnd Hin; cbn [MutableLoop].
  - apply elem_of_nil in Hin. destruct Hin.
  - cbn [map fst] in Hnd. apply NoDup_cons in Hnd. destruct Hnd as [Hfresh Hnd].
    apply elem_of_cons in Hin. destruct Hin as [E | Hin].
    + inversion E; subst Key T0.
      destruct (MutableBody H World b DeltaTime T) as [T' bFire].
      rewrite (MutableLoop_Timers_other k l _ Hfresh).
      destruct bFire; cbn [Timers set_FiredThisTick set_Timers fst];
        apply lookup_insert_eq.
    + destruct (MutableBody H World b DeltaTime T0) as [T' bFire].
      apply (IH _ Hnd Hin).
Qed.

End MutableLoopFacts.

(** The body of the mutable pass on one record. *)

Lemma MutableBody_frozen (H : Host) (W : UWorld) (b : bool) (dt : float)
    (T : FEnhancedTimerData) :
  Frozen b T = true -> MutableBody H W b dt T = (T, false).
Proof.
  unfold Frozen, MutableBody. intros Hf.
  destruct (bPaused T); [reflexivity|].
  cbn [orb] in Hf. rewrite Hf. reflexivity.
Qed.

Lemma MutableBody_next_tick (H : Host) (W : UWorld) (b : bool) (dt : float)
    (T : FEnhancedTimerData) :
  bNextTick T = true -> MutableBody H W b dt T = (T, false).
Proof.
  unfold MutableBody. intros ->.
  destruct (bPaused T); [reflexivity|].
  destruct (b && negb (bAffectedByGamePause T)); reflexivity.
Qed.

(** A record the pass does not skip: advanced, then either moved out of the
    initial delay or tested for firing. *)
Lemma MutableBody_processed (H : Host) (W : UWorld) (b : bool) (dt : float)
    (T : FEnhancedTimerData) :
  Frozen b T = false -> bNextTick T = false ->
  MutableBody H W b dt T
  = let e := (PhaseElapsed T + GetEffectiveDelta H T dt (Some W))%Q in
    if phase_eqb (Phase T) InitialDelayPhase
       && Qle_bool (InitialDelay T) (e + KINDA_SMALL_NUMBER)%Q
    then (set_Phase T Running 0%Q, false)
    else (set_Phase T (Phase T) e,
          phase_eqb (Phase T) Running
          && Qle_bool (Duration T) (e + KINDA_SMALL_NUMBER)%Q).
Proof.
  unfold Frozen, MutableBody. intros Hf Hnt.
  apply orb_false_iff in Hf. destruct Hf as [-> ->]. rewrite Hnt.
  unfold TryTransitFromDelay, Advance, ShouldFire. cbn.
  destruct (phase_eqb (Phase T) InitialDelayPhase
            && Qle_bool (InitialDelay T)
                 (PhaseElapsed T + GetEffectiveDelta H T dt (Some W)
                  + KINDA_SMALL_NUMBER)%Q); reflexivity.
Qed.

Lemma MutableBody_configuration (H : Host) (W : UWorld) (b : bool) (dt : float)
    (T : FEnhancedTimerData) :
  SameConfiguration T (MutableBody H W b dt T).1.
Proof.
  destruct (Frozen b T) eqn:Hf.
  { rewrite (MutableBody_frozen H W b dt T Hf). repeat split. }
  destruct (bNextTick T) eqn:Hnt.
  { rewrite (MutableBody_next_tick H W b dt T Hnt). repeat split; auto. }
  rewrite (MutableBody_processed H W b dt T Hf Hnt). cbn zeta.
  match goal with |- context [if ?c then _ else _] => destruct c end;
    repeat split; auto.
Qed.

Lemma PreMarked_not_marked (H : Host) (W : UWorld) (b : bool) (dt : float)
    (T : FEnhancedTimerData) :
  PreMarked b T = true -> (MutableBody H W b dt T).2 = false.
Proof.
  unfold PreMarked. intros Hp. apply andb_true_iff in Hp.
  destruct Hp as [_ Hnt]. rewrite (MutableBody_next_tick H W b dt T Hnt).
  reflexivity.
Qed.

(** Lists of keys selected from the entries of a map. *)

Lemma elem_of_selected_keys (f : uint64 * FEnhancedTimerData -> bool)
    (l : list (uint64 * FEnhancedTimerData)) (k : uint64) :
  k ∈ map fst (List.filter f l) <-> exists T, (k, T) ∈ l /\ f (k, T) = true.
Proof.
  rewrite list_elem_of_In, in_map_iff. split.
  - intros ([k' T] & E & Hin). cbn in E. subst k'.
    apply filter_In in Hin. destruct Hin as [Hin Hf].
    exists T. split; [apply list_elem_of_In, Hin | exact Hf].
  - intros (T & Hin & Hf). exists (k, T). split; [reflexivity|].
    apply filter_In. split; [apply list_elem_of_In, Hin | exact Hf].
Qed.

Lemma NoDup_selected_keys (f : uint64 * FEnhancedTimerData -> bool)
    (l : list (uint64 * FEnhancedTimerData)) :
  NoDup (map fst l) -> NoDup (map fst (List.filter f l)).
Proof.
  induction l as [|[k T] l IH]; intros Hnd; cbn [List.filter]; [constructor|].
  cbn [map fst] in Hnd. apply NoDup_cons in Hnd. destruct Hnd as [Hfresh Hnd].
  destruct (f (k, T)); [|apply IH, Hnd].
  cbn [map fst]. apply NoDup_cons. split; [|apply IH, Hnd].
  intros Hin. apply elem_of_selected_keys in Hin.
  destruct Hin as (T' & Hin & _). apply Hfresh.
  apply list_elem_of_In, in_map_iff. exists (k, T').
  split; [reflexivity | apply list_elem_of_In, Hin].
Qed.

(** The state [MarkDue] hands to [ExecuteFired]. *)

Lemma MarkDue_Timers (H : Host) (W : UWorld) (dt : float) (s : Subsystem)
    (k : uint64) :
  Timers (MarkDue H W dt s) !! k
  = (fun T => (MutableBody H W (IsGamePaused H) dt T).1) <$> Timers s !! k.
Proof.
  unfold MarkDue. cbn [Timers set_FiredThisTick].
  destruct (Timers s !! k) as [T|] eqn:Hk; cbn [fmap option_fmap option_map].
  - apply MutableLoop_Timers_entry.
    + apply (NoDup_fst_map_to_list (Timers s)).
    + apply elem_of_map_to_list, Hk.
  - rewrite MutableLoop_Timers_other; [exact Hk|].
    intros Hin. apply list_elem_of_In, in_map_iff in Hin.
    destruct Hin as ([k' T] & E & Hin). cbn in E. subst k'.
    apply list_elem_of_In, elem_of_map_to_list in Hin. congruence.
Qed.

Lemma MarkDue_frame (H : Host) (W : UWorld) (dt : float) (s : Subsystem) :
  ToRemove (MarkDue H W dt s) = ToRemove s
  /\ ToUnpause (MarkDue H W dt s) = ToUnpause s
  /\ NextId (MarkDue H W dt s) = NextId s
  /\ This (MarkDue H W dt s) = This s.
Proof.
  unfold MarkDue.
  match goal with |- context [MutableLoop ?h ?w ?b ?d ?l ?s1] =>
    destruct (MutableLoop_frame h w b d l s1) as (-> & -> & -> & ->) end.
  repeat split.
Qed.

Lemma MarkDue_Fired (H : Host) (W : UWorld) (dt : float) (s : Subsystem) :
  FiredThisTick s = [] ->
  FiredThisTick (MarkDue H W dt s)
  = map fst (List.filter (fun p => PreMarked (IsGamePaused H) p.2)
               (map_to_list (Timers s)))
    ++ map fst (List.filter
                  (fun p => (MutableBody H W (IsGamePaused H) dt p.2).2)
                  (map_to_list (Timers s))).
Proof.
  intros Hidle. unfold MarkDue. rewrite MutableLoop_Fired.
  cbn [FiredThisTick Timers set_FiredThisTick].
  rewrite PreMarkLoop_eq, Hidle. reflexivity.
Qed.

Lemma MarkDue_Fired_elem (H : Host) (W : UWorld) (dt : float) (s : Subsystem)
    (k : uint64) :
  FiredThisTick s = [] ->
  k ∈ FiredThisTick (MarkDue H W dt s)
  <-> exists T, Timers s !! k = Some T /\ Due H W dt T = true.
Proof.
  intros Hidle. rewrite (MarkDue_Fired H W dt s Hidle).
  rewrite elem_of_app, !elem_of_selected_keys. unfold Due. split.
  - intros [(T & Hin & Hf) | (T & Hin & Hf)]; exists T;
      (split; [apply elem_of_map_to_list, Hin|]); cbn [snd] in Hf;
      rewrite Hf; [reflexivity | apply orb_true_r].
  - intros (T & Hk & Hdue). apply elem_of_map_to_list in Hk.
    apply orb_true_iff in Hdue. destruct Hdue as [Hp | Hm];
      [left | right]; exists T; (split; [exact Hk | exact Hp || exact Hm]).
Qed.

Lemma MarkDue_Fired_NoDup (H : Host) (W : UWorld) (dt : float) (s : Subsystem) :
  FiredThisTick s = [] -> NoDup (FiredThisTick (MarkDue H W dt s)).
Proof.
  intros Hidle. rewrite (MarkDue_Fired H W dt s Hidle).
  apply NoDup_app. split; [|split].
  - apply NoDup_selected_keys, (NoDup_fst_map_to_list (Timers s)).
  - intros k Hpre Hmark. apply elem_of_selected_keys in Hpre, Hmark.
    destruct Hpre as (T & Hin & Hp). destruct Hmark as (T' & Hin' & Hm).
    apply elem_of_map_to_list in Hin, Hin'.
    assert (T' = T) by congruence. subst T'.
    cbn [snd] in Hp, Hm.
    rewrite (PreMarked_not_marked H W _ dt T Hp) in Hm. discriminate.
  - apply NoDup_selected_keys, (NoDup_fst_map_to_list (Timers s)).
Qed.

(** ** [ExecuteFired] and [Cleanup], seen from one timer *)

Lemma InvocationsOf_app (id : uint64) (l1 l2 : list Invocation) :
  InvocationsOf id (l1 ++ l2) = InvocationsOf id l1 ++ InvocationsOf id l2.
Proof. unfold InvocationsOf. apply List.filter_app. Qed.

Section FireFacts.

Variable UserCode : nat -> gmap N FEnhancedTimerData * uint64 ->
                    gmap N FEnhancedTimerData * uint64.
Variable id : uint64.
Hypothesis Halone : LeavesAlone UserCode id.

Lemma RunUserCode_lookup (f : nat) (s : Subsystem) :
  Timers (RunUserCode UserCode f s) !! id = Timers s !! id.
Proof using Halone.
  unfold RunUserCode. specialize (Halone f (Timers s, NextId s)).
  destruct (UserCode f (Timers s, NextId s)) as [m n]. exact Halone.
Qed.

Lemma RunUserCode_buffers (f : nat) (s : Subsystem) :
  FiredThisTick (RunUserCode UserCode f s) = FiredThisTick s
  /\ ToRemove (RunUserCode UserCode f s) = ToRemove s
  /\ ToUnpause (RunUserCode UserCode f s) = ToUnpause s.
Proof.
  unfold RunUserCode. destruct (UserCode f (Timers s, NextId s)) as [m n].
  repeat split.
Qed.

Lemma FireOne_buffers (k : uint64) (s : Subsystem) :
  FiredThisTick (FireOne UserCode k s).1 = FiredThisTick s
  /\ ToUnpause (FireOne UserCode k s).1 = ToUnpause s.
Proof.
  unfold FireOne, GetData, FindMutable.
  destruct (Timers s !! k) as [Copy|]; [|split; reflexivity].
  destruct (Callback Copy) as [f|].
  - destruct (RunUserCode_buffers f s) as (Hf & _ & Hu).
    destruct (Timers (RunUserCode UserCode f s) !! k) as [Mut|];
      [destruct (bLoop Mut)|]; cbn; auto.
  - destruct (Timers s !! k) as [Mut|]; [destruct (bLoop Mut)|]; cbn; auto.
Qed.

Lemma FireOne_other (k : uint64) (s : Subsystem) :
  k <> id ->
  Timers (FireOne UserCode k s).1 !! id = Timers s !! id
  /\ (id ∈ ToRemove (FireOne UserCode k s).1 <-> id ∈ ToRemove s)
  /\ InvocationsOf id (FireOne UserCode k s).2 = [].
Proof using Halone.
  intros Hne. unfold FireOne, GetData, FindMutable.
  assert (Hlog : forall f, InvocationsOf id [ {| FiredId := k; Callee := f |} ] = []).
  { intros f. unfold InvocationsOf. cbn.
    destruct (N.eqb_spec k id) as [E|_]; [contradiction|reflexivity]. }
  assert (Hmem : forall l : list uint64, id ∈ l ++ [k] <-> id ∈ l).
  { intros l. rewrite elem_of_app, list_elem_of_singleton.
    split; [intros [?|?]; [assumption|congruence] | auto]. }
  destruct (Timers s !! k) as [Copy|]; [|repeat split; auto].
  destruct (Callback Copy) as [f|].
  - pose proof (RunUserCode_lookup f s) as Hl.
    destruct (RunUserCode_buffers f s) as (_ & Hr & _).
    destruct (Timers (RunUserCode UserCode f s) !! k) as [Mut|];
      [destruct (bLoop Mut)|]; cbn [fst snd Timers ToRemove set_Timers set_ToRemove].
    + rewrite lookup_insert_ne by exact Hne. rewrite Hl, Hr, Hlog. tauto.
    + rewrite Hl, Hmem, Hr, Hlog. tauto.
    + rewrite Hl, Hr, Hlog. tauto.
  - destruct (Timers s !! k) as [Mut|];
      [destruct (bLoop Mut)|]; cbn [fst snd Timers ToRemove set_Timers set_ToRemove].
    + rewrite lookup_insert_ne by exact Hne. tauto.
    + rewrite Hmem. tauto.
    + tauto.
Qed.

Lemma FireOne_self (s : Subsystem) (T : FEnhancedTimerData) :
  Timers s !! id = Some T ->
  InvocationsOf id (FireOne UserCode id s).2
  = match Callback T with
    | Some f => [ {| FiredId := id; Callee := f |} ]
    | None => []
    end
  /\ (if bLoop T
      then Timers (FireOne UserCode id s).1 !! id = Some (rearm T)
           /\ (id ∈ ToRemove (FireOne UserCode id s).1 <-> id ∈ ToRemove s)
      else Timers (FireOne UserCode id s).1 !! id = Some T
           /\ id ∈ ToRemove (FireOne UserCode id s).1).
Proof using Halone.
  intros Hfound. unfold FireOne, GetData, FindMutable. rewrite Hfound.
  destruct (Callback T) as [f|].
  - pose proof (RunUserCode_lookup f s) as Hl. rewrite Hfound in Hl.
    destruct (RunUserCode_buffers f s) as (_ & Hr & _).
    rewrite Hl. destruct (bLoop T);
      cbn [fst snd Timers ToRemove set_Timers set_ToRemove].
    + rewrite lookup_insert_eq, Hr. unfold InvocationsOf. cbn.
      rewrite N.eqb_refl. tauto.
    + rewrite Hl. unfold InvocationsOf. cbn. rewrite N.eqb_refl.
      split; [reflexivity|]. split; [reflexivity|].
      apply elem_of_app. right. apply list_elem_of_singleton. reflexivity.
  - rewrite Hfound. destruct (bLoop T);
      cbn [fst snd Timers ToRemove set_Timers set_ToRemove].
    + rewrite lookup_insert_eq. tauto.
    + rewrite Hfound. split; [reflexivity|]. split; [reflexivity|].
      apply elem_of_app. right. apply list_elem_of_singleton. reflexivity.
Qed.

Lemma FireLoop_buffers (l : list uint64) :
  forall s : Subsystem,
    FiredThisTick (FireLoop UserCode l s).1 = FiredThisTick s
    /\ ToUnpause (FireLoop UserCode l s).1 = ToUnpause s.
Proof.
  induction l as [|k l IH]; intros s; cbn [FireLoop]; [split; reflexivity|].
  destruct (FireOne_buffers k s) as [Hf Hu].
  destruct (FireOne UserCode k s) as [s1 Log1]. cbn [fst] in Hf, Hu.
  destruct (IH s1) as [Hf' Hu'].
  destruct (FireLoop UserCode l s1) as [s2 Log2]. cbn [fst] in *.
  split; congruence.
Qed.

Lemma FireLoop_other (l : list uint64) :
  forall s : Subsystem,
    id ∉ l ->
    Timers (FireLoop UserCode l s).1 !! id = Timers s !! id
    /\ (id ∈ ToRemove (FireLoop UserCode l s).1 <-> id ∈ ToRemove s)
    /\ InvocationsOf id (FireLoop UserCode l s).2 = [].
Proof using Halone.
  induction l as [|k l IH]; intros s Hnot; cbn [FireLoop].
  - cbn. tauto.
  - apply not_elem_of_cons in Hnot. destruct Hnot as [Hne Hnot].
    destruct (FireOne_other k s) as (Ht & Hr & Hlog); [congruence|].
    destruct (FireOne UserCode k s) as [s1 Log1]. cbn [fst snd] in Ht, Hr, Hlog.
    destruct (IH s1 Hnot) as (Ht' & Hr' & Hlog').
    destruct (FireLoop UserCode l s1) as [s2 Log2]. cbn [fst snd] in *.
    rewrite InvocationsOf_app, Hlog, Hlog', Ht', Ht, Hr', Hr. tauto.
Qed.

Lemma FireLoop_self (l : list uint64) :
  forall (s : Subsystem) (T : FEnhancedTimerData),
    NoDup l -> id ∈ l -> Timers s !! id = Some T ->
    InvocationsOf id (FireLoop UserCode l s).2
    = match Callback T with
      | Some f => [ {| FiredId := id; Callee := f |} ]
      | None => []
      end
    /\ (if bLoop T
        then Timers (FireLoop UserCode l s).1 !! id = Some (rearm T)
             /\ (id ∈ ToRemove (FireLoop UserCode l s).1 <-> id ∈ ToRemove s)
        else Timers (FireLoop UserCode l s).1 !! id = Some T
             /\ id ∈ ToRemove (FireLoop UserCode l s).1).
Proof using Halone.
  induction l as [|k l IH]; intros s T Hnd Hin Hfound.
  - apply elem_of_nil in Hin. destruct Hin.
  - apply NoDup_cons in Hnd. destruct Hnd as [Hfresh Hnd]. cbn [FireLoop].
    destruct (decide (k = id)) as [-> | Hne].
    + destruct (FireOne_self s T Hfound) as (Hlog & Hafter).
      destruct (FireOne UserCode id s) as [s1 Log1]. cbn [fst snd] in Hlog, Hafter.
      destruct (FireLoop_other l s1 Hfresh) as (Ht' & Hr' & Hlog').
      destruct (FireLoop UserCode l s1) as [s2 Log2]. cbn [fst snd] in *.
      rewrite InvocationsOf_app, Hlog, Hlog', app_nil_r.
      split; [reflexivity|].
      destruct (bLoop T); rewrite Ht', Hr'; exact Hafter.
    + apply elem_of_cons in Hin. destruct Hin as [E | Hin]; [congruence|].
      destruct (FireOne_other k s Hne) as (Ht & Hr & Hlog).
      destruct (FireOne UserCode k s) as [s1 Log1]. cbn [fst snd] in Ht, Hr, Hlog.
      rewrite <- Ht in Hfound.
      destruct (IH s1 T Hnd Hin Hfound) as (Hlog' & Hafter).
      destruct (FireLoop UserCode l s1) as [s2 Log2]. cbn [fst snd] in *.
      rewrite InvocationsOf_app, Hlog, Hlog'.
      split; [reflexivity|].
      destruct (bLoop T); [rewrite <- Hr|]; exact Hafter.
Qed.

End FireFacts.

Lemma lookup_fold_delete (l : list uint64) :
  forall (m : gmap N FEnhancedTimerData) (k : uint64),
    fold_left (fun m Id => delete Id m) l m !! k
    = if decide (k ∈ l) then None else m !! k.
Proof.
  induction l as [|a l IH]; intros m k; cbn [fold_left].
  - destruct (decide (k ∈ [])) as [Hin|_]; [|reflexivity].
    apply elem_of_nil in Hin. destruct Hin.
  - rewrite IH.
    destruct (decide (k ∈ l)) as [Hin|Hnot].
    + rewrite decide_True; [reflexivity | right; exact Hin].
    + destruct (decide (k = a)) as [-> | Hne].
      * rewrite decide_True; [apply lookup_delete_eq | left].
      * rewrite decide_False; [apply lookup_delete_ne; congruence|].
        intros Hin. apply elem_of_cons in Hin. tauto.
Qed.

Lemma Cleanup_lookup (s : Subsystem) (k : uint64) :
  ToUnpause s = [] ->
  Timers (Cleanup s) !! k
  = if decide (k ∈ ToRemove s) then None else Timers s !! k.
Proof.
  intros Hu. unfold Cleanup. rewrite Hu.
  destruct (ToRemove s) as [|a l] eqn:Hr.
  - destruct (decide (k ∈ [])) as [Hin|_]; [|reflexivity].
    apply elem_of_nil in Hin. destruct Hin.
  - cbn [Timers set_Timers set_ToRemove set_ToUnpause].
    apply (lookup_fold_delete (a :: l)).
Qed.

Lemma Cleanup_buffers (s : Subsystem) :
  FiredThisTick (Cleanup s) = FiredThisTick s
  /\ ToRemove (Cleanup s) = [] /\ ToUnpause (Cleanup s) = [].
Proof.
  unfold Cleanup.
  destruct (ToRemove s) as [|a l] eqn:Hr; destruct (ToUnpause s) as [|b l'] eqn:Hu;
    cbn; auto.
Qed.

Section TickFacts.

Variable UserCode : nat -> gmap N FEnhancedTimerData * uint64 ->
                    gmap N FEnhancedTimerData * uint64.
Variable id : uint64.
Hypothesis Halone : LeavesAlone UserCode id.

Lemma ExecuteFired_buffers (s : Subsystem) :
  FiredThisTick (ExecuteFired UserCode s).1 = []
  /\ ToUnpause (ExecuteFired UserCode s).1 = ToUnpause s.
Proof.
  unfold ExecuteFired. destruct (FiredThisTick s) as [|a l] eqn:Hf.
  - cbn. auto.
  - destruct (FireLoop_buffers UserCode (a :: l) (set_FiredThisTick s []))
      as [Hf' Hu'].
    rewrite Hf', Hu'. cbn. auto.
Qed.

Lemma ExecuteFired_other (s : Subsystem) :
  id ∉ FiredThisTick s ->
  Timers (ExecuteFired UserCode s).1 !! id = Timers s !! id
  /\ (id ∈ ToRemove (ExecuteFired UserCode s).1 <-> id ∈ ToRemove s)
  /\ InvocationsOf id (ExecuteFired UserCode s).2 = [].
Proof using Halone.
  intros Hnot. unfold ExecuteFired.
  destruct (FiredThisTick s) as [|a l] eqn:Hf.
  - cbn. tauto.
  - apply (FireLoop_other UserCode id Halone (a :: l) (set_FiredThisTick s []) Hnot).
Qed.

Lemma ExecuteFired_self (s : Subsystem) (T : FEnhancedTimerData) :
  NoDup (FiredThisTick s) -> id ∈ FiredThisTick s -> Timers s !! id = Some T ->
  InvocationsOf id (ExecuteFired UserCode s).2
  = match Callback T with
    | Some f => [ {| FiredId := id; Callee := f |} ]
    | None => []
    end
  /\ (if bLoop T
      then Timers (ExecuteFired UserCode s).1 !! id = Some (rearm T)
           /\ (id ∈ ToRemove (ExecuteFired UserCode s).1 <-> id ∈ ToRemove s)
      else Timers (ExecuteFired UserCode s).1 !! id = Some T
           /\ id ∈ ToRemove (ExecuteFired UserCode s).1).
Proof using Halone.
  intros Hnd Hin Hfound. unfold ExecuteFired.
  destruct (FiredThisTick s) as [|a l] eqn:Hf.
  - apply elem_of_nil in Hin. destruct Hin.
  - apply (FireLoop_self UserCode id Halone (a :: l) (set_FiredThisTick s []) T
             Hnd Hin Hfound).
Qed.

(** One call of [Tick], seen from a record that is in the store: it is due
    or not; when due its delegate runs once and it is re-armed or removed;
    when not due it is left as the mutable pass left it. *)
Lemma Tick_present (H : Host) (W : UWorld) (dt : float) (s : Subsystem)
    (T : FEnhancedTimerData) :
  Idle s -> GetWorld H = Some W -> Timers s !! id = Some T ->
  Idle (Tick UserCode H dt s).1
  /\ (if Due H W dt T
      then InvocationsOf id (Tick UserCode H dt s).2
           = match Callback T with
             | Some f => [ {| FiredId := id; Callee := f |} ]
             | None => []
             end
           /\ Timers (Tick UserCode H dt s).1 !! id
              = if bLoop T
                then Some (rearm (MutableBody H W (IsGamePaused H) dt T).1)
                else None
      else InvocationsOf id (Tick UserCode H dt s).2 = []
           /\ Timers (Tick UserCode H dt s).1 !! id
              = Some (MutableBody H W (IsGamePaused H) dt T).1).
Proof using Halone.
  intros (Hf0 & Hr0 & Hu0) HW Hfound. unfold Tick. rewrite HW.
  pose proof (MarkDue_Timers H W dt s id) as Hl2. rewrite Hfound in Hl2.
  cbn [fmap option_fmap option_map] in Hl2.
  destruct (MarkDue_frame H W dt s) as (Hr2 & Hu2 & _).
  pose proof (MarkDue_Fired_NoDup H W dt s Hf0) as Hnd.
  pose proof (MarkDue_Fired_elem H W dt s id Hf0) as Hin.
  destruct (MutableBody_configuration H W (IsGamePaused H) dt T)
    as (_ & Hd & Hdd & Hud & Hloop & _).
  set (T' := (MutableBody H W (IsGamePaused H) dt T).1) in *.
  set (s2 := MarkDue H W dt s) in *.
  destruct (ExecuteFired_buffers s2) as [Hf3 Hu3].
  assert (HnotR : id ∉ ToRemove s2).
  { rewrite Hr2, Hr0. apply not_elem_of_nil. }
  split.
  { destruct (ExecuteFired UserCode s2) as [s3 Log]. cbn [fst] in *.
    destruct (Cleanup_buffers s3) as (Hf4 & Hr4 & Hu4).
    unfold Idle. rewrite Hf4, Hf3. auto. }
  destruct (Due H W dt T) eqn:Hdue.
  - assert (Hmem : id ∈ FiredThisTick s2) by (apply Hin; eauto).
    destruct (ExecuteFired_self s2 T' Hnd Hmem Hl2) as (Hlog & Hafter).
    assert (Hcb : Callback T' = Callback T).
    { unfold Callback. rewrite Hd, Hdd, Hud. reflexivity. }
    rewrite Hcb, Hloop in *.
    destruct (ExecuteFired UserCode s2) as [s3 Log]. cbn [fst snd] in *.
    split; [exact Hlog|].
    rewrite Cleanup_lookup by congruence.
    destruct (bLoop T).
    + destruct Hafter as [Ht Hr]. rewrite decide_False by tauto. exact Ht.
    + destruct Hafter as [Ht Hr]. rewrite decide_True by exact Hr. reflexivity.
  - assert (Hmem : id ∉ FiredThisTick s2).
    { intros Hmem. apply Hin in Hmem. destruct Hmem as (T0 & E & Hd0).
      congruence. }
    destruct (ExecuteFired_other s2 Hmem) as (Ht & Hr & Hlog).
    destruct (ExecuteFired UserCode s2) as [s3 Log]. cbn [fst snd] in *.
    split; [exact Hlog|].
    rewrite Cleanup_lookup by congruence.
    rewrite decide_False by tauto. congruence.
Qed.

(** One call of [Tick], seen from an id that is not in the store. *)
Lemma Tick_absent (H : Host) (dt : float) (s : Subsystem) :
  Idle s -> Timers s !! id = None ->
  Idle (Tick UserCode H dt s).1
  /\ InvocationsOf id (Tick UserCode H dt s).2 = []
  /\ Timers (Tick UserCode H dt s).1 !! id = None.
Proof using Halone.
  intros Hidle Hmiss. unfold Tick.
  destruct (GetWorld H) as [W|]; [|cbn; auto].
  destruct Hidle as (Hf0 & Hr0 & Hu0).
  pose proof (MarkDue_Timers H W dt s id) as Hl2. rewrite Hmiss in Hl2.
  cbn [fmap option_fmap option_map] in Hl2.
  destruct (MarkDue_frame H W dt s) as (Hr2 & Hu2 & _).
  pose proof (MarkDue_Fired_elem H W dt s id Hf0) as Hin.
  set (s2 := MarkDue H W dt s) in *.
  destruct (ExecuteFired_buffers s2) as [Hf3 Hu3].
  assert (Hmem : id ∉ FiredThisTick s2).
  { intros Hmem. apply Hin in Hmem. destruct Hmem as (T0 & E & _).
    congruence. }
  destruct (ExecuteFired_other s2 Hmem) as (Ht & Hr & Hlog).
  destruct (ExecuteFired UserCode s2) as [s3 Log]. cbn [fst snd] in *.
  destruct (Cleanup_buffers s3) as (Hf4 & Hr4 & Hu4).
  split; [unfold Idle; rewrite Hf4, Hf3; auto|].
  split; [exact Hlog|].
  rewrite Cleanup_lookup by congruence.
  destruct (decide (id ∈ ToRemove s3)); [reflexivity | congruence].
Qed.

End TickFacts.

(** ** The fire pass and a record that is gone *)

Section CancellationFacts.

Variable UserCode : nat -> gmap N FEnhancedTimerData * uint64 ->
                    gmap N FEnhancedTimerData * uint64.
Variable id : uint64.
Hypothesis Hgone : NeverRevives UserCode id.

Lemma FireOne_gone (k : uint64) (s : Subsystem) :
  Timers s !! id = None ->
  Timers (FireOne UserCode k s).1 !! id = None
  /\ (id ∈ ToRemove (FireOne UserCode k s).1 <-> id ∈ ToRemove s)
  /\ InvocationsOf id (FireOne UserCode k s).2 = [].
Proof using Hgone.
  intros Hmiss. unfold FireOne, GetData, FindMutable.
  destruct (decide (k = id)) as [-> | Hne].
  { rewrite Hmiss. cbn. tauto. }
  assert (Hlog : forall f, InvocationsOf id [ {| FiredId := k; Callee := f |} ] = []).
  { intros f. unfold InvocationsOf. cbn.
    destruct (N.eqb_spec k id) as [E|_]; [contradiction|reflexivity]. }
  assert (Hmem : forall l : list uint64, id ∈ l ++ [k] <-> id ∈ l).
  { intros l. rewrite elem_of_app, list_elem_of_singleton.
    split; [intros [?|?]; [assumption|congruence] | auto]. }
  destruct (Timers s !! k) as [Copy|]; [|cbn; tauto].
  destruct (Callback Copy) as [f|].
  - assert (Hl : Timers (RunUserCode UserCode f s) !! id = None).
    { unfold RunUserCode. specialize (Hgone f (Timers s, NextId s) Hmiss).
      destruct (UserCode f (Timers s, NextId s)) as [m n]. exact Hgone. }
    destruct (RunUserCode_buffers UserCode f s) as (_ & Hr & _).
    destruct (Timers (RunUserCode UserCode f s) !! k) as [Mut|];
      [destruct (bLoop Mut)|];
      cbn [fst snd Timers ToRemove set_Timers set_ToRemove].
    + rewrite lookup_insert_ne by exact Hne. rewrite Hl, Hr, Hlog. tauto.
    + rewrite Hl, Hmem, Hr, Hlog. tauto.
    + rewrite Hl, Hr, Hlog. tauto.
  - destruct (Timers s !! k) as [Mut|]; [destruct (bLoop Mut)|];
      cbn [fst snd Timers ToRemove set_Timers set_ToRemove].
    + rewrite lookup_insert_ne by exact Hne. tauto.
    + rewrite Hmem. tauto.
    + tauto.
Qed.

Lemma FireLoop_gone (l : list uint64) :
  forall s : Subsystem,
    Timers s !! id = None ->
    Timers (FireLoop UserCode l s).1 !! id = None
    /\ (id ∈ ToRemove (FireLoop UserCode l s).1 <-> id ∈ ToRemove s)
    /\ InvocationsOf id (FireLoop UserCode l s).2 = [].
Proof using Hgone.
  induction l as [|k l IH]; intros s Hmiss; cbn [FireLoop]; [cbn; tauto|].
  destruct (FireOne_gone k s Hmiss) as (Ht & Hr & Hlog).
  destruct (FireOne UserCode k s) as [s1 Log1]. cbn [fst snd] in Ht, Hr, Hlog.
  destruct (IH s1 Ht) as (Ht' & Hr' & Hlog').
  destruct (FireLoop UserCode l s1) as [s2 Log2]. cbn [fst snd] in *.
  rewrite InvocationsOf_app, Hlog, Hlog', Hr', Hr. tauto.
Qed.

End CancellationFacts.

(** ** One call of [Tick] when user code does not invalidate the timer *)

Lemma Unpaused_fields (T T' : FEnhancedTimerData) :
  Unpaused T' = Unpaused T ->
  Callback T' = Callback T /\ bLoop T' = bLoop T /\ Phase T' = Phase T
  /\ PhaseElapsed T' = PhaseElapsed T /\ bNextTick T' = bNextTick T
  /\ Unpaused (rearm T') = Unpaused (rearm T).
Proof.
  destruct T, T'. unfold Unpaused, set_bPaused, Callback, rearm. cbn.
  intros E. inversion E. subst. repeat split.
Qed.

Lemma Unpaused_lookup (o : option FEnhancedTimerData) (T : FEnhancedTimerData) :
  Unpaused <$> o = Some (Unpaused T) ->
  exists T', o = Some T' /\ Unpaused T' = Unpaused T.
Proof.
  destruct o as [T'|]; cbn; intros E; [|discriminate].
  exists T'. split; [reflexivity | congruence].
Qed.

Lemma LeavesAlone_Spares
    (UserCode : nat -> gmap N FEnhancedTimerData * uint64 ->
                gmap N FEnhancedTimerData * uint64) (id : uint64) :
  LeavesAlone UserCode id -> Spares UserCode id.
Proof. intros Halone f st T E. rewrite (Halone f st), E. reflexivity. Qed.

Lemma InvocationsOf_nil (id : uint64) (Log : list Invocation) :
  (forall i, i ∈ Log -> FiredId i <> id) -> InvocationsOf id Log = [].
Proof.
  induction Log as [|i Log IH]; intros Hall; [reflexivity|].
  unfold InvocationsOf. cbn [List.filter].
  destruct (N.eqb_spec (FiredId i) id) as [E|_].
  - exfalso. apply (Hall i); [left | exact E].
  - apply IH. intros j Hj. apply Hall. right. exact Hj.
Qed.

(** The fire pass executes delegates for queued ids only, whatever user code
    does. *)
Lemma FireOne_log_ids
    (UserCode : nat -> gmap N FEnhancedTimerData * uint64 ->
                gmap N FEnhancedTimerData * uint64)
    (k : uint64) (s : Subsystem) (i : Invocation) :
  i ∈ (FireOne UserCode k s).2 -> FiredId i = k.
Proof.
  unfold FireOne, GetData, FindMutable.
  destruct (Timers s !! k) as [Copy|]; [|intros Hin; apply elem_of_nil in Hin; tauto].
  destruct (Callback Copy) as [f|].
  - destruct (Timers (RunUserCode UserCode f s) !! k) as [Mut|];
      [destruct (bLoop Mut)|]; cbn [snd]; intros Hin;
      apply list_elem_of_singleton in Hin; subst i; reflexivity.
  - destruct (Timers s !! k) as [Mut|];
      [destruct (bLoop Mut)|]; cbn [snd]; intros Hin;
      apply elem_of_nil in Hin; tauto.
Qed.

Lemma FireLoop_log_ids
    (UserCode : nat -> gmap N FEnhancedTimerData * uint64 ->
                gmap N FEnhancedTimerData * uint64)
    (l : list uint64) :
  forall (s : Subsystem) (i : Invocation),
    i ∈ (FireLoop UserCode l s).2 -> FiredId i ∈ l.
Proof.
  induction l as [|k l IH]; intros s i; cbn [FireLoop].
  - intros Hin. apply elem_of_nil in Hin. tauto.
  - pose proof (FireOne_log_ids UserCode k s i) as H1.
    destruct (FireOne UserCode k s) as [s1 Log1]. cbn [snd] in H1.
    pose proof (IH s1 i) as H2.
    destruct (FireLoop UserCode l s1) as [s2 Log2]. cbn [snd] in *.
    intros Hin. apply elem_of_app in Hin. destruct Hin as [Hin | Hin].
    + apply elem_of_cons. left. apply H1, Hin.
    + apply elem_of_cons. right. apply H2, Hin.
Qed.

(** A record that neither pass marks has no delegate executed in the call,
    whatever user code does. *)
Lemma Tick_not_marked
    (UserCode : nat -> gmap N FEnhancedTimerData * uint64 ->
                gmap N FEnhancedTimerData * uint64)
    (id : uint64) (H : Host) (dt : float) (s : Subsystem) :
  FiredThisTick s = [] ->
  (forall W T, GetWorld H = Some W -> Timers s !! id = Some T ->
               Due H W dt T = false) ->
  InvocationsOf id (Tick UserCode H dt s).2 = [].
Proof.
  intros Hf0 Hnot. unfold Tick.
  destruct (GetWorld H) as [W|] eqn:HW; [|reflexivity].
  pose proof (MarkDue_Fired_elem H W dt s id Hf0) as Hin.
  assert (Hmem : id ∉ FiredThisTick (MarkDue H W dt s)).
  { intros Hmem. apply Hin in Hmem. destruct Hmem as (T & Hfound & Hdue).
    rewrite (Hnot W T eq_refl Hfound) in Hdue. discriminate. }
  set (s2 := MarkDue H W dt s) in *.
  assert (Hlog : InvocationsOf id (ExecuteFired UserCode s2).2 = []).
  { apply InvocationsOf_nil. intros i Hi E. apply Hmem.
    unfold ExecuteFired in Hi.
    destruct (FiredThisTick s2) as [|a l] eqn:Hq.
    - apply elem_of_nil in Hi. tauto.
    - rewrite <- E. apply (FireLoop_log_ids UserCode (a :: l) _ i Hi). }
  destruct (ExecuteFired UserCode s2) as [s3 Log]. exact Hlog.
Qed.

Section SparedFacts.

Variable UserCode : nat -> gmap N FEnhancedTimerData * uint64 ->
                    gmap N FEnhancedTimerData * uint64.
Variable id : uint64.
Hypothesis Hspares : Spares UserCode id.

Lemma RunUserCode_spared (f : nat) (s : Subsystem) (T : FEnhancedTimerData) :
  Unpaused <$> Timers s !! id = Some (Unpaused T) ->
  Unpaused <$> Timers (RunUserCode UserCode f s) !! id = Some (Unpaused T).
Proof using Hspares.
  intros Hfound. destruct (Unpaused_lookup _ T Hfound) as (T0 & E0 & HU0).
  unfold RunUserCode. specialize (Hspares f (Timers s, NextId s) T0 E0).
  destruct (UserCode f (Timers s, NextId s)) as [m n].
  rewrite <- HU0. exact Hspares.
Qed.

Lemma FireOne_spared_other (k : uint64) (s : Subsystem)
    (T : FEnhancedTimerData) :
  k <> id -> Unpaused <$> Timers s !! id = Some (Unpaused T) ->
  Unpaused <$> Timers (FireOne UserCode k s).1 !! id = Some (Unpaused T)
  /\ (id ∈ ToRemove (FireOne UserCode k s).1 <-> id ∈ ToRemove s)
  /\ InvocationsOf id (FireOne UserCode k s).2 = [].
Proof using Hspares.
  intros Hne Hfound. unfold FireOne, GetData, FindMutable.
  assert (Hlog : forall f, InvocationsOf id [ {| FiredId := k; Callee := f |} ] = []).
  { intros f. unfold InvocationsOf. cbn.
    destruct (N.eqb_spec k id) as [E|_]; [contradiction|reflexivity]. }
  assert (Hmem : forall l : list uint64, id ∈ l ++ [k] <-> id ∈ l).
  { intros l. rewrite elem_of_app, list_elem_of_singleton.
    split; [intros [?|?]; [assumption|congruence] | auto]. }
  destruct (Timers s !! k) as [Copy|]; [|repeat split; auto].
  destruct (Callback Copy) as [f|].
  - pose proof (RunUserCode_spared f s T Hfound) as Hl.
    destruct (RunUserCode_buffers UserCode f s) as (_ & Hr & _).
    destruct (Timers (RunUserCode UserCode f s) !! k) as [Mut|];
      [destruct (bLoop Mut)|]; cbn [fst snd Timers ToRemove set_Timers set_ToRemove].
    + rewrite lookup_insert_ne by exact Hne. rewrite Hl, Hr, Hlog. tauto.
    + rewrite Hl, Hmem, Hr, Hlog. tauto.
    + rewrite Hl, Hr, Hlog. tauto.
  - destruct (Timers s !! k) as [Mut|];
      [destruct (bLoop Mut)|]; cbn [fst snd Timers ToRemove set_Timers set_ToRemove].
    + rewrite lookup_insert_ne by exact Hne. tauto.
    + rewrite Hmem. tauto.
    + tauto.
Qed.

Lemma FireOne_spared_self (s : Subsystem) (T : FEnhancedTimerData) :
  Unpaused <$> Timers s !! id = Some (Unpaused T) ->
  InvocationsOf id (FireOne UserCode id s).2 = FiredLog id T
  /\ (if bLoop T
      then Unpaused <$> Timers (FireOne UserCode id s).1 !! id
           = Some (Unpaused (rearm T))
           /\ (id ∈ ToRemove (FireOne UserCode id s).1 <-> id ∈ ToRemove s)
      else Unpaused <$> Timers (FireOne UserCode id s).1 !! id
           = Some (Unpaused T)
           /\ id ∈ ToRemove (FireOne UserCode id s).1).
Proof using Hspares.
  intros Hfound.
  destruct (Unpaused_lookup _ T Hfound) as (T0 & E0 & HU0).
  destruct (Unpaused_fields T T0 HU0) as (Hcb0 & _).
  unfold FireOne, GetData, FindMutable, FiredLog. rewrite E0, Hcb0.
  assert (Hlast : forall l : list uint64, id ∈ l ++ [id]).
  { intros l. apply elem_of_app. right. apply list_elem_of_singleton.
    reflexivity. }
  destruct (Callback T) as [f|].
  - pose proof (RunUserCode_spared f s T Hfound) as Hl.
    destruct (Unpaused_lookup _ T Hl) as (T1 & E1 & HU1).
    destruct (Unpaused_fields T T1 HU1) as (_ & Hloop1 & _ & _ & _ & Hrearm1).
    destruct (RunUserCode_buffers UserCode f s) as (_ & Hr & _).
    rewrite E1, Hloop1.
    destruct (bLoop T); cbn [fst snd Timers ToRemove set_Timers set_ToRemove].
    + rewrite lookup_insert_eq, Hr. cbn [fmap option_fmap option_map].
      rewrite Hrearm1. unfold InvocationsOf. cbn. rewrite N.eqb_refl. tauto.
    + rewrite E1. cbn [fmap option_fmap option_map]. rewrite HU1.
      unfold InvocationsOf. cbn. rewrite N.eqb_refl.
      split; [reflexivity|]. split; [reflexivity | apply Hlast].
  - destruct (Unpaused_fields T T0 HU0) as (_ & Hloop0 & _ & _ & _ & Hrearm0).
    rewrite E0, Hloop0.
    destruct (bLoop T); cbn [fst snd Timers ToRemove set_Timers set_ToRemove].
    + rewrite lookup_insert_eq. cbn [fmap option_fmap option_map].
      rewrite Hrearm0. tauto.
    + rewrite E0. cbn [fmap option_fmap option_map]. rewrite HU0.
      split; [reflexivity|]. split; [reflexivity | apply Hlast].
Qed.

Lemma FireLoop_spared_other (l : list uint64) :
  forall (s : Subsystem) (T : FEnhancedTimerData),
    id ∉ l -> Unpaused <$> Timers s !! id = Some (Unpaused T) ->
    Unpaused <$> Timers (FireLoop UserCode l s).1 !! id = Some (Unpaused T)
    /\ (id ∈ ToRemove (FireLoop UserCode l s).1 <-> id ∈ ToRemove s)
    /\ InvocationsOf id (FireLoop UserCode l s).2 = [].
Proof using Hspares.
  induction l as [|k l IH]; intros s T Hnot Hfound; cbn [FireLoop].
  - cbn. tauto.
  - apply not_elem_of_cons in Hnot. destruct Hnot as [Hne Hnot].
    destruct (FireOne_spared_other k s T) as (Ht & Hr & Hlog);
      [congruence | exact Hfound |].
    destruct (FireOne UserCode k s) as [s1 Log1]. cbn [fst snd] in Ht, Hr, Hlog.
    destruct (IH s1 T Hnot Ht) as (Ht' & Hr' & Hlog').
    destruct (FireLoop UserCode l s1) as [s2 Log2]. cbn [fst snd] in *.
    rewrite InvocationsOf_app, Hlog, Hlog', Ht', Hr', Hr. tauto.
Qed.

Lemma FireLoop_spared_self (l : list uint64) :
  forall (s : Subsystem) (T : FEnhancedTimerData),
    NoDup l -> id ∈ l -> Unpaused <$> Timers s !! id = Some (Unpaused T) ->
    InvocationsOf id (FireLoop UserCode l s).2 = FiredLog id T
    /\ (if bLoop T
        then Unpaused <$> Timers (FireLoop UserCode l s).1 !! id
             = Some (Unpaused (rearm T))
             /\ (id ∈ ToRemove (FireLoop UserCode l s).1 <-> id ∈ ToRemove s)
        else Unpaused <$> Timers (FireLoop UserCode l s).1 !! id
             = Some (Unpaused T)
             /\ id ∈ ToRemove (FireLoop UserCode l s).1).
Proof using Hspares.
  induction l as [|k l IH]; intros s T Hnd Hin Hfound.
  - apply elem_of_nil in Hin. destruct Hin.
  - apply NoDup_cons in Hnd. destruct Hnd as [Hfresh Hnd]. cbn [FireLoop].
    destruct (decide (k = id)) as [-> | Hne].
    + destruct (FireOne_spared_self s T Hfound) as (Hlog & Hafter).
      destruct (FireOne UserCode id s) as [s1 Log1]. cbn [fst snd] in Hlog, Hafter.
      destruct (bLoop T).
      * destruct Hafter as [Ht Hr].
        destruct (FireLoop_spared_other l s1 (rearm T) Hfresh Ht)
          as (Ht' & Hr' & Hlog').
        destruct (FireLoop UserCode l s1) as [s2 Log2]. cbn [fst snd] in *.
        rewrite InvocationsOf_app, Hlog, Hlog', app_nil_r, Hr'. tauto.
      * destruct Hafter as [Ht Hr].
        destruct (FireLoop_spared_other l s1 T Hfresh Ht)
          as (Ht' & Hr' & Hlog').
        destruct (FireLoop UserCode l s1) as [s2 Log2]. cbn [fst snd] in *.
        rewrite InvocationsOf_app, Hlog, Hlog', app_nil_r, Hr'. tauto.
    + apply elem_of_cons in Hin. destruct Hin as [E | Hin]; [congruence|].
      destruct (FireOne_spared_other k s T Hne Hfound) as (Ht & Hr & Hlog).
      destruct (FireOne UserCode k s) as [s1 Log1]. cbn [fst snd] in Ht, Hr, Hlog.
      destruct (IH s1 T Hnd Hin Ht) as (Hlog' & Hafter).
      destruct (FireLoop UserCode l s1) as [s2 Log2]. cbn [fst snd] in *.
      rewrite InvocationsOf_app, Hlog, Hlog'.
      split; [reflexivity|].
      destruct (bLoop T); [rewrite <- Hr|]; exact Hafter.
Qed.

(** One call of [Tick], seen from a record that is in the store.  The
    record it leaves is given up to the pause flag, which user code may have
    written. *)
Lemma Tick_spared (H : Host) (W : UWorld) (dt : float) (s : Subsystem)
    (T : FEnhancedTimerData) :
  Idle s -> GetWorld H = Some W -> Timers s !! id = Some T ->
  Idle (Tick UserCode H dt s).1
  /\ (if Due H W dt T
      then InvocationsOf id (Tick UserCode H dt s).2 = FiredLog id T
           /\ Unpaused <$> Timers (Tick UserCode H dt s).1 !! id
              = if bLoop T
                then Some (Unpaused
                             (rearm (MutableBody H W (IsGamePaused H) dt T).1))
                else None
      else InvocationsOf id (Tick UserCode H dt s).2 = []
           /\ Unpaused <$> Timers (Tick UserCode H dt s).1 !! id
              = Some (Unpaused (MutableBody H W (IsGamePaused H) dt T).1)).
Proof using Hspares.
  intros (Hf0 & Hr0 & Hu0) HW Hfound. unfold Tick. rewrite HW.
  pose proof (MarkDue_Timers H W dt s id) as Hl2. rewrite Hfound in Hl2.
  cbn [fmap option_fmap option_map] in Hl2.
  destruct (MarkDue_frame H W dt s) as (Hr2 & Hu2 & _).
  pose proof (MarkDue_Fired_NoDup H W dt s Hf0) as Hnd.
  pose proof (MarkDue_Fired_elem H W dt s id Hf0) as Hin.
  destruct (MutableBody_configuration H W (IsGamePaused H) dt T)
    as (_ & Hd & Hdd & Hud & Hloop & _).
  set (T' := (MutableBody H W (IsGamePaused H) dt T).1) in *.
  set (s2 := MarkDue H W dt s) in *.
  destruct (ExecuteFired_buffers UserCode s2) as [Hf3 Hu3].
  assert (HnotR : id ∉ ToRemove s2).
  { rewrite Hr2, Hr0. apply not_elem_of_nil. }
  assert (Hl2' : Unpaused <$> Timers s2 !! id = Some (Unpaused T')).
  { rewrite Hl2. reflexivity. }
  split.
  { destruct (ExecuteFired UserCode s2) as [s3 Log]. cbn [fst] in *.
    destruct (Cleanup_buffers s3) as (Hf4 & Hr4 & Hu4).
    unfold Idle. rewrite Hf4, Hf3. auto. }
  assert (Hcb : FiredLog id T' = FiredLog id T).
  { unfold FiredLog, Callback. rewrite Hd, Hdd, Hud. reflexivity. }
  unfold ExecuteFired in *.
  destruct (Due H W dt T) eqn:Hdue.
  - assert (Hmem : id ∈ FiredThisTick s2) by (apply Hin; eauto).
    destruct (FiredThisTick s2) as [|a l] eqn:Hq;
      [apply elem_of_nil in Hmem; tauto|].
    destruct (FireLoop_spared_self (a :: l) (set_FiredThisTick s2 []) T'
                Hnd Hmem Hl2') as (Hlog & Hafter).
    rewrite Hcb, Hloop in *.
    destruct (FireLoop UserCode (a :: l) (set_FiredThisTick s2 []))
      as [s3 Log]. cbn [fst snd] in *.
    split; [exact Hlog|].
    rewrite Cleanup_lookup by congruence.
    destruct (bLoop T).
    + destruct Hafter as [Ht Hr]. cbn [ToRemove set_FiredThisTick] in Hr.
      rewrite decide_False by tauto. exact Ht.
    + destruct Hafter as [Ht Hr]. rewrite decide_True by exact Hr. reflexivity.
  - assert (Hmem : id ∉ FiredThisTick s2).
    { intros Hmem. apply Hin in Hmem. destruct Hmem as (T0 & E & Hd0).
      congruence. }
    destruct (FiredThisTick s2) as [|a l] eqn:Hq.
    + cbn [fst snd]. split; [reflexivity|].
      rewrite Cleanup_lookup by congruence.
      rewrite decide_False by exact HnotR. exact Hl2'.
    + destruct (FireLoop_spared_other (a :: l) (set_FiredThisTick s2 []) T'
                  Hmem Hl2') as (Ht & Hr & Hlog).
      destruct (FireLoop UserCode (a :: l) (set_FiredThisTick s2 []))
        as [s3 Log]. cbn [fst snd] in *.
      split; [exact Hlog|].
      rewrite Cleanup_lookup by congruence.
      cbn [ToRemove Timers set_FiredThisTick] in Hr.
      rewrite decide_False by tauto. exact Ht.
Qed.

(** A looping record is in the store after any run of frames. *)
Lemma Ticks_spared_looping (Frames : list (Host * float)) :
  forall (s : Subsystem) (T : FEnhancedTimerData),
    Idle s -> Timers s !! id = Some T -> bLoop T = true ->
    exists T', Timers (Ticks UserCode Frames s).1 !! id = Some T'
               /\ bLoop T' = true.
Proof using Hspares.
  induction Frames as [|[H dt] Frames IH]; intros s T Hidle Hfound Hloop;
    cbn [Ticks].
  - exists T. auto.
  - assert (Hstep : exists T1, Idle (Tick UserCode H dt s).1
                      /\ Timers (Tick UserCode H dt s).1 !! id = Some T1
                      /\ bLoop T1 = true).
    { destruct (GetWorld H) as [W|] eqn:HW.
      - destruct (Tick_spared H W dt s T Hidle HW Hfound) as [Hidle1 Hcase].
        destruct (MutableBody_configuration H W (IsGamePaused H) dt T)
          as (_ & _ & _ & _ & Hloop' & _).
        rewrite Hloop in Hcase, Hloop'.
        destruct (Due H W dt T); destruct Hcase as [_ Hl];
          destruct (Unpaused_lookup _ _ Hl) as (T1 & E1 & HU1);
          destruct (Unpaused_fields _ T1 HU1) as (_ & Hloop1 & _);
          exists T1; (split; [exact Hidle1|]); (split; [exact E1|]);
          rewrite Hloop1; exact Hloop'.
      - unfold Tick. rewrite HW. exists T. auto. }
    destruct Hstep as (T1 & Hidle1 & Hfound1 & Hloop1).
    destruct (Tick UserCode H dt s) as [s1 Log1]. cbn [fst snd] in *.
    destruct (IH s1 T1 Hidle1 Hfound1 Hloop1) as (T' & Hl & Hloop').
    destruct (Ticks UserCode Frames s1) as [s2 Log2]. cbn [fst snd] in *.
    exists T'. auto.
Qed.

Hypothesis Hgone : NeverRevives UserCode id.

(** One call of [Tick], and a run of them, seen from an id that is not in
    the store. *)
Lemma Tick_gone (H : Host) (dt : float) (s : Subsystem) :
  Idle s -> Timers s !! id = None ->
  Idle (Tick UserCode H dt s).1
  /\ InvocationsOf id (Tick UserCode H dt s).2 = []
  /\ Timers (Tick UserCode H dt s).1 !! id = None.
Proof using Hgone.
  intros Hidle Hmiss.
  pose proof (Tick_not_marked UserCode id H dt s (proj1 Hidle)) as Hlog.
  unfold Tick in *.
  destruct (GetWorld H) as [W|]; [|cbn; auto].
  destruct Hidle as (Hf0 & Hr0 & Hu0).
  pose proof (MarkDue_Timers H W dt s id) as Hl2. rewrite Hmiss in Hl2.
  cbn [fmap option_fmap option_map] in Hl2.
  destruct (MarkDue_frame H W dt s) as (_ & Hu2 & _).
  set (s2 := MarkDue H W dt s) in *.
  destruct (ExecuteFired_buffers UserCode s2) as [Hf3 Hu3].
  assert (Hafter : Timers (ExecuteFired UserCode s2).1 !! id = None).
  { unfold ExecuteFired. destruct (FiredThisTick s2) as [|a l] eqn:Hq.
    - exact Hl2.
    - apply (FireLoop_gone UserCode id Hgone (a :: l) (set_FiredThisTick s2 [])
               Hl2). }
  specialize (Hlog ltac:(intros W0 T0 _ E; congruence)).
  destruct (ExecuteFired UserCode s2) as [s3 Log]. cbn [fst snd] in *.
  destruct (Cleanup_buffers s3) as (Hf4 & Hr4 & Hu4).
  split; [unfold Idle; rewrite Hf4, Hf3; auto|].
  split; [exact Hlog|].
  rewrite Cleanup_lookup by congruence.
  destruct (decide (id ∈ ToRemove s3)); [reflexivity | exact Hafter].
Qed.

Lemma Ticks_gone (Frames : list (Host * float)) :
  forall s : Subsystem,
    Idle s -> Timers s !! id = None ->
    InvocationsOf id (Ticks UserCode Frames s).2 = []
    /\ Timers (Ticks UserCode Frames s).1 !! id = None.
Proof using Hgone.
  induction Frames as [|[H dt] Frames IH]; intros s Hidle Hmiss; cbn [Ticks].
  - cbn. auto.
  - destruct (Tick_gone H dt s Hidle Hmiss) as (Hidle1 & Hlog1 & Hmiss1).
    destruct (Tick UserCode H dt s) as [s1 Log1]. cbn [fst snd] in *.
    destruct (IH s1 Hidle1 Hmiss1) as (Hlog2 & Hmiss2).
    destruct (Ticks UserCode Frames s1) as [s2 Log2]. cbn [fst snd] in *.
    rewrite InvocationsOf_app, Hlog1, Hlog2. auto.
Qed.

(** A non-looping record over a run of frames: its delegate is executed at
    most once, and once it has been executed the record is gone. *)
Lemma Ticks_spared_one_shot (Frames : list (Host * float)) :
  forall (s : Subsystem) (T : FEnhancedTimerData),
    Idle s -> Timers s !! id = Some T -> bLoop T = false ->
    (length (InvocationsOf id (Ticks UserCode Frames s).2) <= 1)%nat
    /\ (InvocationsOf id (Ticks UserCode Frames s).2 <> [] ->
        Timers (Ticks UserCode Frames s).1 !! id = None).
Proof using Hspares Hgone.
  induction Frames as [|[H dt] Frames IH]; intros s T Hidle Hfound Hloop;
    cbn [Ticks].
  - cbn. split; [lia | congruence].
  - destruct (GetWorld H) as [W|] eqn:HW.
    + destruct (Tick_spared H W dt s T Hidle HW Hfound) as [Hidle1 Hcase].
      destruct (MutableBody_configuration H W (IsGamePaused H) dt T)
        as (_ & _ & _ & _ & Hloop' & _).
      rewrite Hloop in Hcase, Hloop'.
      destruct (Tick UserCode H dt s) as [s1 Log1]. cbn [fst snd] in *.
      destruct (Due H W dt T).
      * destruct Hcase as [Hlog1 Hgone1].
        assert (Hmiss : Timers s1 !! id = None).
        { destruct (Timers s1 !! id); [discriminate Hgone1 | reflexivity]. }
        destruct (Ticks_gone Frames s1 Hidle1 Hmiss) as [Hlog2 Hmiss2].
        destruct (Ticks UserCode Frames s1) as [s2 Log2]. cbn [fst snd] in *.
        rewrite InvocationsOf_app, Hlog1, Hlog2, app_nil_r.
        split; [|intros _; exact Hmiss2].
        unfold FiredLog. destruct (Callback T); cbn; lia.
      * destruct Hcase as [Hlog1 Hkept].
        destruct (Unpaused_lookup _ _ Hkept) as (T1 & E1 & HU1).
        destruct (Unpaused_fields _ T1 HU1) as (_ & Hloop1 & _).
        rewrite Hloop' in Hloop1.
        destruct (IH s1 T1 Hidle1 E1 Hloop1) as [Hlen Hgone'].
        destruct (Ticks UserCode Frames s1) as [s2 Log2]. cbn [fst snd] in *.
        rewrite InvocationsOf_app, Hlog1. cbn [app]. auto.
    + unfold Tick. rewrite HW.
      destruct (IH s T Hidle Hfound Hloop) as [Hlen Hgone'].
      destruct (Ticks UserCode Frames s) as [s2 Log2]. cbn [fst snd app] in *.
      auto.
Qed.

End SparedFacts.

(** ** Phase transition and firing *)

Lemma Due_initial_delay (H : Host) (W : UWorld) (dt : float)
    (T : FEnhancedTimerData) :
  bNextTick T = false -> Phase T = InitialDelayPhase -> Due H W dt T = false.
Proof.
  intros Hnt Hphase. unfold Due, PreMarked. rewrite Hnt, andb_false_r.
  cbn [orb]. destruct (Frozen (IsGamePaused H) T) eqn:Hf.
  - rewrite (MutableBody_frozen H W _ dt T Hf). reflexivity.
  - rewrite (MutableBody_processed H W _ dt T Hf Hnt). cbn zeta.
    rewrite Hphase. cbn [phase_eqb andb].
    match goal with |- context [if ?c then _ else _] => destruct c end;
      reflexivity.
Qed.

(** C2.  Within one call of [Tick], for a record the mutable pass processes
    (not frozen, not a next-tick record), with [e] its elapsed time once
    advanced by the effective delta: if it is in the initial-delay phase and
    [e >= InitialDelay - epsilon], it ends the pass in the running phase with
    no elapsed time and its id is not in [FiredThisTick]; its id is in
    [FiredThisTick] after the pass exactly when it was in the running phase
    with [e + epsilon >= Duration]; and a record that starts the call in the
    initial-delay phase has no delegate executed in that call. *)
Theorem transition_excludes_firing (H : Host) (W : UWorld) (dt : float)
    (s : Subsystem) (id : uint64) (T : FEnhancedTimerData) :
  FiredThisTick s = [] ->
  Timers s !! id = Some T ->
  Frozen (IsGamePaused H) T = false -> bNextTick T = false ->
  let e := (PhaseElapsed T + GetEffectiveDelta H T dt (Some W))%Q in
  let s2 := MarkDue H W dt s in
  (Phase T = InitialDelayPhase ->
   (InitialDelay T - KINDA_SMALL_NUMBER <= e)%Q ->
   (id ∉ FiredThisTick s2)
   /\ exists T', Timers s2 !! id = Some T'
                 /\ Phase T' = Running /\ PhaseElapsed T' = 0%Q)
  /\ (id ∈ FiredThisTick s2
      <-> Phase T = Running /\ (Duration T <= e + KINDA_SMALL_NUMBER)%Q)
  /\ (forall UserCode,
        LeavesAlone UserCode id -> Idle s -> GetWorld H = Some W ->
        Phase T = InitialDelayPhase ->
        InvocationsOf id (Tick UserCode H dt s).2 = []).
Proof.
  intros Hidle Hfound Hf Hnt e s2.
  pose proof (MarkDue_Timers H W dt s id) as Hl2. rewrite Hfound in Hl2.
  cbn [fmap option_fmap option_map] in Hl2.
  pose proof (MarkDue_Fired_elem H W dt s id Hidle) as Hin.
  pose proof (MutableBody_processed H W _ dt T Hf Hnt) as Hbody.
  cbn zeta in Hbody. fold e in Hbody.
  assert (Hdue : Due H W dt T = (MutableBody H W (IsGamePaused H) dt T).2).
  { unfold Due, PreMarked. rewrite Hnt, andb_false_r. reflexivity. }
  assert (Hmark : id ∈ FiredThisTick s2
                  <-> (MutableBody H W (IsGamePaused H) dt T).2 = true).
  { subst s2. rewrite Hin. split.
    - intros (T0 & E & Hd). congruence.
    - intros Hm. exists T. split; [exact Hfound | congruence]. }
  split; [|split].
  - intros Hphase Hreach.
    assert (Hcond : phase_eqb (Phase T) InitialDelayPhase
                    && Qle_bool (InitialDelay T) (e + KINDA_SMALL_NUMBER)%Q = true).
    { rewrite Hphase. cbn [phase_eqb andb]. apply Qle_bool_iff. lra. }
    rewrite Hcond in Hbody. split.
    + rewrite Hmark, Hbody. cbn. discriminate.
    + exists (set_Phase T Running 0%Q). subst s2. rewrite Hl2, Hbody.
      repeat split.
  - rewrite Hmark, Hbody.
    destruct (Phase T) eqn:Hphase; cbn [phase_eqb andb].
    + destruct (Qle_bool (InitialDelay T) (e + KINDA_SMALL_NUMBER)%Q);
        cbn [snd]; (split; [discriminate | intros [? _]; discriminate]).
    + cbn [snd]. rewrite Qle_bool_iff. tauto.
  - intros UserCode Halone Hidle' HW Hphase.
    destruct (Tick_present UserCode id Halone H W dt s T Hidle' HW Hfound)
      as [_ Hcase].
    rewrite (Due_initial_delay H W dt T Hnt Hphase) in Hcase.
    apply Hcase.
Qed.

Lemma transition_excludes_firing_witness :
  (1%N ∉ FiredThisTick (MarkDue PlayingWorld Playing 2%Q DelayedTimer.2))
  /\ exists T', Timers (MarkDue PlayingWorld Playing 2%Q DelayedTimer.2) !! 1%N
                = Some T'
                /\ Phase T' = Running /\ PhaseElapsed T' = 0%Q.
Proof.
  apply (transition_excludes_firing PlayingWorld Playing 2%Q DelayedTimer.2
           1%N DelayedRecord eq_refl eq_refl eq_refl eq_refl).
  - reflexivity.
  - unfold DelayedRecord, KINDA_SMALL_NUMBER, GetEffectiveDelta. cbn. lra.
Defined.

(** ** The two pause mechanisms *)

Lemma Frozen_not_Due (H : Host) (W : UWorld) (dt : float)
    (T : FEnhancedTimerData) :
  Frozen (IsGamePaused H) T = true ->
  Due H W dt T = false /\ MutableBody H W (IsGamePaused H) dt T = (T, false).
Proof.
  intros Hf. unfold Due, PreMarked.
  rewrite (MutableBody_frozen H W _ dt T Hf), Hf. auto.
Qed.

Lemma GetEffectiveDelta_WithGamePaused (b : bool) (H : Host)
    (T : FEnhancedTimerData) (dt : float) (W : UWorld) :
  GetEffectiveDelta (WithGamePaused b H) T dt
    (Some {| bGamePaused := b; TimeDilation := TimeDilation W |})
  = GetEffectiveDelta H T dt (Some W).
Proof.
  unfold GetEffectiveDelta, WeakGet. cbn [Actors WithGamePaused TimeDilation].
  reflexivity.
Qed.

(** For a record that is not explicitly paused and keeps running during the
    game pause, both passes do what they do when the game is not paused. *)
Lemma immune_as_not_paused (H : Host) (W : UWorld) (dt : float)
    (T : FEnhancedTimerData) :
  bPaused T = false -> bAffectedByGamePause T = true ->
  MutableBody (WithGamePaused false H)
    {| bGamePaused := false; TimeDilation := TimeDilation W |} false dt T
  = MutableBody H W (IsGamePaused H) dt T
  /\ Due (WithGamePaused false H)
       {| bGamePaused := false; TimeDilation := TimeDilation W |} dt T
     = Due H W dt T.
Proof.
  intros Hnp Himmune.
  assert (Hbody : forall b,
            MutableBody (WithGamePaused false H)
              {| bGamePaused := false; TimeDilation := TimeDilation W |} b dt T
            = MutableBody H W (IsGamePaused H) dt T).
  { intros b. unfold MutableBody. rewrite Hnp, Himmune. cbn [negb].
    rewrite !andb_false_r, GetEffectiveDelta_WithGamePaused. reflexivity. }
  split; [apply Hbody|].
  unfold Due, PreMarked, Frozen. rewrite Hbody, Hnp, Himmune. cbn [negb orb].
  rewrite !andb_false_r. reflexivity.
Qed.




(** ** Next-tick timers *)




(** ** One-shot and looping timers over a run of frames *)

Lemma Callback_configuration (T0 T : FEnhancedTimerData) :
  SameConfiguration T0 T -> Callback T = Callback T0.
Proof.
  intros (_ & Hd & Hdd & Hu & _). unfold Callback.
  rewrite Hd, Hdd, Hu. reflexivity.
Qed.




(** ** The scenarios of the specification *)

(** A looping timer of two seconds, frames of half a second: nothing is
    executed in the first three frames, the delegate is executed once in the
    fourth, and not again in the fifth. *)
Example looping_scenario :
  (Ticks Inert (HalfSeconds 3) LoopingTwoSeconds.2).2 = []
  /\ (Ticks Inert (HalfSeconds 4) LoopingTwoSeconds.2).2
     = [ {| FiredId := 1%N; Callee := 7%nat |} ]
  /\ (Ticks Inert (HalfSeconds 5) LoopingTwoSeconds.2).2
     = [ {| FiredId := 1%N; Callee := 7%nat |} ].
Proof. repeat split; vm_compute; reflexivity. Qed.

(** A timer of two seconds following a global dilation of one half, frames of
    one second: it fires in the fourth frame, not in the second. *)
Example global_dilation_scenario :
  (Ticks Inert (repeat (SlowWorld, 1%Q) 3) HalfSpeedTimer.2).2 = []
  /\ (Ticks Inert (repeat (SlowWorld, 1%Q) 4) HalfSpeedTimer.2).2
     = [ {| FiredId := 1%N; Callee := 7%nat |} ].
Proof. repeat split; vm_compute; reflexivity. Qed.

(** A timer with an initial delay of two seconds and a duration of one,
    frames of one second: the second frame ends the delay without firing,
    the third fires. *)
Example initial_delay_scenario :
  (Ticks Inert (repeat (PlayingWorld, 1%Q) 2) DelayedTimer.2).2 = []
  /\ Phase <$> Timers (Ticks Inert (repeat (PlayingWorld, 1%Q) 2) DelayedTimer.2).1
               !! 1%N = Some Running
  /\ (Ticks Inert (repeat (PlayingWorld, 1%Q) 3) DelayedTimer.2).2
     = [ {| FiredId := 1%N; Callee := 7%nat |} ].
Proof. repeat split; vm_compute; reflexivity. Qed.

(** Cancellation during the fire pass: of two next-tick timers whose
    delegates invalidate each other, the one whose turn comes first runs and
    the other, gone when it is fetched again, is skipped.  This is the case
    that [Spares] and [LeavesAlone] set aside. *)
Example cancelled_before_its_turn :
  length (Tick Cancelling PlayingWorld 0%Q TwoNextTickTimers).2 = 1%nat
  /\ Timers (Tick Cancelling PlayingWorld 0%Q TwoNextTickTimers).1 = ∅.
Proof. split; vm_compute; reflexivity. Qed.

(** ** Invariants assumed above *)

(** The private buffers are empty in a new subsystem, stay empty through the
    creation and control calls, and are empty again after every [Tick]. *)
Lemma Idle_invariant
    (UserCode : nat -> gmap N FEnhancedTimerData * uint64 ->
                gmap N FEnhancedTimerData * uint64) :
  (forall this, Idle (NewSubsystem this))
  /\ (forall s, Idle (Deinitialize s))
  /\ (forall c s, Idle s -> Idle (Create c s).2)
  /\ (forall h s, Idle s ->
        Idle (InvalidateTimer h s) /\ Idle (PauseTimer h s)
        /\ Idle (UnpauseTimer h s))
  /\ (forall s, Idle s ->
        Idle (InvalidateAllTimers s) /\ Idle (PauseAllTimers s)
        /\ Idle (UnpauseAllTimers s))
  /\ (forall H dt s, Idle s -> Idle (Tick UserCode H dt s).1).
Proof.
  split; [intros this; repeat split|].
  split; [intros s; repeat split|].
  split; [intros c s Hidle; destruct c; exact Hidle|].
  split.
  { intros h s Hidle.
    unfold InvalidateTimer, PauseTimer, UnpauseTimer, FindMutable.
    destruct (HandleId h =? 0)%N; destruct (Timers s !! HandleId h);
      repeat split; apply Hidle. }
  split; [intros s Hidle; repeat split; apply Hidle|].
  intros H dt s Hidle. unfold Tick.
  destruct (GetWorld H) as [W|]; [|exact Hidle].
  destruct (ExecuteFired_buffers UserCode (MarkDue H W dt s)) as [Hf _].
  destruct (ExecuteFired UserCode (MarkDue H W dt s)) as [s3 Log].
  cbn [fst] in *.
  destruct (Cleanup_buffers s3) as (Hf4 & Hr4 & Hu4).
  unfold Idle. rewrite Hf4, Hf. auto.
Qed.

(** The counter is a non-zero 64-bit value in a new subsystem and stays one
    through allocations, creation calls and [Deinitialize]. *)
Lemma CounterOk_invariant :
  (forall this, CounterOk (NewSubsystem this))
  /\ (forall s, CounterOk (Deinitialize s))
  /\ (forall s, CounterOk s -> CounterOk (AllocateId s).2)
  /\ (forall c s, CounterOk s -> CounterOk (Create c s).2).
Proof.
  assert (Hone : (0 < 1 < UINT64_MODULUS)%N) by (modulus_numeral; lia).
  split; [intros this; exact Hone|].
  split; [intros s; exact Hone|].
  split; [intros s Hok; apply (AllocateId_next s Hok)|].
  intros c s Hok.
  destruct (AllocateId_next s Hok) as (_ & _ & Hok').
  destruct c; exact Hok'.
Qed.

(** * Further properties of the code *)

(** ** Pausing, unpausing and invalidating one timer *)

Lemma set_bPaused_round_trip (T : FEnhancedTimerData) :
  bPaused T = false -> set_bPaused (set_bPaused T true) false = T.
Proof. destruct T; cbn. intros ->. reflexivity. Qed.

(** X1.  [PauseTimer] sets the pause flag of the handle's record and nothing
    else: the record is then reported paused, its elapsed time and time left
    are what they were, [UnpauseTimer] after it gives back the store of a
    timer that was not paused, and every other record is untouched.  On an id
    that is not in the store both calls leave the subsystem as it is. *)
Theorem pause_unpause_round_trip (h : FEnhancedTimerHandle) (s : Subsystem) :
  (forall T, Timers s !! HandleId h = Some T ->
     IsTimerPaused (PauseTimer h s) h = true
     /\ IsTimerPaused (UnpauseTimer h s) h = false
     /\ Timers (PauseTimer h s) !! HandleId h = Some (set_bPaused T true)
     /\ GetTimerElapsedTime (PauseTimer h s) h = GetTimerElapsedTime s h
     /\ GetTimerTimeLeft (PauseTimer h s) h = GetTimerTimeLeft s h
     /\ (bPaused T = false ->
         Timers (UnpauseTimer h (PauseTimer h s)) = Timers s))
  /\ (Timers s !! HandleId h = None ->
      PauseTimer h s = s /\ UnpauseTimer h s = s)
  /\ (forall k, k <> HandleId h ->
        Timers (PauseTimer h s) !! k = Timers s !! k
        /\ Timers (UnpauseTimer h s) !! k = Timers s !! k).
Proof.
  split; [|split].
  - intros T Hfound.
    unfold IsTimerPaused, GetTimerElapsedTime, GetTimerTimeLeft, PauseTimer,
      UnpauseTimer, FindMutable, GetData.
    rewrite Hfound. cbn [Timers set_Timers]. rewrite !lookup_insert_eq.
    repeat split.
    intros Hnp. cbn [Timers set_Timers].
    rewrite insert_insert_eq, (set_bPaused_round_trip T Hnp).
    apply insert_id, Hfound.
  - intros Hmiss. unfold PauseTimer, UnpauseTimer, FindMutable.
    rewrite Hmiss. split; reflexivity.
  - intros k Hne. unfold PauseTimer, UnpauseTimer, FindMutable.
    destruct (Timers s !! HandleId h) as [T|]; cbn [Timers set_Timers];
      [|split; reflexivity].
    rewrite !lookup_insert_ne by congruence. split; reflexivity.
Qed.

Lemma pause_unpause_round_trip_witness :
  IsTimerPaused (PauseTimer OneShotTwoSeconds.1 OneShotTwoSeconds.2)
    OneShotTwoSeconds.1 = true
  /\ Timers (UnpauseTimer OneShotTwoSeconds.1
               (PauseTimer OneShotTwoSeconds.1 OneShotTwoSeconds.2))
     = Timers OneShotTwoSeconds.2
  /\ PauseTimer DelayedTimer.1 (NewSubsystem 0) = NewSubsystem 0.
Proof.
  destruct (pause_unpause_round_trip OneShotTwoSeconds.1 OneShotTwoSeconds.2)
    as (Hpresent & _ & _).
  destruct (Hpresent OneShotRecord eq_refl) as (Hp & _ & _ & _ & _ & Hround).
  destruct (pause_unpause_round_trip DelayedTimer.1 (NewSubsystem 0))
    as (_ & Hmissing & _).
  split; [exact Hp|]. split; [exact (Hround eq_refl)|].
  exact (proj1 (Hmissing eq_refl)).
Defined.

(** X2.  [InvalidateTimer] removes the handle's record and only that one:
    afterwards the handle is not valid and every query on it returns its
    sentinel, pausing it does nothing, a second [InvalidateTimer] changes
    nothing more, and the other records are untouched.  With the id [0] the
    call leaves the subsystem as it is. *)
Theorem invalidate_removes_one (h : FEnhancedTimerHandle) (s : Subsystem) :
  IsTimerValid (InvalidateTimer h s) h = false
  /\ InvalidateTimer h (InvalidateTimer h s) = InvalidateTimer h s
  /\ (forall k, k <> HandleId h ->
        Timers (InvalidateTimer h s) !! k = Timers s !! k)
  /\ (HandleId h = 0%N -> InvalidateTimer h s = s)
  /\ (HandleId h <> 0%N ->
      Timers (InvalidateTimer h s) !! HandleId h = None
      /\ GetTimerTimeLeft (InvalidateTimer h s) h = (-1)%Q
      /\ GetTimerDuration (InvalidateTimer h s) h = (-1)%Q
      /\ PauseTimer h (InvalidateTimer h s) = InvalidateTimer h s
      /\ UnpauseTimer h (InvalidateTimer h s) = InvalidateTimer h s).
Proof.
  unfold InvalidateTimer, IsTimerValid.
  destruct (N.eqb_spec (HandleId h) 0) as [Hz | Hnz].
  - rewrite Hz. cbn. repeat split; try reflexivity; congruence.
  - cbn [Timers set_Timers].
    split.
    { apply bool_decide_eq_false. rewrite lookup_delete_eq.
      intros [x Hx]. discriminate. }
    split.
    { unfold set_Timers. cbn. f_equal. apply map_eq. intros k.
      destruct (decide (k = HandleId h)) as [-> | Hne].
      - rewrite !lookup_delete_eq. reflexivity.
      - rewrite !lookup_delete_ne by congruence. reflexivity. }
    split; [intros k Hne; apply lookup_delete_ne; congruence|].
    split; [congruence|].
    intros _.
    unfold GetTimerTimeLeft, GetTimerDuration, PauseTimer, UnpauseTimer,
      GetData, FindMutable. cbn [Timers set_Timers].
    rewrite lookup_delete_eq. repeat split.
Qed.

Lemma invalidate_removes_one_witness :
  Timers (InvalidateTimer OneShotTwoSeconds.1 OneShotTwoSeconds.2) !! 1%N = None
  /\ InvalidateTimer InvalidHandle OneShotTwoSeconds.2 = OneShotTwoSeconds.2.
Proof.
  destruct (invalidate_removes_one OneShotTwoSeconds.1 OneShotTwoSeconds.2)
    as (_ & _ & _ & _ & Hgone).
  destruct (invalidate_removes_one InvalidHandle OneShotTwoSeconds.2)
    as (_ & _ & _ & Hzero & _).
  split; [apply Hgone; discriminate | apply Hzero; reflexivity].
Defined.

(** ** Creation, seen through the handle *)

(** [ApplyInitialDelay] writes [InitialDelay], [Phase] and [PhaseElapsed]
    only. *)
Lemma ApplyInitialDelay_keeps (Data : FEnhancedTimerData) (delay var rand : float) :
  let T := ApplyInitialDelay Data delay var rand in
  bLoop T = bLoop Data /\ bAffectedByGamePause T = bAffectedByGamePause Data
  /\ DilationMode T = DilationMode Data /\ DilationActor T = DilationActor Data
  /\ Duration T = Duration Data /\ bPaused T = bPaused Data
  /\ bNextTick T = bNextTick Data /\ Callback T = Callback Data
  /\ Id T = Id Data.
Proof.
  unfold ApplyInitialDelay.
  destruct (Qlt_bool 0%Q delay || Qlt_bool 0%Q var); [|repeat split].
  destruct (Qlt_bool 0%Q (FMath_Max 0%Q (delay + FMath_Max 0%Q rand)%Q));
    repeat split.
Qed.

(** X3.  The handle a creation call returns names the subsystem as its owner
    and is valid in the subsystem the call leaves (the counter being
    non-zero); the queries on it give back the call's arguments: the loop
    flag, the game-pause flag, the dilation mode, [max(0, duration)]; the
    timer is not paused and nothing has elapsed.  A next-tick timer reports
    no loop, the game-pause flag set, the ignore mode and a duration of [0]. *)
Theorem created_timer_answers_queries (c : CreationCall) (s : Subsystem)
    (Objects : nat -> option Subsystem) :
  NextId s <> 0%N ->
  Objects (This s) = Some (Create c s).2 ->
  let h := (Create c s).1 in
  let s' := (Create c s).2 in
  Owner h = Some (This s)
  /\ IsTimerValid s' h = true
  /\ Handle_IsValid Objects h = true
  /\ IsTimerPaused s' h = false
  /\ GetTimerElapsedTime s' h = 0%Q
  /\ match c with
     | Call_SetEnhancedTimer _ dur mode _ affected loop _ _ _
     | Call_SetEnhancedTimer_BP _ dur mode _ affected loop _ _ _ =>
         IsTimerLooping s' h = loop
         /\ IsTimerAffectedByGamePause s' h = affected
         /\ GetTimerTimeDilationMode s' h = mode
         /\ GetTimerDuration s' h == Qmax 0 dur
     | Call_NextTick _ | Call_NextTick_BP _ =>
         IsTimerLooping s' h = false
         /\ IsTimerAffectedByGamePause s' h = true
         /\ GetTimerTimeDilationMode s' h = IgnoreTimeDilation
         /\ GetTimerDuration s' h = 0%Q
     end.
Proof.
  intros Hcounter Hobj h s'. subst h s'.
  destruct (Create_stores c s) as (T & Hid & Hmap & HidT & HT).
  assert (Hfound : Timers (Create c s).2 !! HandleId (Create c s).1 = Some T).
  { rewrite Hid, Hmap. apply lookup_insert_eq. }
  assert (Hvalid : IsTimerValid (Create c s).2 (Create c s).1 = true).
  { unfold IsTimerValid. rewrite Hfound, Hid.
    destruct (N.eqb_spec (NextId s) 0) as [E|_]; [contradiction|].
    apply bool_decide_eq_true. eexists. reflexivity. }
  assert (Howner : Owner (Create c s).1 = Some (This s))
    by (destruct c; reflexivity).
  split; [exact Howner|]. split; [exact Hvalid|].
  split.
  { unfold Handle_IsValid, OwnerGet. rewrite Howner, Hobj, Hvalid, Hid.
    destruct (N.eqb_spec (NextId s) 0) as [E|_]; [contradiction|reflexivity]. }
  unfold IsTimerPaused, GetTimerElapsedTime, IsTimerLooping,
    IsTimerAffectedByGamePause, GetTimerTimeDilationMode, GetTimerDuration,
    GetData.
  rewrite Hfound. clear Hfound Hvalid Hmap Hobj Howner Hid.
  destruct c; subst T; try (repeat split; fail).
  - match goal with |- context [ApplyInitialDelay ?D ?a ?b ?r] =>
      destruct (ApplyInitialDelay_shape D a b r eq_refl eq_refl eq_refl)
        as (He & _);
      destruct (ApplyInitialDelay_keeps D a b r)
        as (Hl & Ha & Hm & _ & Hd & Hp & _)
    end.
    rewrite He, Hl, Ha, Hm, Hd, Hp. cbn.
    repeat split. apply FMath_Max_Qmax.
  - match goal with |- context [ApplyInitialDelay ?D ?a ?b ?r] =>
      destruct (ApplyInitialDelay_shape D a b r eq_refl eq_refl eq_refl)
        as (He & _);
      destruct (ApplyInitialDelay_keeps D a b r)
        as (Hl & Ha & Hm & _ & Hd & Hp & _)
    end.
    rewrite He, Hl, Ha, Hm, Hd, Hp. cbn.
    repeat split. apply FMath_Max_Qmax.
Qed.

Lemma created_timer_answers_queries_witness :
  Handle_IsValid (OnlyObject (Create JitteredCall (NewSubsystem 0)).2)
    (Create JitteredCall (NewSubsystem 0)).1 = true
  /\ IsTimerLooping (Create JitteredCall (NewSubsystem 0)).2
       (Create JitteredCall (NewSubsystem 0)).1 = false.
Proof.
  destruct (created_timer_answers_queries JitteredCall (NewSubsystem 0)
              (OnlyObject (Create JitteredCall (NewSubsystem 0)).2))
    as (_ & _ & Hvalid & _ & _ & Hloop & _).
  - discriminate.
  - reflexivity.
  - split; [exact Hvalid | exact Hloop].
Defined.

(** X4.  A creation call stores its record under the counter's value and
    touches no other record.  The store grows by one when that id is free
    and keeps its size, the record under the id being replaced, when it is
    not.  While every id in the store is below the counter and the counter
    is not at its last value, the id is free and the property carries over
    to the subsystem the call leaves. *)
Theorem create_adds_one_record (c : CreationCall) (s : Subsystem) :
  HandleId (Create c s).1 = NextId s
  /\ (forall k, k <> NextId s ->
        Timers (Create c s).2 !! k = Timers s !! k)
  /\ (Timers s !! NextId s = None ->
      size (Timers (Create c s).2) = S (size (Timers s)))
  /\ (is_Some (Timers s !! NextId s) ->
      size (Timers (Create c s).2) = size (Timers s))
  /\ (KeysBelowCounter s -> (NextId s + 1 < UINT64_MODULUS)%N ->
      Timers s !! NextId s = None
      /\ NextId (Create c s).2 = (NextId s + 1)%N
      /\ KeysBelowCounter (Create c s).2).
Proof.
  destruct (Create_stores c s) as (T & Hid & Hmap & _ & _).
  split; [exact Hid|]. rewrite Hmap.
  split; [intros k Hne; apply lookup_insert_ne; congruence|].
  split; [intros Hfree; apply map_size_insert_None, Hfree|].
  split; [intros Hused; apply map_size_insert_Some, Hused|].
  intros Hbelow Hroom.
  assert (Hfree : Timers s !! NextId s = None).
  { destruct (Timers s !! NextId s) as [T0|] eqn:E; [|reflexivity].
    apply Hbelow in E. lia. }
  assert (Hnext : NextId (Create c s).2 = (NextId s + 1)%N).
  { assert (E : NextId (Create c s).2 = NextId (AllocateId s).2)
      by (destruct c; reflexivity).
    rewrite E, AllocateId_eq. cbn [snd NextId set_NextId].
    revert Hroom. modulus_numeral. intros Hroom.
    rewrite N.mod_small by exact Hroom.
    destruct (N.eqb_spec (NextId s + 1) 0); [lia | reflexivity]. }
  split; [exact Hfree|]. split; [exact Hnext|].
  intros k T0. rewrite Hnext, Hmap.
  destruct (decide (k = NextId s)) as [-> | Hne].
  - intros _. lia.
  - rewrite lookup_insert_ne by congruence. intros E. apply Hbelow in E. lia.
Qed.

Lemma create_adds_one_record_witness :
  size (Timers (Create JitteredCall OneShotTwoSeconds.2).2) = 2%nat
  /\ KeysBelowCounter (Create JitteredCall OneShotTwoSeconds.2).2.
Proof.
  assert (Hbelow : KeysBelowCounter OneShotTwoSeconds.2).
  { intros k T. destruct (decide (k = 1%N)) as [-> | Hne].
    - intros _. vm_compute. reflexivity.
    - unfold OneShotTwoSeconds, SetEnhancedTimer. cbn.
      rewrite lookup_insert_ne by congruence. rewrite lookup_empty.
      discriminate. }
  destruct (create_adds_one_record JitteredCall OneShotTwoSeconds.2)
    as (_ & _ & Hgrow & _ & Hinv).
  destruct (Hinv Hbelow) as (Hfree & _ & Hbelow').
  { vm_compute. reflexivity. }
  split; [exact (Hgrow Hfree) | exact Hbelow'].
Defined.

(** ** Bulk operations *)

(** A call of [Tick] in which every record is frozen executes nothing and
    leaves the store as it is, whatever the user code. *)
Lemma Tick_all_frozen
    (UserCode : nat -> gmap N FEnhancedTimerData * uint64 ->
                gmap N FEnhancedTimerData * uint64)
    (H : Host) (dt : float) (s : Subsystem) :
  Idle s ->
  (forall k T, Timers s !! k = Some T -> Frozen (IsGamePaused H) T = true) ->
  (Tick UserCode H dt s).2 = []
  /\ Timers (Tick UserCode H dt s).1 = Timers s.
Proof.
  intros (Hf0 & Hr0 & Hu0) Hall. unfold Tick.
  destruct (GetWorld H) as [W|]; [|split; reflexivity].
  assert (Hfired : FiredThisTick (MarkDue H W dt s) = []).
  { destruct (FiredThisTick (MarkDue H W dt s)) as [|k l] eqn:E; [reflexivity|].
    assert (Hin : k ∈ FiredThisTick (MarkDue H W dt s)) by (rewrite E; left).
    apply (MarkDue_Fired_elem H W dt s k Hf0) in Hin.
    destruct Hin as (T & Hk & Hdue).
    destruct (Frozen_not_Due H W dt T (Hall k T Hk)) as [Hnot _]. congruence. }
  assert (Hsame : Timers (MarkDue H W dt s) = Timers s).
  { assert (Hpoint : forall k : uint64,
              Timers (MarkDue H W dt s) !! k = Timers s !! k).
    { intros k. rewrite MarkDue_Timers.
      destruct (Timers s !! k) as [T|] eqn:Hk; [|reflexivity].
      cbn [fmap option_fmap option_map].
      rewrite (MutableBody_frozen H W _ dt T (Hall k T Hk)). reflexivity. }
    apply map_eq. intros k. apply Hpoint. }
  destruct (MarkDue_frame H W dt s) as (Hr2 & Hu2 & _).
  unfold ExecuteFired. rewrite Hfired. cbn [fst snd].
  unfold Cleanup. rewrite Hr2, Hu2, Hr0, Hu0. auto.
Qed.

(** X5.  After [PauseAllTimers] every timer in the store is reported paused,
    the handles that were valid still are, and a call of [Tick] executes no
    delegate and leaves the store as it is, whatever the delta, the host and
    the user code; [UnpauseAllTimers] reports every timer not paused.  After
    [InvalidateAllTimers] no handle is valid and [Tick] finds nothing to do. *)
Theorem bulk_operations
    (UserCode : nat -> gmap N FEnhancedTimerData * uint64 ->
                gmap N FEnhancedTimerData * uint64)
    (H : Host) (dt : float) (s : Subsystem) :
  Idle s ->
  (forall h, IsTimerValid (PauseAllTimers s) h = IsTimerValid s h
             /\ IsTimerValid (UnpauseAllTimers s) h = IsTimerValid s h
             /\ IsTimerValid (InvalidateAllTimers s) h = false
             /\ IsTimerPaused (UnpauseAllTimers s) h = false
             /\ (is_Some (Timers s !! HandleId h) ->
                 IsTimerPaused (PauseAllTimers s) h = true))
  /\ ((Tick UserCode H dt (PauseAllTimers s)).2 = []
      /\ Timers (Tick UserCode H dt (PauseAllTimers s)).1
         = Timers (PauseAllTimers s))
  /\ ((Tick UserCode H dt (InvalidateAllTimers s)).2 = []
      /\ Timers (Tick UserCode H dt (InvalidateAllTimers s)).1 = ∅).
Proof.
  intros Hidle. split; [|split].
  - intros h.
    unfold IsTimerValid, IsTimerPaused, PauseAllTimers, UnpauseAllTimers,
      InvalidateAllTimers, GetData. cbn [Timers set_Timers].
    rewrite !lookup_fmap, lookup_empty.
    destruct (Timers s !! HandleId h) as [T|]; cbn;
      destruct (HandleId h =? 0)%N; repeat split;
      try (apply bool_decide_eq_false; intros [x Hx]; discriminate);
      try (intros [x Hx]; discriminate).
  - apply Tick_all_frozen; [exact Hidle|].
    intros k T. unfold PauseAllTimers. cbn [Timers set_Timers].
    rewrite lookup_fmap. destruct (Timers s !! k) as [T0|]; [|discriminate].
    cbn. intros E. inversion E. reflexivity.
  - apply (Tick_all_frozen UserCode H dt (InvalidateAllTimers s)); [exact Hidle|].
    intros k T. unfold InvalidateAllTimers. cbn [Timers set_Timers].
    rewrite lookup_empty. discriminate.
Qed.

Lemma bulk_operations_witness :
  (Tick Inert PlayingWorld 5%Q (PauseAllTimers OneShotTwoSeconds.2)).2 = []
  /\ Timers (Tick Inert PlayingWorld 5%Q (PauseAllTimers OneShotTwoSeconds.2)).1
     = Timers (PauseAllTimers OneShotTwoSeconds.2).
Proof.
  apply (bulk_operations Inert PlayingWorld 5%Q OneShotTwoSeconds.2).
  repeat split.
Defined.

(** ** The queries and the dilation at their edges *)

(** X6.  For a timer in the store whose elapsed time is not negative,
    [GetTimerTimeLeft] lies between [0] and the threshold of the timer's
    phase (its initial delay or its duration); while the elapsed time is
    within the threshold, time left and elapsed time add up to it; once the
    elapsed time has passed the threshold the time left is [0], never
    negative. *)
Theorem time_left_complements_elapsed (s : Subsystem) (h : FEnhancedTimerHandle)
    (T : FEnhancedTimerData) :
  Timers s !! HandleId h = Some T ->
  (0 <= GetTimerTimeLeft s h)%Q
  /\ ((0 <= PhaseElapsed T)%Q -> (0 <= PhaseThreshold T)%Q ->
      (GetTimerTimeLeft s h <= PhaseThreshold T)%Q)
  /\ ((PhaseElapsed T <= PhaseThreshold T)%Q ->
      GetTimerTimeLeft s h + GetTimerElapsedTime s h == PhaseThreshold T)
  /\ ((PhaseThreshold T <= PhaseElapsed T)%Q -> GetTimerTimeLeft s h == 0).
Proof.
  intros Hfound.
  unfold GetTimerTimeLeft, GetTimerElapsedTime, GetData, PhaseThreshold.
  rewrite Hfound.
  destruct (phase_eqb (Phase T) InitialDelayPhase);
    match goal with |- context [FMath_Max 0%Q ?x] =>
      destruct (FMath_Max_cases 0%Q x) as [[Hx ->] | [Hx ->]] end;
    repeat split; intros; lra.
Qed.

Lemma time_left_complements_elapsed_witness :
  GetTimerTimeLeft DelayedTimer.2 DelayedTimer.1
  + GetTimerElapsedTime DelayedTimer.2 DelayedTimer.1 == 2.
Proof.
  destruct (time_left_complements_elapsed DelayedTimer.2 DelayedTimer.1
              DelayedRecord eq_refl) as (_ & _ & Hsum & _).
  apply Hsum. vm_compute. discriminate.
Defined.

(** X7.  In actor mode the scale is clamped from below by [UE_SMALL_NUMBER]:
    a positive delta gives a positive effective delta even when the actor's
    custom dilation is zero or negative, so the actor cannot stop or reverse
    the timer, and the effective delta is the raw one when the actor is gone.
    In global mode there is no clamp: the effective delta is the product with
    the world's dilation, zero when that is zero, and the raw delta when
    there is no world. *)
Theorem dilation_edges (H : Host) (T : FEnhancedTimerData) (d : float) :
  (DilationMode T = ActorTimeDilation ->
   forall w,
     ((0 < d)%Q -> (0 < GetEffectiveDelta H T d w)%Q)
     /\ ((0 <= d)%Q -> (d * UE_SMALL_NUMBER <= GetEffectiveDelta H T d w)%Q)
     /\ (forall A, WeakGet H (DilationActor T) = Some A ->
                   (CustomTimeDilation A <= UE_SMALL_NUMBER)%Q ->
                   GetEffectiveDelta H T d w == d * UE_SMALL_NUMBER)
     /\ (WeakGet H (DilationActor T) = None -> GetEffectiveDelta H T d w = d))
  /\ (DilationMode T = GlobalTimeDilation ->
      GetEffectiveDelta H T d None = d
      /\ forall W, GetEffectiveDelta H T d (Some W) = (d * TimeDilation W)%Q
                   /\ (TimeDilation W == 0 ->
                       GetEffectiveDelta H T d (Some W) == 0)).
Proof.
  split.
  - intros Hmode w. unfold GetEffectiveDelta. rewrite Hmode.
    destruct (WeakGet H (DilationActor T)) as [A|] eqn:HA.
    + destruct (FMath_Max_cases UE_SMALL_NUMBER (CustomTimeDilation A))
        as [[Hx Hmax] | [Hx Hmax]]; cbn zeta; rewrite Hmax;
        unfold UE_SMALL_NUMBER in *;
        (split; [intros Hd; nra|]); (split; [intros Hd; nra|]);
        (split; [|discriminate]); intros A' E Hsmall; inversion E; subst A'.
      * reflexivity.
      * assert (Heq : CustomTimeDilation A == 1 # 100000000) by lra.
        rewrite Heq. reflexivity.
    + unfold UE_SMALL_NUMBER.
      split; [tauto|]. split; [intros Hd; nra|].
      split; [discriminate | reflexivity].
  - intros Hmode. unfold GetEffectiveDelta. rewrite Hmode.
    split; [reflexivity|]. intros W. split; [reflexivity|].
    intros ->. ring.
Qed.

(** An actor whose custom dilation is zero does not stop its timer: the
    scale is [UE_SMALL_NUMBER].  At half the global speed a frame of one
    second counts for half a second. *)
Lemma dilation_edges_witness :
  Timers ActorTimer.2 !! 1%N = Some ActorRecord
  /\ GetEffectiveDelta StoppedActorWorld ActorRecord 1%Q (Some Playing)
  == 1 * UE_SMALL_NUMBER
  /\ (0 < GetEffectiveDelta StoppedActorWorld ActorRecord 1%Q (Some Playing))%Q
  /\ GetEffectiveDelta SlowWorld HalfSpeedRecord 1%Q (Some HalfSpeed)
     = (1 * (1 # 2))%Q.
Proof.
  destruct (dilation_edges StoppedActorWorld ActorRecord 1%Q) as [Hactor _].
  destruct (dilation_edges SlowWorld HalfSpeedRecord 1%Q) as [_ Hglobal].
  destruct (Hactor eq_refl (Some Playing)) as (Hpos & _ & Hclamp & _).
  split; [reflexivity|]. split; [|split].
  - apply (Hclamp {| CustomTimeDilation := 0%Q |} eq_refl).
    unfold UE_SMALL_NUMBER. cbn. lra.
  - apply Hpos. reflexivity.
  - apply (proj2 (Hglobal eq_refl) HalfSpeed).
Defined.

(** ** Timers do not interfere *)

Section OneTimerFacts.

Variable UserCode : nat -> gmap N FEnhancedTimerData * uint64 ->
                    gmap N FEnhancedTimerData * uint64.
Variable id : uint64.
Hypothesis Halone : LeavesAlone UserCode id.

Lemma Tick_StepTimer (H : Host) (dt : float) (s : Subsystem) :
  Idle s ->
  Idle (Tick UserCode H dt s).1
  /\ Timers (Tick UserCode H dt s).1 !! id
     = (StepTimer id (H, dt) (Timers s !! id)).1
  /\ InvocationsOf id (Tick UserCode H dt s).2
     = (StepTimer id (H, dt) (Timers s !! id)).2.
Proof using Halone.
  intros Hidle. unfold StepTimer. cbn [fst snd].
  destruct (Timers s !! id) as [T|] eqn:Hfound.
  - destruct (GetWorld H) as [W|] eqn:HW.
    + destruct (Tick_present UserCode id Halone H W dt s T Hidle HW Hfound)
        as [Hidle1 Hcase].
      split; [exact Hidle1|].
      destruct (Due H W dt T); destruct Hcase as [Hlog Hl];
        cbn [fst snd]; auto.
    + unfold Tick. rewrite HW. cbn [fst snd]. auto.
  - destruct (Tick_absent UserCode id Halone H dt s Hidle Hfound)
      as (Hidle1 & Hlog & Hl).
    destruct (GetWorld H); cbn [fst snd]; auto.
Qed.

Lemma Ticks_RunTimer (Frames : list (Host * float)) :
  forall s : Subsystem,
    Idle s ->
    Timers (Ticks UserCode Frames s).1 !! id
    = (RunTimer id Frames (Timers s !! id)).1
    /\ InvocationsOf id (Ticks UserCode Frames s).2
       = (RunTimer id Frames (Timers s !! id)).2.
Proof using Halone.
  induction Frames as [|[H dt] Frames IH]; intros s Hidle;
    cbn [Ticks RunTimer]; [cbn; auto|].
  destruct (Tick_StepTimer H dt s Hidle) as (Hidle1 & Hl1 & Hlog1).
  destruct (Tick UserCode H dt s) as [s1 Log1].
  destruct (StepTimer id (H, dt) (Timers s !! id)) as [o1 L1].
  cbn [fst snd] in *. subst o1 L1.
  destruct (IH s1 Hidle1) as [Hl2 Hlog2].
  destruct (Ticks UserCode Frames s1) as [s2 Log2].
  destruct (RunTimer id Frames (Timers s1 !! id)) as [o2 L2].
  cbn [fst snd] in *. subst o2 L2.
  rewrite InvocationsOf_app. auto.
Qed.

End OneTimerFacts.


(** ** Re-arming, removal and cancellation *)

Lemma rearm_restores (T0 T : FEnhancedTimerData) :
  SameConfiguration T0 T -> Phase T0 = Running -> PhaseElapsed T0 = 0%Q ->
  bNextTick T0 = false -> rearm T = T0.
Proof.
  destruct T0, T. unfold SameConfiguration. cbn.
  intros (-> & -> & -> & -> & -> & -> & -> & -> & -> & -> & -> & ->).
  intros -> -> ->. reflexivity.
Qed.







(** ** [Cleanup] with both queues *)

Lemma lookup_fold_unpause (l : list uint64) :
  forall (m : gmap N FEnhancedTimerData) (k : uint64),
    fold_left
      (fun m Id =>
         match m !! Id with
         | Some T => <[Id := set_bPaused T false]> m
         | None => m
         end) l m !! k
    = if decide (k ∈ l) then (fun T => set_bPaused T false) <$> m !! k
      else m !! k.
Proof.
  induction l as [|a l IH]; intros m k; cbn [fold_left].
  - destruct (decide (k ∈ [])) as [Hin|_]; [|reflexivity].
    apply elem_of_nil in Hin. destruct Hin.
  - rewrite IH.
    assert (Hstep : forall j : uint64,
              (match m !! a with
               | Some T => <[a := set_bPaused T false]> m
               | None => m
               end) !! j
              = if decide (j = a) then (fun T => set_bPaused T false) <$> m !! j
                else m !! j).
    { intros j. destruct (decide (j = a)) as [-> | Hne].
      - destruct (m !! a) as [T|] eqn:E.
        + rewrite lookup_insert_eq. reflexivity.
        + rewrite E. reflexivity.
      - destruct (m !! a) as [T|]; [|reflexivity].
        apply lookup_insert_ne. congruence. }
    rewrite Hstep.
    destruct (decide (k = a)) as [-> | Hne].
    + rewrite (decide_True (P := a ∈ a :: l)) by left.
      destruct (decide (a ∈ l)); destruct (m !! a); reflexivity.
    + destruct (decide (k ∈ l)) as [Hin|Hnot].
      * rewrite decide_True by (right; exact Hin). reflexivity.
      * rewrite decide_False; [reflexivity|].
        intros Hin. apply elem_of_cons in Hin. tauto.
Qed.

(** X13.  [Cleanup] applies both queues and empties them: a queued id is
    removed from the store; an id queued for unpausing, and not for removal,
    has its pause flag cleared if it is in the store; every other record is
    left as it is; and [FiredThisTick] and the id counter are not touched. *)
Theorem cleanup_applies_queues (s : Subsystem) (k : uint64) :
  Timers (Cleanup s) !! k
  = (if decide (k ∈ ToRemove s) then None
     else if decide (k ∈ ToUnpause s)
          then (fun T => set_bPaused T false) <$> Timers s !! k
          else Timers s !! k)
  /\ ToRemove (Cleanup s) = [] /\ ToUnpause (Cleanup s) = []
  /\ FiredThisTick (Cleanup s) = FiredThisTick s
  /\ NextId (Cleanup s) = NextId s
  /\ Cleanup (Cleanup s) = Cleanup s.
Proof.
  assert (Hmain :
    Timers (Cleanup s) !! k
    = (if decide (k ∈ ToRemove s) then None
       else if decide (k ∈ ToUnpause s)
            then (fun T => set_bPaused T false) <$> Timers s !! k
            else Timers s !! k)).
  { unfold Cleanup.
    destruct (ToRemove s) as [|a l] eqn:Hr; destruct (ToUnpause s) as [|b l'] eqn:Hu;
      cbn [Timers set_Timers set_ToRemove set_ToUnpause].
    - rewrite !decide_False by apply not_elem_of_nil. reflexivity.
    - rewrite (lookup_fold_unpause (b :: l')). cbn [fold_left].
      rewrite (decide_False (P := k ∈ [])) by apply not_elem_of_nil.
      reflexivity.
    - rewrite (lookup_fold_unpause []).
      rewrite (decide_False (P := k ∈ [])) by apply not_elem_of_nil.
      rewrite (lookup_fold_delete (a :: l)).
      destruct (decide (k ∈ a :: l)); reflexivity.
    - rewrite (lookup_fold_unpause (b :: l')).
      rewrite (lookup_fold_delete (a :: l)).
      destruct (decide (k ∈ a :: l)); destruct (decide (k ∈ b :: l'));
        reflexivity. }
  split; [exact Hmain|].
  destruct (Cleanup_buffers s) as (Hf & Hr & Hu).
  split; [exact Hr|]. split; [exact Hu|]. split; [exact Hf|].
  split.
  - unfold Cleanup. destruct (ToRemove s); destruct (ToUnpause s); reflexivity.
  - unfold Cleanup at 1. rewrite Hr, Hu. reflexivity.
Qed.

(** ** The handle's mutating calls *)

Lemma IsTimerValid_InvalidateTimer (h : FEnhancedTimerHandle) (s : Subsystem) :
  IsTimerValid (InvalidateTimer h s) h = false.
Proof.
  unfold InvalidateTimer, IsTimerValid.
  destruct (N.eqb_spec (HandleId h) 0) as [Hz | Hnz]; [reflexivity|].
  cbn [Timers set_Timers]. apply bool_decide_eq_false.
  rewrite lookup_delete_eq. intros [x Hx]. discriminate.
Qed.

Lemma OnOwner_dead (Objects : nat -> option Subsystem)
    (h : FEnhancedTimerHandle) (f : Subsystem -> Subsystem) :
  OwnerGet Objects h = None -> OnOwner Objects h f = Objects.
Proof.
  unfold OwnerGet, OnOwner. destruct (Owner h) as [o|]; [|reflexivity].
  intros ->. reflexivity.
Qed.

Lemma OnOwner_alive (Objects : nat -> option Subsystem)
    (h : FEnhancedTimerHandle) (f : Subsystem -> Subsystem)
    (o : nat) (sub : Subsystem) :
  Owner h = Some o -> Objects o = Some sub ->
  OwnerGet (OnOwner Objects h f) h = Some (f sub)
  /\ (forall x, x <> o -> OnOwner Objects h f x = Objects x)
  /\ (forall h', Owner h' <> Some o ->
                 OwnerGet (OnOwner Objects h f) h' = OwnerGet Objects h').
Proof.
  intros Ho Hsub. unfold OwnerGet, OnOwner. rewrite Ho, Hsub.
  split; [rewrite Nat.eqb_refl; reflexivity|].
  split.
  - intros x Hne. destruct (Nat.eqb_spec x o); [contradiction|reflexivity].
  - intros h' Hother. destruct (Owner h') as [o'|]; [|reflexivity].
    destruct (Nat.eqb_spec o' o); [congruence|reflexivity].
Qed.

(** X14.  The handle's [Invalidate], [Pause] and [Unpause] act on the owner
    of the handle and on nothing else.  With an owner that is gone they
    change nothing.  With a live owner they are the owner's
    [InvalidateTimer], [PauseTimer] and [UnpauseTimer]: after [Invalidate]
    the handle is not valid, after [Pause] it is reported paused exactly when
    its timer is in the store, after [Unpause] it is reported not paused;
    the other subsystem objects, and what handles of other owners report,
    are untouched. *)
Theorem handle_calls_reach_only_the_owner (Objects : nat -> option Subsystem)
    (h : FEnhancedTimerHandle) :
  (OwnerGet Objects h = None ->
   Handle_HasOwner Objects h = false
   /\ Handle_Invalidate Objects h = Objects
   /\ Handle_Pause Objects h = Objects
   /\ Handle_Unpause Objects h = Objects)
  /\ (forall (o : nat) (sub : Subsystem),
        Owner h = Some o -> Objects o = Some sub ->
        Handle_HasOwner Objects h = true
        /\ Handle_Invalidate Objects h o = Some (InvalidateTimer h sub)
        /\ Handle_Pause Objects h o = Some (PauseTimer h sub)
        /\ Handle_Unpause Objects h o = Some (UnpauseTimer h sub)
        /\ Handle_IsValid (Handle_Invalidate Objects h) h = false
        /\ (Handle_IsPaused (Handle_Pause Objects h) h = true
            <-> is_Some (Timers sub !! HandleId h))
        /\ Handle_IsPaused (Handle_Unpause Objects h) h = false
        /\ (forall x, x <> o ->
              Handle_Invalidate Objects h x = Objects x
              /\ Handle_Pause Objects h x = Objects x
              /\ Handle_Unpause Objects h x = Objects x)
        /\ (forall h', Owner h' <> Some o ->
              Handle_IsValid (Handle_Invalidate Objects h) h'
              = Handle_IsValid Objects h'
              /\ Handle_IsPaused (Handle_Pause Objects h) h'
                 = Handle_IsPaused Objects h'
              /\ Handle_GetTimeLeft (Handle_Invalidate Objects h) h'
                 = Handle_GetTimeLeft Objects h')).
Proof.
  split.
  - intros Hdead. unfold Handle_HasOwner, Handle_Invalidate, Handle_Pause,
      Handle_Unpause. rewrite Hdead, !OnOwner_dead by exact Hdead. auto.
  - intros o sub Ho Hsub.
    destruct (OnOwner_alive Objects h (InvalidateTimer h) o sub Ho Hsub)
      as (Hi & Hix & Hih).
    destruct (OnOwner_alive Objects h (PauseTimer h) o sub Ho Hsub)
      as (Hp & Hpx & Hph).
    destruct (OnOwner_alive Objects h (UnpauseTimer h) o sub Ho Hsub)
      as (Hu & Hux & Huh).
    unfold Handle_HasOwner, Handle_Invalidate, Handle_Pause, Handle_Unpause,
      Handle_IsValid, Handle_IsPaused, Handle_GetTimeLeft.
    rewrite Hi, Hp, Hu.
    assert (Hget : OwnerGet Objects h = Some sub).
    { unfold OwnerGet. rewrite Ho. exact Hsub. }
    rewrite Hget.
    split; [reflexivity|].
    split; [unfold OwnerGet in Hi; rewrite Ho in Hi; exact Hi|].
    split; [unfold OwnerGet in Hp; rewrite Ho in Hp; exact Hp|].
    split; [unfold OwnerGet in Hu; rewrite Ho in Hu; exact Hu|].
    split.
    { rewrite IsTimerValid_InvalidateTimer. apply andb_false_r. }
    split.
    { unfold IsTimerPaused, PauseTimer, FindMutable, GetData.
      destruct (Timers sub !! HandleId h) as [T|] eqn:E.
      - cbn [Timers set_Timers]. rewrite lookup_insert_eq. cbn.
        split; [eexists; reflexivity | reflexivity].
      - rewrite E. split; [discriminate | intros [x Hx]; discriminate]. }
    split.
    { unfold IsTimerPaused, UnpauseTimer, FindMutable, GetData.
      destruct (Timers sub !! HandleId h) as [T|] eqn:E.
      - cbn [Timers set_Timers]. rewrite lookup_insert_eq. reflexivity.
      - rewrite E. reflexivity. }
    split; [intros x Hne; auto|].
    intros h' Hother. rewrite (Hih h' Hother), (Hph h' Hother). auto.
Qed.

Lemma handle_calls_reach_only_the_owner_witness :
  Handle_Invalidate NoObjects OneShotTwoSeconds.1 = NoObjects
  /\ Handle_IsValid
       (Handle_Invalidate (OnlyObject OneShotTwoSeconds.2) OneShotTwoSeconds.1)
       OneShotTwoSeconds.1 = false.
Proof.
  destruct (handle_calls_reach_only_the_owner NoObjects OneShotTwoSeconds.1)
    as [Hdead _].
  destruct (handle_calls_reach_only_the_owner (OnlyObject OneShotTwoSeconds.2)
              OneShotTwoSeconds.1) as [_ Halive].
  split.
  - apply (Hdead eq_refl).
  - apply (Halive 0%nat OneShotTwoSeconds.2 eq_refl eq_refl).
Defined.

(** ** Calls from other threads *)

(** X15.  A mutating entry point called off the game thread does not touch
    the subsystem: it hands the same call, with the same arguments, to the
    game thread, where running it leaves what the direct call would have
    left.  A creation call made that way returns the default handle, whose
    id is [0] and which has no owner: it is valid in no subsystem, before or
    after the deferred creation has run, while the timer that creation makes
    is in the store under the id the direct call would have returned. *)
Theorem off_thread_calls_are_deferred (a : ApiCall) (s : Subsystem) :
  (Invoke false a s).1.2 = s
  /\ (Invoke false a s).2 = [a]
  /\ (Invoke true a s).2 = []
  /\ RunDeferred a s = (OnGameThread a s).2
  /\ (forall c, a = Api_Create c ->
        exists h, (Invoke false a s).1.1 = Some h
                  /\ HandleId h = 0%N /\ Owner h = None
                  /\ (forall s', IsTimerValid s' h = false)
                  /\ (forall Objects, Handle_IsValid Objects h = false
                                      /\ Handle_HasOwner Objects h = false)
                  /\ (NextId s <> 0%N ->
                      exists h', (Invoke true a s).1.1 = Some h'
                                 /\ IsTimerValid (RunDeferred a s) h' = true
                                 /\ IsTimerValid (RunDeferred a s) h = false
                                 /\ HandleId h' <> HandleId h)).
Proof.
  split; [reflexivity|]. split; [reflexivity|].
  split; [unfold Invoke; destruct (OnGameThread a s); reflexivity|].
  split; [unfold RunDeferred, Invoke; destruct (OnGameThread a s); reflexivity|].
  intros c ->. exists InvalidHandle.
  split; [reflexivity|]. split; [reflexivity|]. split; [reflexivity|].
  split; [intros s'; reflexivity|].
  split; [intros Objects; split; reflexivity|].
  intros Hcounter.
  destruct (Create_stores c s) as (T & Hid & Hmap & _ & _).
  exists (Create c s).1.
  unfold RunDeferred, Invoke, OnGameThread.
  destruct (Create c s) as [h' s'] eqn:Hc. cbn [fst snd] in *.
  split; [reflexivity|]. split.
  - unfold IsTimerValid. rewrite Hid, Hmap, lookup_insert_eq.
    destruct (N.eqb_spec (NextId s) 0) as [E|_]; [contradiction|].
    apply bool_decide_eq_true. eexists. reflexivity.
  - split; [reflexivity|]. rewrite Hid. exact Hcounter.
Qed.

Lemma off_thread_calls_are_deferred_witness :
  exists h, (Invoke false (Api_Create JitteredCall) (NewSubsystem 0)).1.1 = Some h
            /\ IsTimerValid (RunDeferred (Api_Create JitteredCall) (NewSubsystem 0)) h
               = false
            /\ exists h', IsTimerValid
                            (RunDeferred (Api_Create JitteredCall) (NewSubsystem 0)) h'
                          = true.
Proof.
  destruct (off_thread_calls_are_deferred (Api_Create JitteredCall) (NewSubsystem 0))
    as (_ & _ & _ & _ & Hcreate).
  destruct (Hcreate JitteredCall eq_refl) as (h & Hret & _ & _ & _ & _ & Hlater).
  destruct Hlater as (h' & _ & Hvalid & Hinvalid & _); [discriminate|].
  exists h. split; [exact Hret|]. split; [exact Hinvalid|].
  exists h'. exact Hvalid.
Defined.

(** X16.  [SetEnhancedTimerAsync] off the game thread changes nothing and
    completes nothing at once; its work is deferred.  On the game thread,
    directly or when the deferred work runs, the completion callback is
    called once, with the handle of the timer just created: a handle with a
    non-zero id that names the subsystem as owner and is valid when the
    callback is entered, and still valid when it returns unless the callback
    itself touched the timer. *)
Theorem async_creation_delivers_valid_handle
    (UserCode : nat -> gmap N FEnhancedTimerData * uint64 ->
                gmap N FEnhancedTimerData * uint64)
    (d : FTimerDelegate) (dur : float) (mode : EEnhancedTimerTimeDilationMode)
    (actor : TWeakObjectPtr) (affected loop : bool) (delay var rand : float)
    (OnComplete : nat) (s : Subsystem) :
  NextId s <> 0%N ->
  SetEnhancedTimerAsync UserCode false d dur mode actor affected loop
    delay var rand OnComplete s = (s, [], true)
  /\ SetEnhancedTimerAsync UserCode true d dur mode actor affected loop
       delay var rand OnComplete s
     = (CreateAndComplete UserCode d dur mode actor affected loop
          delay var rand OnComplete s, false)
  /\ exists h,
       (CreateAndComplete UserCode d dur mode actor affected loop
          delay var rand OnComplete s).2
       = [ {| Delivered := h; Receiver := OnComplete |} ]
       /\ h = (SetEnhancedTimer d dur mode actor affected loop
                 delay var rand s).1
       /\ HandleId h <> 0%N /\ Owner h = Some (This s)
       /\ IsTimerValid (SetEnhancedTimer d dur mode actor affected loop
                          delay var rand s).2 h = true
       /\ (LeavesAlone UserCode (HandleId h) ->
           IsTimerValid (CreateAndComplete UserCode d dur mode actor affected
                           loop delay var rand OnComplete s).1 h = true).
Proof.
  intros Hcounter.
  split; [reflexivity|].
  split.
  { unfold SetEnhancedTimerAsync.
    destruct (CreateAndComplete UserCode d dur mode actor affected loop
                delay var rand OnComplete s); reflexivity. }
  pose (c := Call_SetEnhancedTimer d dur mode actor affected loop delay var rand).
  destruct (Create_stores c s) as (T & Hid & Hmap & _ & _).
  change (Create c s) with (SetEnhancedTimer d dur mode actor affected loop
                              delay var rand s) in Hid, Hmap.
  unfold CreateAndComplete.
  destruct (SetEnhancedTimer d dur mode actor affected loop delay var rand s)
    as [h s1] eqn:Hc.
  cbn [fst snd] in *.
  exists h. split; [reflexivity|]. split; [reflexivity|].
  split; [rewrite Hid; exact Hcounter|].
  split.
  { assert (E : h = (SetEnhancedTimer d dur mode actor affected loop
                       delay var rand s).1) by (rewrite Hc; reflexivity).
    rewrite E. reflexivity. }
  assert (Hvalid : IsTimerValid s1 h = true).
  { unfold IsTimerValid. rewrite Hid, Hmap, lookup_insert_eq.
    destruct (N.eqb_spec (NextId s) 0) as [E|_]; [contradiction|].
    apply bool_decide_eq_true. eexists. reflexivity. }
  split; [exact Hvalid|].
  intros Halone. unfold IsTimerValid in *.
  rewrite (RunUserCode_lookup UserCode (HandleId h) Halone OnComplete s1).
  exact Hvalid.
Qed.

Lemma async_creation_delivers_valid_handle_witness :
  exists h,
    (CreateAndComplete Inert (Some 7%nat) 2%Q IgnoreTimeDilation None false
       false 0%Q 0%Q 0%Q 5%nat (NewSubsystem 0)).2
    = [ {| Delivered := h; Receiver := 5%nat |} ]
    /\ IsTimerValid OneShotTwoSeconds.2 h = true.
Proof.
  destruct (async_creation_delivers_valid_handle Inert (Some 7%nat) 2%Q
              IgnoreTimeDilation None false false 0%Q 0%Q 0%Q 5%nat
              (NewSubsystem 0))
    as (_ & _ & h & Hdone & _ & _ & _ & Hvalid & _).
  - discriminate.
  - exists h. split; [exact Hdone | exact Hvalid].
Defined.

(** ** Pausing over a run of frames *)

Lemma Ticks_Idle
    (UserCode : nat -> gmap N FEnhancedTimerData * uint64 ->
                gmap N FEnhancedTimerData * uint64)
    (Frames : list (Host * float)) :
  forall s : Subsystem, Idle s -> Idle (Ticks UserCode Frames s).1.
Proof.
  induction Frames as [|[H dt] Frames IH]; intros s Hidle; cbn [Ticks];
    [exact Hidle|].
  destruct (Idle_invariant UserCode) as (_ & _ & _ & _ & _ & Htick).
  specialize (Htick H dt s Hidle).
  destruct (Tick UserCode H dt s) as [s1 Log1]. cbn [fst] in Htick.
  specialize (IH s1 Htick).
  destruct (Ticks UserCode Frames s1) as [s2 Log2]. exact IH.
Qed.

Lemma RunTimer_paused (id : uint64) (T : FEnhancedTimerData)
    (Frames : list (Host * float)) :
  bPaused T = true -> RunTimer id Frames (Some T) = (Some T, []).
Proof.
  intros Hp. induction Frames as [|[H dt] Frames IH]; cbn [RunTimer];
    [reflexivity|].
  assert (Hstep : StepTimer id (H, dt) (Some T) = (Some T, [])).
  { unfold StepTimer. cbn [fst snd].
    destruct (GetWorld H) as [W|]; [|reflexivity].
    assert (Hf : Frozen (IsGamePaused H) T = true)
      by (unfold Frozen; rewrite Hp; reflexivity).
    destruct (Frozen_not_Due H W dt T Hf) as [-> ->]. reflexivity. }
  rewrite Hstep, IH. reflexivity.
Qed.



(** ** Handles across [Deinitialize] *)

(** X18.  [Deinitialize] leaves no timer and restarts the counter at [1]:
    every handle is invalid afterwards, and the first creation call after
    it returns the very handle the first creation call of the subsystem's
    earlier life returned.  A copy of that old handle kept by a caller is
    then valid again and answers for the new timer. *)
Theorem handles_alias_after_Deinitialize (c c' : CreationCall) (s : Subsystem) :
  (forall h, IsTimerValid (Deinitialize s) h = false)
  /\ NextId (Deinitialize s) = 1%N
  /\ (Create c' (Initialize (Deinitialize s))).1
     = (Create c (NewSubsystem (This s))).1
  /\ IsTimerValid (Create c' (Initialize (Deinitialize s))).2
       (Create c (NewSubsystem (This s))).1 = true
  /\ exists T', Timers (Create c' (Initialize (Deinitialize s))).2
                  !! HandleId (Create c (NewSubsystem (This s))).1 = Some T'
                /\ Callback T' = match c' with
                                 | Call_SetEnhancedTimer d _ _ _ _ _ _ _ _
                                 | Call_SetEnhancedTimer_BP d _ _ _ _ _ _ _ _
                                 | Call_NextTick d | Call_NextTick_BP d => d
                                 end.
Proof.
  split.
  { intros h. unfold IsTimerValid, Deinitialize. cbn [Timers].
    rewrite lookup_empty. destruct (HandleId h =? 0)%N; [reflexivity|].
    apply bool_decide_eq_false. intros [x Hx]. discriminate. }
  split; [reflexivity|].
  assert (Hsame : (Create c' (Initialize (Deinitialize s))).1
                  = (Create c (NewSubsystem (This s))).1).
  { destruct c, c'; reflexivity. }
  split; [exact Hsame|]. rewrite <- Hsame.
  destruct (Create_stores c' (Initialize (Deinitialize s)))
    as (T & Hid & Hmap & _ & HT).
  assert (Hfound : Timers (Create c' (Initialize (Deinitialize s))).2
                     !! HandleId (Create c' (Initialize (Deinitialize s))).1
                   = Some T).
  { rewrite Hid, Hmap. apply lookup_insert_eq. }
  split.
  - unfold IsTimerValid. rewrite Hfound, Hid.
    change (NextId (Initialize (Deinitialize s))) with 1%N.
    change (1 =? 0)%N with false. cbv iota.
    apply bool_decide_eq_true. eexists. reflexivity.
  - exists T. split; [exact Hfound|].
    destruct c'; subst T; try reflexivity;
      match goal with |- context [ApplyInitialDelay ?D ?a ?b ?r] =>
        destruct (ApplyInitialDelay_keeps D a b r)
          as (_ & _ & _ & _ & _ & _ & _ & Hcb & _); rewrite Hcb
      end; reflexivity.
Qed.

(** ** The order of one fire pass *)

Lemma Tick_at_most_once (id : uint64) (H : Host) (dt : float) (s : Subsystem)
    (T : FEnhancedTimerData) :
  LeavesAlone Inert id -> Idle s -> Timers s !! id = Some T ->
  (length (InvocationsOf id (Tick Inert H dt s).2) <= 1)%nat.
Proof.
  intros Halone Hidle Hfound.
  destruct (Tick_StepTimer Inert id Halone H dt s Hidle) as (_ & _ & ->).
  rewrite Hfound. unfold StepTimer, FiredLog. cbn [fst snd].
  destruct (GetWorld H) as [W|]; [|cbn; lia].
  destruct (Due H W dt T); [|cbn; lia].
  destruct (Callback T); cbn; lia.
Qed.

Lemma flat_map_ext_on {A B : Type} (f g : A -> list B) (l : list A) :
  (forall a, a ∈ l -> f a = g a) -> flat_map f l = flat_map g l.
Proof.
  induction l as [|a l IH]; intros Hext; cbn [flat_map]; [reflexivity|].
  rewrite (Hext a) by left. rewrite IH; [reflexivity|].
  intros b Hb. apply Hext. right. exact Hb.
Qed.

Lemma FireOne_Inert (k : uint64) (s : Subsystem) :
  (FireOne Inert k s).2
  = match Timers s !! k with
    | Some T => FiredLog k T
    | None => []
    end
  /\ forall j, j <> k -> Timers (FireOne Inert k s).1 !! j = Timers s !! j.
Proof.
  unfold FireOne, GetData, FindMutable, FiredLog.
  destruct (Timers s !! k) as [Copy|] eqn:Hk; [|split; reflexivity].
  destruct (Callback Copy) as [f|].
  - change (Timers (RunUserCode Inert f s)) with (Timers s). rewrite Hk.
    destruct (bLoop Copy); cbn [fst snd Timers set_Timers set_ToRemove];
      (split; [reflexivity|]); intros j Hne.
    + apply lookup_insert_ne. congruence.
    + reflexivity.
  - rewrite Hk.
    destruct (bLoop Copy); cbn [fst snd Timers set_Timers set_ToRemove];
      (split; [reflexivity|]); intros j Hne.
    + apply lookup_insert_ne. congruence.
    + reflexivity.
Qed.

Lemma FireLoop_Inert_log (l : list uint64) :
  forall s : Subsystem,
    NoDup l ->
    (FireLoop Inert l s).2
    = flat_map (fun k => match Timers s !! k with
                         | Some T => FiredLog k T
                         | None => []
                         end) l.
Proof.
  induction l as [|k l IH]; intros s Hnd; cbn [FireLoop flat_map];
    [reflexivity|].
  apply NoDup_cons in Hnd. destruct Hnd as [Hfresh Hnd].
  destruct (FireOne_Inert k s) as [Hlog Hother].
  destruct (FireOne Inert k s) as [s1 Log1]. cbn [fst snd] in *.
  specialize (IH s1 Hnd).
  destruct (FireLoop Inert l s1) as [s2 Log2]. cbn [fst snd] in *.
  rewrite Hlog, IH. f_equal.
  apply flat_map_ext_on. intros j Hj.
  rewrite Hother; [reflexivity|]. intros ->. contradiction.
Qed.

(** X19.  When the delegates do not call back into the subsystem, the
    delegates one call of [Tick] executes come in two groups: first those of
    the next-tick timers, then those of the timers that came due by their
    elapsed time.  Each entry is the bound delegate of a timer that was in
    the store when the call began, and no timer has two entries. *)
Theorem next_tick_timers_fire_first (H : Host) (W : UWorld) (dt : float)
    (s : Subsystem) :
  Idle s -> GetWorld H = Some W ->
  exists L1 L2 : list Invocation,
    (Tick Inert H dt s).2 = L1 ++ L2
    /\ (forall i, i ∈ L1 ->
          exists T, Timers s !! FiredId i = Some T
                    /\ bNextTick T = true /\ Callback T = Some (Callee i))
    /\ (forall i, i ∈ L2 ->
          exists T, Timers s !! FiredId i = Some T
                    /\ bNextTick T = false /\ Callback T = Some (Callee i))
    /\ forall id, (length (InvocationsOf id (Tick Inert H dt s).2) <= 1)%nat.
Proof.
  intros Hidle HW.
  pose proof Hidle as (Hf0 & Hr0 & Hu0).
  set (g := fun k : uint64 =>
              match Timers (MarkDue H W dt s) !! k with
              | Some T => FiredLog k T
              | None => []
              end).
  assert (Hlog : (Tick Inert H dt s).2
                 = flat_map g (FiredThisTick (MarkDue H W dt s))).
  { unfold Tick. rewrite HW.
    pose proof (MarkDue_Fired_NoDup H W dt s Hf0) as Hnd.
    unfold ExecuteFired.
    destruct (FiredThisTick (MarkDue H W dt s)) as [|a l] eqn:E;
      [reflexivity|].
    pose proof (FireLoop_Inert_log (a :: l)
                  (set_FiredThisTick (MarkDue H W dt s) []) Hnd) as Hloop.
    destruct (FireLoop Inert (a :: l) (set_FiredThisTick (MarkDue H W dt s) []))
      as [s3 Log]. cbn [fst snd] in *. exact Hloop. }
  assert (Hentry : forall (P : uint64 * FEnhancedTimerData -> bool) i,
            i ∈ flat_map g (map fst (List.filter P (map_to_list (Timers s)))) ->
            exists T, Timers s !! FiredId i = Some T
                      /\ P (FiredId i, T) = true
                      /\ Callback T = Some (Callee i)).
  { intros P i Hi. apply list_elem_of_In, in_flat_map in Hi.
    destruct Hi as (k & Hk & Hi). apply list_elem_of_In in Hk.
    apply elem_of_selected_keys in Hk. destruct Hk as (T & Hin & HP).
    apply elem_of_map_to_list in Hin.
    unfold g in Hi. rewrite MarkDue_Timers, Hin in Hi.
    cbn [fmap option_fmap option_map] in Hi. unfold FiredLog in Hi.
    rewrite (Callback_configuration T _
               (MutableBody_configuration H W (IsGamePaused H) dt T)) in Hi.
    destruct (Callback T) as [f|] eqn:Hcb; [|destruct Hi].
    destruct Hi as [<- | []]. cbn [FiredId Callee].
    exists T. auto. }
  rewrite (MarkDue_Fired H W dt s Hf0), flat_map_app in Hlog.
  eexists. eexists. split; [exact Hlog|].
  split; [|split].
  - intros i Hi. destruct (Hentry _ i Hi) as (T & Hfound & HP & Hcb).
    exists T. cbn [snd] in HP. unfold PreMarked in HP.
    apply andb_true_iff in HP. tauto.
  - intros i Hi. destruct (Hentry _ i Hi) as (T & Hfound & HP & Hcb).
    exists T. cbn [snd] in HP.
    split; [exact Hfound|]. split; [|exact Hcb].
    destruct (bNextTick T) eqn:Hnt; [|reflexivity].
    rewrite (MutableBody_next_tick H W _ dt T Hnt) in HP. discriminate.
  - intros id.
    assert (Halone : LeavesAlone Inert id) by (intros f st; reflexivity).
    destruct (Timers s !! id) as [T|] eqn:Hfound.
    + apply (Tick_at_most_once id H dt s T Halone Hidle Hfound).
    + destruct (Tick_absent Inert id Halone H dt s Hidle Hfound)
        as (_ & -> & _). cbn. lia.
Qed.

Lemma next_tick_timers_fire_first_witness :
  exists L1 L2 : list Invocation,
    (Tick Inert PlayingWorld 5%Q OneShotAndNextTick).2 = L1 ++ L2
    /\ (forall i, i ∈ L1 ->
          exists T, Timers OneShotAndNextTick !! FiredId i = Some T
                    /\ bNextTick T = true /\ Callback T = Some (Callee i))
    /\ (forall i, i ∈ L2 ->
          exists T, Timers OneShotAndNextTick !! FiredId i = Some T
                    /\ bNextTick T = false /\ Callback T = Some (Callee i))
    /\ forall id,
         (length (InvocationsOf id (Tick Inert PlayingWorld 5%Q OneShotAndNextTick).2)
          <= 1)%nat.
Proof.
  apply (next_tick_timers_fire_first PlayingWorld Playing 5%Q OneShotAndNextTick).
  - repeat split.
  - reflexivity.
Defined.
